(** * CommitmentChain: a shallow embedding of the commitment registry

    The contract [CommitmentChain] (Solidity ^0.8.20, on OpenZeppelin's
    upgradeable AccessControl / ReentrancyGuard / Pausable, version 5) is
    embedded as functions in a small state-error-log monad.  A transaction
    either commits a new storage together with the events it emitted, or
    reverts with an error and leaves the storage as it was.

    Data: [uint256] and [address] are naturals in [N]; checked arithmetic
    panics on overflow as Solidity 0.8 does.  Solidity mappings are finite
    maps read with the zero value as default.

    Left out: [console.log] in [createCommitment] (a static call without
    effect on the storage), the UUPS upgrade entry point with
    [_authorizeUpgrade] (it replaces the code itself), [version], and the
    getters Solidity generates for public state variables. *)

From stdpp Require Import base numbers strings list gmap sorting.

Local Open Scope N_scope.
Local Open Scope string_scope.
Local Open Scope list_scope.

(** ** Data model *)

Abbreviation uint256 := N (only parsing).
Abbreviation address := N (only parsing).

Definition MAX_UINT256 : N := 2 ^ 256 - 1.

(** The role identifiers.  In the contract they are [bytes32] values
    ([0x00] and four keccak256 digests); only their being distinct matters. *)
Inductive Role : Type :=
| DEFAULT_ADMIN_ROLE
| POLICE_ROLE
| LAWYER_ROLE
| VERIFIER_ROLE
| EMERGENCY_ROLE.

#[global] Instance Role_eq_dec : EqDecision Role.
Proof. solve_decision. Defined.

Definition Role_to_nat (r : Role) : nat :=
  match r with
  | DEFAULT_ADMIN_ROLE => 0
  | POLICE_ROLE => 1
  | LAWYER_ROLE => 2
  | VERIFIER_ROLE => 3
  | EMERGENCY_ROLE => 4
  end%nat.

Definition Role_of_nat (n : nat) : Role :=
  match n with
  | 0 => DEFAULT_ADMIN_ROLE
  | 1 => POLICE_ROLE
  | 2 => LAWYER_ROLE
  | 3 => VERIFIER_ROLE
  | _ => EMERGENCY_ROLE
  end%nat.

#[global] Instance Role_countable : Countable Role.
Proof.
  apply (inj_countable' Role_to_nat Role_of_nat).
  intros r. destruct r; reflexivity.
Defined.

(** [struct Commitment] *)
Record Commitment : Type := mkCommitment {
  id : uint256;
  initiator : address;
  signer : address;
  witnesses : list address;
  fileHash : string;
  createdAt : uint256;
  initiatorSigned : bool;
  signerSigned : bool;
  witnessSignedCount : uint256;
  isCompleted : bool;
  isFrozen : bool;
  isVerified : bool
}.

(** The value a mapping yields at a key never written. *)
Definition zeroCommitment : Commitment :=
  mkCommitment 0 0 0 [] EmptyString 0 false false 0 false false false.

Definition set_signerSigned (b : bool) (c : Commitment) : Commitment :=
  mkCommitment (id c) (initiator c) (signer c) (witnesses c) (fileHash c)
    (createdAt c) (initiatorSigned c) b (witnessSignedCount c)
    (isCompleted c) (isFrozen c) (isVerified c).

Definition set_witnessSignedCount (n : uint256) (c : Commitment) : Commitment :=
  mkCommitment (id c) (initiator c) (signer c) (witnesses c) (fileHash c)
    (createdAt c) (initiatorSigned c) (signerSigned c) n
    (isCompleted c) (isFrozen c) (isVerified c).

Definition set_isCompleted (b : bool) (c : Commitment) : Commitment :=
  mkCommitment (id c) (initiator c) (signer c) (witnesses c) (fileHash c)
    (createdAt c) (initiatorSigned c) (signerSigned c) (witnessSignedCount c)
    b (isFrozen c) (isVerified c).

Definition set_isFrozen (b : bool) (c : Commitment) : Commitment :=
  mkCommitment (id c) (initiator c) (signer c) (witnesses c) (fileHash c)
    (createdAt c) (initiatorSigned c) (signerSigned c) (witnessSignedCount c)
    (isCompleted c) b (isVerified c).

Definition set_isVerified (b : bool) (c : Commitment) : Commitment :=
  mkCommitment (id c) (initiator c) (signer c) (witnesses c) (fileHash c)
    (createdAt c) (initiatorSigned c) (signerSigned c) (witnessSignedCount c)
    (isCompleted c) (isFrozen c) b.

(** Contract storage: the inherited OpenZeppelin slots followed by the
    contract's own state variables. *)
Record State : Type := mkState {
  _initialized : bool;                          (* Initializable *)
  _roles : gmap (Role * address) bool;          (* AccessControl *)
  _entered : bool;                              (* ReentrancyGuard *)
  _paused : bool;                               (* Pausable *)
  _commitmentIdCounter : uint256;
  commitments : gmap uint256 Commitment;
  witnessSigned : gmap (uint256 * address) bool
}.

Definition genesis : State := mkState false ∅ false false 0 ∅ ∅.

Definition set_initialized (b : bool) (s : State) : State :=
  mkState b (_roles s) (_entered s) (_paused s) (_commitmentIdCounter s)
    (commitments s) (witnessSigned s).

Definition set_roles (r : gmap (Role * address) bool) (s : State) : State :=
  mkState (_initialized s) r (_entered s) (_paused s) (_commitmentIdCounter s)
    (commitments s) (witnessSigned s).

Definition set_entered (b : bool) (s : State) : State :=
  mkState (_initialized s) (_roles s) b (_paused s) (_commitmentIdCounter s)
    (commitments s) (witnessSigned s).

Definition set_paused (b : bool) (s : State) : State :=
  mkState (_initialized s) (_roles s) (_entered s) b (_commitmentIdCounter s)
    (commitments s) (witnessSigned s).

Definition set_commitmentIdCounter (n : uint256) (s : State) : State :=
  mkState (_initialized s) (_roles s) (_entered s) (_paused s) n
    (commitments s) (witnessSigned s).

Definition set_commitments (m : gmap uint256 Commitment) (s : State) : State :=
  mkState (_initialized s) (_roles s) (_entered s) (_paused s)
    (_commitmentIdCounter s) m (witnessSigned s).

Definition set_witnessSigned (m : gmap (uint256 * address) bool) (s : State) : State :=
  mkState (_initialized s) (_roles s) (_entered s) (_paused s)
    (_commitmentIdCounter s) (commitments s) m.

(** Mapping reads. *)
Definition commitmentAt (s : State) (i : uint256) : Commitment :=
  default zeroCommitment (commitments s !! i).

Definition witnessSignedAt (s : State) (i : uint256) (a : address) : bool :=
  default false (witnessSigned s !! (i, a)).

Definition hasRole (s : State) (r : Role) (a : address) : bool :=
  default false (_roles s !! (r, a)).

Inductive Event : Type :=
| CommitmentCreated (i : uint256) (initiator signer : address)
    (fileHash : string) (timestamp : uint256)
| CommitmentSigned (i : uint256) (signer : address) (role : string)
    (timestamp : uint256)
| CommitmentCompleted (i : uint256) (timestamp : uint256)
| CommitmentFrozen (i : uint256) (freezer : address) (timestamp : uint256)
| CommitmentUnfrozen (i : uint256) (unfreezer : address) (timestamp : uint256)
| CommitmentVerified (i : uint256) (verifier : address) (timestamp : uint256)
| Initialized (version : N)
| RoleGranted (r : Role) (account sender : address)
| RoleRevoked (r : Role) (account sender : address)
| Paused (account : address)
| Unpaused (account : address).

Inductive Error : Type :=
| Revert (reason : string)
| Panic (code : N)
| InvalidInitialization
| AccessControlUnauthorizedAccount (account : address) (needed : Role)
| AccessControlBadConfirmation
| ReentrancyGuardReentrantCall
| EnforcedPause
| ExpectedPause.

(** The part of the transaction context the contract reads. *)
Record Env : Type := mkEnv {
  msg_sender : address;
  block_timestamp : uint256
}.

(** ** The transaction monad *)

Inductive Result (A : Type) : Type :=
| Success (a : A) (s : State) (evs : list Event)
| Reverted (e : Error).

Arguments Success {A} a s evs.
Arguments Reverted {A} e.

Definition M (A : Type) : Type := State -> Result A.

Definition ret {A} (a : A) : M A := fun s => Success a s [].

Definition bind {A B} (m : M A) (k : A -> M B) : M B :=
  fun s =>
    match m s with
    | Reverted e => Reverted e
    | Success a s1 evs1 =>
        match k a s1 with
        | Reverted e => Reverted e
        | Success b s2 evs2 => Success b s2 (evs1 ++ evs2)
        end
    end.

Notation "'do' x <- c1 ; c2" := (bind c1 (fun x => c2))
  (at level 10, x name, c1 at level 100, c2 at level 200).

Definition get : M State := fun s => Success s s [].
Definition modify (f : State -> State) : M unit := fun s => Success tt (f s) [].
Definition revert {A} (e : Error) : M A := fun _ => Reverted e.
Definition emit (ev : Event) : M unit := fun s => Success tt s [ev].

Definition require (b : bool) (reason : string) : M unit :=
  if b then ret tt else revert (Revert reason).

(** [x++] on a [uint256], checked (Solidity 0.8): panic 0x11 on overflow;
    yields the incremented value. *)
Definition checked_incr (n : uint256) : M uint256 :=
  if bool_decide (n < MAX_UINT256) then ret (n + 1) else revert (Panic 17).

(** A write through a [Commitment storage] reference. *)
Definition updateCommitment (i : uint256) (f : Commitment -> Commitment) : M unit :=
  modify (fun s => set_commitments (<[i := f (commitmentAt s i)]> (commitments s)) s).

(** ** The contract *)

Section Contract.

Variable env : Env.

(** *** Inherited modifiers and helpers (OpenZeppelin) *)

Definition _checkRole (r : Role) : M unit :=
  do s <- get;
  if hasRole s r (msg_sender env) then ret tt
  else revert (AccessControlUnauthorizedAccount (msg_sender env) r).

Definition onlyRole (r : Role) {A} (body : M A) : M A :=
  do _ <- _checkRole r; body.

Definition whenNotPaused {A} (body : M A) : M A :=
  do s <- get;
  if _paused s then revert EnforcedPause else body.

Definition whenPaused {A} (body : M A) : M A :=
  do s <- get;
  if _paused s then body else revert ExpectedPause.

Definition nonReentrant {A} (body : M A) : M A :=
  do s <- get;
  if _entered s then revert ReentrancyGuardReentrantCall
  else
    do _ <- modify (set_entered true);
    do r <- body;
    do _ <- modify (set_entered false);
    ret r.

Definition initializer (body : M unit) : M unit :=
  do s <- get;
  if _initialized s then revert InvalidInitialization
  else
    do _ <- modify (set_initialized true);
    do _ <- body;
    emit (Initialized 1).

Definition _grantRole (r : Role) (account : address) : M bool :=
  do s <- get;
  if negb (hasRole s r account) then
    do _ <- modify (fun s => set_roles (<[(r, account) := true]> (_roles s)) s);
    do _ <- emit (RoleGranted r account (msg_sender env));
    ret true
  else ret false.

Definition _revokeRole (r : Role) (account : address) : M bool :=
  do s <- get;
  if hasRole s r account then
    do _ <- modify (fun s => set_roles (<[(r, account) := false]> (_roles s)) s);
    do _ <- emit (RoleRevoked r account (msg_sender env));
    ret true
  else ret false.

(** No role admin is ever reassigned, so the admin of every role is
    [DEFAULT_ADMIN_ROLE]. *)
Definition getRoleAdmin (r : Role) : Role := DEFAULT_ADMIN_ROLE.

Definition grantRole (r : Role) (account : address) : M unit :=
  onlyRole (getRoleAdmin r) (do _ <- _grantRole r account; ret tt).

Definition revokeRole (r : Role) (account : address) : M unit :=
  onlyRole (getRoleAdmin r) (do _ <- _revokeRole r account; ret tt).

Definition renounceRole (r : Role) (callerConfirmation : address) : M unit :=
  if bool_decide (callerConfirmation ≠ msg_sender env)
  then revert AccessControlBadConfirmation
  else do _ <- _revokeRole r callerConfirmation; ret tt.

Definition _pause : M unit :=
  whenNotPaused (do _ <- modify (set_paused true); emit (Paused (msg_sender env))).

Definition _unpause : M unit :=
  whenPaused (do _ <- modify (set_paused false); emit (Unpaused (msg_sender env))).

(** *** The contract's own modifiers *)

Definition notFrozen (_commitmentId : uint256) {A} (body : M A) : M A :=
  do s <- get;
  do _ <- require (negb (isFrozen (commitmentAt s _commitmentId)))
            "CommitmentChain: Commitment is frozen";
  body.

Definition validCommitmentId (_commitmentId : uint256) {A} (body : M A) : M A :=
  do s <- get;
  do _ <- require (bool_decide (0 < _commitmentId)
                   && bool_decide (_commitmentId <= _commitmentIdCounter s))
            "CommitmentChain: Invalid commitment ID";
  body.

(** *** initialize *)

Definition initialize (admin : address) : M unit :=
  initializer (
    do _ <- require (bool_decide (admin ≠ 0))
              "CommitmentChain: Invalid admin address";
    do _ <- modify (set_entered false);
    do _ <- modify (set_paused false);
    do _ <- _grantRole DEFAULT_ADMIN_ROLE admin;
    modify (set_commitmentIdCounter 0)).

(** *** Internal helpers *)

Definition _isWitness (_commitmentId : uint256) (_address : address) : M bool :=
  do s <- get;
  ret (existsb (fun w => bool_decide (w = _address))
         (witnesses (commitmentAt s _commitmentId))).

Definition _checkCompletion (_commitmentId : uint256) : M unit :=
  do s <- get;
  let commitment := commitmentAt s _commitmentId in
  if initiatorSigned commitment
     && signerSigned commitment
     && bool_decide (witnessSignedCount commitment
                     = N.of_nat (length (witnesses commitment)))
  then
    do _ <- updateCommitment _commitmentId (set_isCompleted true);
    emit (CommitmentCompleted _commitmentId (block_timestamp env))
  else ret tt.

(** *** createCommitment *)

(** The inner loop [for (j = i + 1; j < _witnesses.length; j++)]. *)
Fixpoint duplicateLoop (wi : address) (rest : list address) : M unit :=
  match rest with
  | [] => ret tt
  | wj :: rest' =>
      do _ <- require (bool_decide (wi ≠ wj))
                "CommitmentChain: Duplicate witness address";
      duplicateLoop wi rest'
  end.

(** The outer loop [for (i = 0; i < _witnesses.length; i++)].  The checks
    that a witness is not the initiator and that it holds [LAWYER_ROLE]
    are commented out in the source and so are absent here. *)
Fixpoint witnessLoop (_signer : address) (ws : list address) : M unit :=
  match ws with
  | [] => ret tt
  | wi :: rest =>
      do _ <- require (bool_decide (wi ≠ 0))
                "CommitmentChain: Invalid witness address";
      do _ <- require (bool_decide (wi ≠ _signer))
                "CommitmentChain: Witness cannot be signer";
      do _ <- duplicateLoop wi rest;
      witnessLoop _signer rest
  end.

(** The modifiers [nonReentrant], [onlyRole(POLICE_ROLE)] and
    [whenNotPaused] are commented out in the source: the function body runs
    unguarded. *)
Definition createCommitment (_fileHash : string) (_signer : address)
    (_witnesses : list address) : M uint256 :=
  do _ <- require (bool_decide (0 < String.length _fileHash)%nat)
            "CommitmentChain: File hash cannot be empty";
  do _ <- require (bool_decide (_signer ≠ 0))
            "CommitmentChain: Invalid signer address";
  do _ <- require (bool_decide (_signer ≠ msg_sender env))
            "CommitmentChain: Signer cannot be initiator";
  do _ <- witnessLoop _signer _witnesses;
  do s <- get;
  do newCommitmentId <- checked_incr (_commitmentIdCounter s);
  do _ <- modify (set_commitmentIdCounter newCommitmentId);
  do _ <- updateCommitment newCommitmentId (fun _ =>
            mkCommitment newCommitmentId (msg_sender env) _signer _witnesses
              _fileHash (block_timestamp env) true false 0 false false false);
  do _ <- emit (CommitmentCreated newCommitmentId (msg_sender env) _signer
                  _fileHash (block_timestamp env));
  do _ <- emit (CommitmentSigned newCommitmentId (msg_sender env) "initiator"
                  (block_timestamp env));
  do _ <- _checkCompletion newCommitmentId;
  ret newCommitmentId.

(** *** signAsSigner *)

Definition signAsSigner (_commitmentId : uint256) : M unit :=
  nonReentrant (whenNotPaused (validCommitmentId _commitmentId
    (notFrozen _commitmentId (
      do s <- get;
      let commitment := commitmentAt s _commitmentId in
      do _ <- require (bool_decide (msg_sender env = signer commitment))
                "CommitmentChain: Not the designated signer";
      do _ <- require (negb (signerSigned commitment))
                "CommitmentChain: Already signed";
      do _ <- require (initiatorSigned commitment)
                "CommitmentChain: Initiator must sign first";
      do _ <- updateCommitment _commitmentId (set_signerSigned true);
      do _ <- emit (CommitmentSigned _commitmentId (msg_sender env) "signer"
                      (block_timestamp env));
      _checkCompletion _commitmentId)))).

(** *** signAsWitness *)

(** [onlyRole(LAWYER_ROLE)] and [whenNotPaused] are commented out in the
    source. *)
Definition signAsWitness (_commitmentId : uint256) : M unit :=
  nonReentrant (validCommitmentId _commitmentId (notFrozen _commitmentId (
    do s <- get;
    let commitment := commitmentAt s _commitmentId in
    do _ <- require (initiatorSigned commitment)
              "CommitmentChain: Initiator must sign first";
    do isW <- _isWitness _commitmentId (msg_sender env);
    do _ <- require isW "CommitmentChain: Not a designated witness";
    do _ <- require (negb (witnessSignedAt s _commitmentId (msg_sender env)))
              "CommitmentChain: Already signed";
    do _ <- modify (fun s => set_witnessSigned
              (<[(_commitmentId, msg_sender env) := true]> (witnessSigned s)) s);
    do n <- checked_incr (witnessSignedCount commitment);
    do _ <- updateCommitment _commitmentId (set_witnessSignedCount n);
    do _ <- emit (CommitmentSigned _commitmentId (msg_sender env) "witness"
                    (block_timestamp env));
    _checkCompletion _commitmentId))).

(** *** Administrative functions *)

(** [onlyRole(EMERGENCY_ROLE)] is commented out in the source. *)
Definition freezeCommitment (_commitmentId : uint256) : M unit :=
  validCommitmentId _commitmentId (
    do s <- get;
    let commitment := commitmentAt s _commitmentId in
    do _ <- require (negb (isFrozen commitment))
              "CommitmentChain: Already frozen";
    do _ <- updateCommitment _commitmentId (set_isFrozen true);
    emit (CommitmentFrozen _commitmentId (msg_sender env) (block_timestamp env))).

(** [onlyRole(EMERGENCY_ROLE)] is commented out in the source. *)
Definition unfreezeCommitment (_commitmentId : uint256) : M unit :=
  validCommitmentId _commitmentId (
    do s <- get;
    let commitment := commitmentAt s _commitmentId in
    do _ <- require (isFrozen commitment)
              "CommitmentChain: Not frozen";
    do _ <- updateCommitment _commitmentId (set_isFrozen false);
    emit (CommitmentUnfrozen _commitmentId (msg_sender env) (block_timestamp env))).

(** [onlyRole(VERIFIER_ROLE)] is commented out in the source. *)
Definition verifyCommitment (_commitmentId : uint256) : M unit :=
  validCommitmentId _commitmentId (
    do s <- get;
    let commitment := commitmentAt s _commitmentId in
    do _ <- require (negb (isVerified commitment))
              "CommitmentChain: Already verified";
    do _ <- require (isCompleted commitment)
              "CommitmentChain: Not completed yet";
    do _ <- updateCommitment _commitmentId (set_isVerified true);
    emit (CommitmentVerified _commitmentId (msg_sender env) (block_timestamp env))).

Definition pause : M unit := onlyRole EMERGENCY_ROLE _pause.

Definition unpause : M unit := onlyRole DEFAULT_ADMIN_ROLE _unpause.

(** *** View functions *)

Definition getCommitment (_commitmentId : uint256) : M Commitment :=
  validCommitmentId _commitmentId (
    do s <- get; ret (commitmentAt s _commitmentId)).

Definition hasWitnessSigned (_commitmentId : uint256) (_witness : address) : M bool :=
  validCommitmentId _commitmentId (
    do s <- get; ret (witnessSignedAt s _commitmentId _witness)).

Definition getRole (_commitmentId : uint256) (_address : address) : M string :=
  validCommitmentId _commitmentId (
    do s <- get;
    let commitment := commitmentAt s _commitmentId in
    if bool_decide (_address = initiator commitment) then ret "initiator"
    else if bool_decide (_address = signer commitment) then ret "signer"
    else
      do isW <- _isWitness _commitmentId _address;
      if isW then ret "witness" else ret "none").

Definition getWitnessCount (_commitmentId : uint256) : M uint256 :=
  validCommitmentId _commitmentId (
    do s <- get;
    ret (N.of_nat (length (witnesses (commitmentAt s _commitmentId))))).

Definition commitmentCount : M uint256 :=
  do s <- get; ret (_commitmentIdCounter s).

End Contract.

(** ** Transactions and executions *)

Inductive Op : Type :=
| Initialize (admin : address)
| GrantRole (r : Role) (account : address)
| RevokeRole (r : Role) (account : address)
| RenounceRole (r : Role) (callerConfirmation : address)
| Pause
| Unpause
| CreateCommitment (_fileHash : string) (_signer : address)
    (_witnesses : list address)
| SignAsSigner (_commitmentId : uint256)
| SignAsWitness (_commitmentId : uint256)
| FreezeCommitment (_commitmentId : uint256)
| UnfreezeCommitment (_commitmentId : uint256)
| VerifyCommitment (_commitmentId : uint256).

(** A call of a state-changing entry point; [createCommitment] returns the
    new id, the others return nothing. *)
Definition dispatch (env : Env) (op : Op) : M (option uint256) :=
  match op with
  | Initialize admin => do _ <- initialize env admin; ret None
  | GrantRole r a => do _ <- grantRole env r a; ret None
  | RevokeRole r a => do _ <- revokeRole env r a; ret None
  | RenounceRole r a => do _ <- renounceRole env r a; ret None
  | Pause => do _ <- pause env; ret None
  | Unpause => do _ <- unpause env; ret None
  | CreateCommitment h sg ws =>
      do i <- createCommitment env h sg ws; ret (Some i)
  | SignAsSigner i => do _ <- signAsSigner env i; ret None
  | SignAsWitness i => do _ <- signAsWitness env i; ret None
  | FreezeCommitment i => do _ <- freezeCommitment env i; ret None
  | UnfreezeCommitment i => do _ <- unfreezeCommitment env i; ret None
  | VerifyCommitment i => do _ <- verifyCommitment env i; ret None
  end.

Record Receipt : Type := mkReceipt {
  outcome : Error + option uint256;
  logs : list Event
}.

(** One transaction: commit on success, keep the storage and log nothing
    on revert. *)
Definition transact (s : State) (tx : Env * Op) : State * Receipt :=
  match dispatch tx.1 tx.2 s with
  | Success r s' evs => (s', mkReceipt (inr r) evs)
  | Reverted e => (s, mkReceipt (inl e) [])
  end.

Fixpoint run (s : State) (txs : list (Env * Op)) : State * list Receipt :=
  match txs with
  | [] => (s, [])
  | tx :: rest =>
      let '(s1, r) := transact s tx in
      let '(s2, rs) := run s1 rest in
      (s2, r :: rs)
  end.

(** The proxy is deployed and initialised in one transaction. *)
Definition deploy (env : Env) (admin : address) : option State :=
  match initialize env admin genesis with
  | Success _ s _ => Some s
  | Reverted _ => None
  end.

Definition allLogs (rs : list Receipt) : list Event := concat (map logs rs).

Definition isCompletedEvent (i : uint256) (ev : Event) : bool :=
  match ev with
  | CommitmentCompleted j _ => bool_decide (j = i)
  | _ => false
  end.

Definition completedEmitted (i : uint256) (evs : list Event) : nat :=
  length (List.filter (isCompletedEvent i) evs).

Definition createdId (r : Receipt) : option uint256 :=
  match outcome r with
  | inr (Some i) => Some i
  | _ => None
  end.

Definition createdIds (rs : list Receipt) : list uint256 := omap createdId rs.

(** ** Derived notions used in the statements *)

Definition b2n (b : bool) : nat := if b then 1%nat else 0%nat.

(** The test of [validCommitmentId]. *)
Definition validId (s : State) (i : uint256) : bool :=
  bool_decide (0 < i) && bool_decide (i <= _commitmentIdCounter s).

(** The test made by [_checkCompletion]. *)
Definition allSigned (c : Commitment) : bool :=
  initiatorSigned c && signerSigned c
  && bool_decide (witnessSignedCount c = N.of_nat (length (witnesses c))).

(** A commitment written to its slot. *)
Definition storeAt (i : uint256) (c : Commitment) (s : State) : State :=
  set_commitments (<[i := c]> (commitments s)) s.

(** What [_checkCompletion] leaves in the slot, and what it logs. *)
Definition completed (c : Commitment) : Commitment :=
  if allSigned c then set_isCompleted true c else c.

Definition completionLog (env : Env) (i : uint256) (c : Commitment) : list Event :=
  if allSigned c then [CommitmentCompleted i (block_timestamp env)] else [].

(** A result with events put in front of its log. *)
Definition logged {A} (evs : list Event) (r : Result A) : Result A :=
  match r with
  | Success a s evs' => Success a s (evs ++ evs')
  | Reverted e => Reverted e
  end.

(** What the validation loops of [createCommitment] accept. *)
Definition witnessesOk (sg : address) (ws : list address) : Prop :=
  NoDup ws /\ Forall (fun w => w ≠ 0 /\ w ≠ sg) ws.

(** The record [createCommitment] stores. *)
Definition newCommitment (env : Env) (i : uint256) (h : string)
    (sg : address) (ws : list address) : Commitment :=
  mkCommitment i (msg_sender env) sg ws h (block_timestamp env)
    true false 0 false false false.

(** [witnessSigned[i][a] = true] *)
Definition signWitness (i : uint256) (a : address) (s : State) : State :=
  set_witnessSigned (<[(i, a) := true]> (witnessSigned s)) s.

(** Role and pause administration leaves the registry proper alone. *)
Definition sameRegistry (s s' : State) : Prop :=
  _initialized s' = _initialized s /\ _entered s' = _entered s
  /\ _commitmentIdCounter s' = _commitmentIdCounter s
  /\ commitments s' = commitments s
  /\ witnessSigned s' = witnessSigned s.

Definition isRegistryOp (op : Op) : bool :=
  match op with
  | CreateCommitment _ _ _ | SignAsSigner _ | SignAsWitness _
  | FreezeCommitment _ | UnfreezeCommitment _ | VerifyCommitment _ => true
  | _ => false
  end.

Definition isCommitmentEvent (ev : Event) : bool :=
  match ev with
  | Initialized _ | RoleGranted _ _ _ | RoleRevoked _ _ _ | Paused _
  | Unpaused _ => false
  | _ => true
  end.

(** The committed effects of the entry points, as a relation between the
    storage before, the value returned, the storage after and the log. *)
Inductive commits (s : State) : option uint256 -> State -> list Event -> Prop :=
| commits_admin s' evs :
    sameRegistry s s' ->
    Forall (fun ev => isCommitmentEvent ev = false) evs ->
    commits s None s' evs
| commits_create env h sg ws i :
    (0 < String.length h)%nat -> sg ≠ 0 -> sg ≠ msg_sender env ->
    witnessesOk sg ws ->
    _commitmentIdCounter s < MAX_UINT256 ->
    i = _commitmentIdCounter s + 1 ->
    commits s (Some i)
      (storeAt i (newCommitment env i h sg ws) (set_commitmentIdCounter i s))
      [CommitmentCreated i (msg_sender env) sg h (block_timestamp env);
       CommitmentSigned i (msg_sender env) "initiator" (block_timestamp env)]
| commits_signer env i c c1 :
    c = commitmentAt s i -> c1 = set_signerSigned true c ->
    _paused s = false -> validId s i = true ->
    isFrozen c = false -> msg_sender env = signer c ->
    signerSigned c = false -> initiatorSigned c = true ->
    commits s None (storeAt i (completed c1) s)
      (CommitmentSigned i (msg_sender env) "signer" (block_timestamp env)
       :: completionLog env i c1)
| commits_witness env i c c1 :
    c = commitmentAt s i ->
    c1 = set_witnessSignedCount (witnessSignedCount c + 1) c ->
    validId s i = true ->
    isFrozen c = false -> initiatorSigned c = true ->
    msg_sender env ∈ witnesses c ->
    witnessSignedAt s i (msg_sender env) = false ->
    witnessSignedCount c < MAX_UINT256 ->
    commits s None (storeAt i (completed c1) (signWitness i (msg_sender env) s))
      (CommitmentSigned i (msg_sender env) "witness" (block_timestamp env)
       :: completionLog env i c1)
| commits_freeze env i c :
    c = commitmentAt s i -> validId s i = true -> isFrozen c = false ->
    commits s None (storeAt i (set_isFrozen true c) s)
      [CommitmentFrozen i (msg_sender env) (block_timestamp env)]
| commits_unfreeze env i c :
    c = commitmentAt s i -> validId s i = true -> isFrozen c = true ->
    commits s None (storeAt i (set_isFrozen false c) s)
      [CommitmentUnfrozen i (msg_sender env) (block_timestamp env)]
| commits_verify env i c :
    c = commitmentAt s i -> validId s i = true ->
    isVerified c = false -> isCompleted c = true ->
    commits s None (storeAt i (set_isVerified true c) s)
      [CommitmentVerified i (msg_sender env) (block_timestamp env)].

(** Witnesses of a list that a predicate marks as signed. *)
Fixpoint countSigned (f : address -> bool) (ws : list address) : nat :=
  match ws with
  | [] => 0
  | w :: rest => b2n (f w) + countSigned f rest
  end%nat.

(** The per-commitment part of the registry invariant. *)
Definition wfCommitment (s : State) (i : uint256) (c : Commitment) : Prop :=
  id c = i
  /\ initiatorSigned c = true
  /\ NoDup (witnesses c)
  /\ witnessSignedCount c = N.of_nat (countSigned (witnessSignedAt s i) (witnesses c))
  /\ isCompleted c = allSigned c
  /\ (isVerified c = true -> isCompleted c = true).

Record Inv (s : State) : Prop := mkInv {
  inv_initialized : _initialized s = true;
  inv_entered : _entered s = false;
  inv_dom : forall i, is_Some (commitments s !! i) <-> validId s i = true;
  inv_signed : forall i a, witnessSignedAt s i a = true -> validId s i = true;
  inv_wf : forall i c, commitments s !! i = Some c -> wfCommitment s i c
}.

(** A commitment and a later version of it: no flag goes back and the
    witness counter does not decrease. *)
Definition grows (c c' : Commitment) : Prop :=
  (initiatorSigned c = true -> initiatorSigned c' = true)
  /\ (signerSigned c = true -> signerSigned c' = true)
  /\ (isCompleted c = true -> isCompleted c' = true)
  /\ (isVerified c = true -> isVerified c' = true)
  /\ witnessSignedCount c <= witnessSignedCount c'.

(** Every field but [isFrozen] agrees. *)
Definition sameButFrozen (c c' : Commitment) : Prop :=
  id c' = id c /\ initiator c' = initiator c /\ signer c' = signer c
  /\ witnesses c' = witnesses c /\ fileHash c' = fileHash c
  /\ createdAt c' = createdAt c
  /\ initiatorSigned c' = initiatorSigned c
  /\ signerSigned c' = signerSigned c
  /\ witnessSignedCount c' = witnessSignedCount c
  /\ isCompleted c' = isCompleted c
  /\ isVerified c' = isVerified c.

(** The storage outside the slot of commitment [i] is the same. *)
Definition sameOutside (i : uint256) (s s' : State) : Prop :=
  _initialized s' = _initialized s /\ _roles s' = _roles s
  /\ _entered s' = _entered s /\ _paused s' = _paused s
  /\ _commitmentIdCounter s' = _commitmentIdCounter s
  /\ witnessSigned s' = witnessSigned s
  /\ (forall j, j ≠ i -> commitments s' !! j = commitments s !! j).

Definition invalidId : Error := Revert "CommitmentChain: Invalid commitment ID".

(** How often [isCompleted] of commitment [i] goes from false to true
    along an execution. *)
Fixpoint completionFlips (i : uint256) (s : State) (txs : list (Env * Op)) : nat :=
  match txs with
  | [] => 0
  | tx :: rest =>
      let s1 := (transact s tx).1 in
      b2n (negb (isCompleted (commitmentAt s i))
           && isCompleted (commitmentAt s1 i))
      + completionFlips i s1 rest
  end%nat.

(** ** Example executions *)

Definition admin0 : address := 1.
Definition police0 : address := 2.
Definition signer0 : address := 3.
Definition witness1 : address := 4.
Definition witness2 : address := 5.
Definition emergency0 : address := 7.
Definition outsider0 : address := 9.

Definition from (a : address) : Env := mkEnv a 1700000000.

(** The registry right after deployment by [admin0]. *)
Definition deployed : State :=
  mkState true (<[(DEFAULT_ADMIN_ROLE, admin0) := true]> ∅) false false 0 ∅ ∅.

(** The test suite's set-up: the admin hands out the roles. *)
Definition setupTxs : list (Env * Op) :=
  [ (from admin0, GrantRole POLICE_ROLE police0);
    (from admin0, GrantRole LAWYER_ROLE witness1);
    (from admin0, GrantRole LAWYER_ROLE witness2);
    (from admin0, GrantRole EMERGENCY_ROLE emergency0) ].

(** ... then the emergency admin pauses the registry. *)
Definition pausedTxs : list (Env * Op) :=
  setupTxs ++ [ (from emergency0, Pause) ].

Definition pausedRegistry : State := (run deployed pausedTxs).1.

(** A commitment without witnesses, signed by its signer (completed). *)
Definition completedTxs : list (Env * Op) :=
  setupTxs ++ [ (from police0, CreateCommitment "0xab" signer0 []);
                (from signer0, SignAsSigner 1) ].

Definition completedRegistry : State := (run deployed completedTxs).1.

(** The same, then frozen. *)
Definition frozenTxs : list (Env * Op) :=
  completedTxs ++ [ (from emergency0, FreezeCommitment 1) ].

Definition frozenRegistry : State := (run deployed frozenTxs).1.

(** Scenario B of the specification: two witnesses. *)
Definition scenarioB : list (Env * Op) :=
  setupTxs ++ [ (from police0, CreateCommitment "0xab" signer0 [witness1; witness2]);
                (from signer0, SignAsSigner 1);
                (from witness1, SignAsWitness 1);
                (from witness1, SignAsWitness 1);
                (from police0, CreateCommitment "0xab" signer0 [witness1; witness1]);
                (from witness2, SignAsWitness 1);
                (from police0, CreateCommitment "0xcd" signer0 []);
                (from outsider0, VerifyCommitment 1) ].

(** ** Further notions *)

(** What [createCommitment] has checked on the data it stored. *)
Definition wfCreated (c : Commitment) : Prop :=
  (0 < String.length (fileHash c))%nat
  /\ signer c ≠ 0 /\ signer c ≠ initiator c
  /\ witnessesOk (signer c) (witnesses c).

(** The data fixed at creation agrees. *)
Definition sameCreated (c c' : Commitment) : Prop :=
  id c' = id c /\ initiator c' = initiator c /\ signer c' = signer c
  /\ witnesses c' = witnesses c /\ fileHash c' = fileHash c
  /\ createdAt c' = createdAt c.

(** The second part of the registry invariant: stored data passed the
    checks of creation, and only listed witnesses have a signed flag. *)
Definition Inv2 (s : State) : Prop :=
  forall i c, commitments s !! i = Some c ->
    wfCreated c /\ forall a, witnessSignedAt s i a = true -> a ∈ witnesses c.

(** What a committed call of [op] from [env] does to the storage. *)
Definition effectOf (env : Env) (op : Op) (s s' : State) : Prop :=
  match op with
  | CreateCommitment h sg ws =>
      let i := _commitmentIdCounter s + 1 in
      s' = storeAt i (newCommitment env i h sg ws) (set_commitmentIdCounter i s)
  | SignAsSigner i =>
      let c := commitmentAt s i in
      validId s i = true /\ msg_sender env = signer c
      /\ s' = storeAt i (completed (set_signerSigned true c)) s
  | SignAsWitness i =>
      let c := commitmentAt s i in
      validId s i = true /\ msg_sender env ∈ witnesses c
      /\ s' = storeAt i
                (completed (set_witnessSignedCount (witnessSignedCount c + 1) c))
                (signWitness i (msg_sender env) s)
  | FreezeCommitment i =>
      validId s i = true
      /\ s' = storeAt i (set_isFrozen true (commitmentAt s i)) s
  | UnfreezeCommitment i =>
      validId s i = true
      /\ s' = storeAt i (set_isFrozen false (commitmentAt s i)) s
  | VerifyCommitment i =>
      validId s i = true
      /\ s' = storeAt i (set_isVerified true (commitmentAt s i)) s
  | _ => sameRegistry s s'
  end.

(** The commitment a call names, if any. *)
Definition targetOf (op : Op) : option uint256 :=
  match op with
  | SignAsSigner i | SignAsWitness i | FreezeCommitment i
  | UnfreezeCommitment i | VerifyCommitment i => Some i
  | _ => None
  end.

(** A result with its final storage transformed. *)
Definition onState {A} (f : State -> State) (r : Result A) : Result A :=
  match r with
  | Success a s evs => Success a (f s) evs
  | Reverted e => Reverted e
  end.

(** The name [getRole] gives to an address. *)
Definition roleName (c : Commitment) (a : address) : string :=
  if bool_decide (a = initiator c) then "initiator"
  else if bool_decide (a = signer c) then "signer"
  else if bool_decide (a ∈ witnesses c) then "witness"
  else "none".

(** Counting the events of one kind about commitment [i] in a log. *)
Definition countEvents (p : Event -> bool) (evs : list Event) : nat :=
  length (List.filter p evs).

Definition isCreatedEvent (i : uint256) (ev : Event) : bool :=
  match ev with
  | CommitmentCreated j _ _ _ _ => bool_decide (j = i)
  | _ => false
  end.

Definition isSignedEvent (role : string) (i : uint256) (ev : Event) : bool :=
  match ev with
  | CommitmentSigned j _ r _ => bool_decide (j = i) && bool_decide (r = role)
  | _ => false
  end.

Definition isVerifiedEvent (i : uint256) (ev : Event) : bool :=
  match ev with
  | CommitmentVerified j _ _ => bool_decide (j = i)
  | _ => false
  end.

Definition isFrozenEvent (i : uint256) (ev : Event) : bool :=
  match ev with
  | CommitmentFrozen j _ _ => bool_decide (j = i)
  | _ => false
  end.

Definition isUnfrozenEvent (i : uint256) (ev : Event) : bool :=
  match ev with
  | CommitmentUnfrozen j _ _ => bool_decide (j = i)
  | _ => false
  end.

(** What the log of an execution has to say about commitment [i], against
    the storage [s] it ends in. *)
Definition logMatches (i : uint256) (evs : list Event) (s : State) : Prop :=
  let c := commitmentAt s i in
  countEvents (isCreatedEvent i) evs = b2n (validId s i)
  /\ countEvents (isSignedEvent "initiator" i) evs = b2n (validId s i)
  /\ countEvents (isSignedEvent "signer" i) evs = b2n (signerSigned c)
  /\ N.of_nat (countEvents (isSignedEvent "witness" i) evs) = witnessSignedCount c
  /\ countEvents (isVerifiedEvent i) evs = b2n (isVerified c)
  /\ countEvents (isFrozenEvent i) evs
     = (countEvents (isUnfrozenEvent i) evs + b2n (isFrozen c))%nat.

(** The signer and then every listed witness of [c] call their signing
    entry point for commitment [i], at time [t]. *)
Definition signingTxs (i t : uint256) (c : Commitment) : list (Env * Op) :=
  (mkEnv (signer c) t, SignAsSigner i)
  :: map (fun w => (mkEnv w t, SignAsWitness i)) (witnesses c).

(** The signature state of commitment [i] is the same in [s] and [s']. *)
Definition sameSignatures (i : uint256) (s s' : State) : Prop :=
  signerSigned (commitmentAt s' i) = signerSigned (commitmentAt s i)
  /\ witnessSignedCount (commitmentAt s' i) = witnessSignedCount (commitmentAt s i)
  /\ isCompleted (commitmentAt s' i) = isCompleted (commitmentAt s i)
  /\ forall a, witnessSignedAt s' i a = witnessSignedAt s i a.

(** ** Reasoning about the monad *)

Lemma logged_nil {A} (r : Result A) : logged [] r = r.
Proof. by destruct r. Qed.

Lemma bind_ret {A B} (a : A) (k : A -> M B) s : bind (ret a) k s = k a s.
Proof. unfold bind, ret. by destruct (k a s). Qed.

Lemma bind_get {B} (k : State -> M B) s : bind get k s = k s s.
Proof. unfold bind, get. by destruct (k s s). Qed.

Lemma bind_modify {B} f (k : unit -> M B) s : bind (modify f) k s = k tt (f s).
Proof. unfold bind, modify. by destruct (k tt (f s)). Qed.

Lemma bind_revert {A B} e (k : A -> M B) s : bind (revert e) k s = Reverted e.
Proof. reflexivity. Qed.

Lemma bind_emit {B} ev (k : unit -> M B) s :
  bind (emit ev) k s = logged [ev] (k tt s).
Proof. reflexivity. Qed.

Lemma bind_require {B} b reason (k : unit -> M B) s :
  bind (require b reason) k s = if b then k tt s else Reverted (Revert reason).
Proof. destruct b; [apply bind_ret | reflexivity]. Qed.

Lemma bind_assoc {A B C} (m : M A) (k : A -> M B) (h : B -> M C) s :
  bind (bind m k) h s = bind m (fun a => bind (k a) h) s.
Proof.
  unfold bind. destruct (m s) as [a s1 e1|]; [|done].
  destruct (k a s1) as [b s2 e2|]; [|done].
  destruct (h b s2) as [c s3 e3|]; [|done].
  by rewrite app_assoc.
Qed.

Lemma bind_if {A B} (b : bool) (m1 m2 : M A) (k : A -> M B) s :
  bind (if b then m1 else m2) k s = if b then bind m1 k s else bind m2 k s.
Proof. by destruct b. Qed.

Lemma apply_if {A} (b : bool) (m1 m2 : M A) s :
  (if b then m1 else m2) s = if b then m1 s else m2 s.
Proof. by destruct b. Qed.

Lemma bind_Success {A B} (m : M A) (k : A -> M B) s a s1 evs1 :
  m s = Success a s1 evs1 -> bind m k s = logged evs1 (k a s1).
Proof. unfold bind. intros ->. reflexivity. Qed.

Lemma bind_Reverted {A B} (m : M A) (k : A -> M B) s e :
  m s = Reverted e -> bind m k s = Reverted e.
Proof. unfold bind. intros ->. reflexivity. Qed.

Lemma ret_eq {A} (a : A) s : ret a s = Success a s [].
Proof. reflexivity. Qed.

#[global] Opaque bind ret get modify revert emit require.

Ltac mnorm :=
  repeat first
    [ rewrite bind_assoc | rewrite bind_get | rewrite bind_ret
    | rewrite bind_modify | rewrite bind_revert | rewrite bind_emit
    | rewrite bind_require | rewrite bind_if | rewrite apply_if ].

Ltac mnorm_in H :=
  repeat first
    [ rewrite bind_assoc in H | rewrite bind_get in H | rewrite bind_ret in H
    | rewrite bind_modify in H | rewrite bind_revert in H
    | rewrite bind_emit in H | rewrite bind_require in H
    | rewrite bind_if in H | rewrite apply_if in H ].

(** Case analysis on the test of the outermost conditional of [H]. *)
Ltac mcase H :=
  match type of H with
  | (if negb ?b then _ else _) = _ =>
      destruct b eqn:?; simpl negb in H; cbv iota in H; try discriminate H
  | (if bool_decide ?P then _ else _) = _ =>
      destruct (decide P);
      [ rewrite (bool_decide_eq_true_2 P) in H by assumption
      | rewrite (bool_decide_eq_false_2 P) in H by assumption ];
      try discriminate H
  | (if ?b then _ else _) = _ =>
      destruct b eqn:?; try discriminate H
  end.

Lemma commitmentAt_storeAt i c s : commitmentAt (storeAt i c s) i = c.
Proof. unfold commitmentAt, storeAt. simpl. by rewrite lookup_insert_eq. Qed.

Lemma commitmentAt_storeAt_ne i j c s :
  i ≠ j -> commitmentAt (storeAt i c s) j = commitmentAt s j.
Proof. intros Hne. unfold commitmentAt, storeAt. simpl. by rewrite lookup_insert_ne. Qed.

Lemma storeAt_storeAt i c1 c2 s : storeAt i c2 (storeAt i c1 s) = storeAt i c2 s.
Proof. unfold storeAt. simpl. by rewrite insert_insert_eq. Qed.

Lemma set_entered_id s : _entered s = false -> set_entered false s = s.
Proof. destruct s; simpl; intros ->; reflexivity. Qed.

Lemma set_entered_storeAt b i c s :
  set_entered b (storeAt i c s) = storeAt i c (set_entered b s).
Proof. reflexivity. Qed.

Lemma set_entered_twice b b' s : set_entered b (set_entered b' s) = set_entered b s.
Proof. reflexivity. Qed.

Lemma validId_spec s i : validId s i = true <-> 0 < i <= _commitmentIdCounter s.
Proof.
  unfold validId. rewrite andb_true_iff, !bool_decide_eq_true. reflexivity.
Qed.

(** ** The entry points, one by one *)

Lemma _checkCompletion_eq env i s :
  _checkCompletion env i s
  = Success tt (if allSigned (commitmentAt s i)
                then storeAt i (set_isCompleted true (commitmentAt s i)) s
                else s)
      (completionLog env i (commitmentAt s i)).
Proof.
  unfold _checkCompletion, completionLog, updateCommitment.
  mnorm. fold (allSigned (commitmentAt s i)).
  destruct (allSigned (commitmentAt s i)); reflexivity.
Qed.

Lemma _checkCompletion_storeAt env i c s :
  _checkCompletion env i (storeAt i c s)
  = Success tt (storeAt i (completed c) s) (completionLog env i c).
Proof.
  rewrite _checkCompletion_eq, commitmentAt_storeAt. unfold completed.
  destruct (allSigned c).
  - by rewrite storeAt_storeAt.
  - reflexivity.
Qed.

Lemma validCommitmentId_eq {A} i (body : M A) s :
  validCommitmentId i body s
  = if validId s i then body s
    else Reverted (Revert "CommitmentChain: Invalid commitment ID").
Proof. unfold validCommitmentId. mnorm. reflexivity. Qed.

Lemma duplicateLoop_eq w rest s :
  duplicateLoop w rest s
  = if bool_decide (w ∉ rest) then Success tt s []
    else Reverted (Revert "CommitmentChain: Duplicate witness address").
Proof.
  induction rest as [|wj rest IH]; cbn [duplicateLoop].
  - rewrite bool_decide_eq_true_2 by apply not_elem_of_nil. reflexivity.
  - mnorm. destruct (decide (w = wj)) as [->|Hne].
    + rewrite (bool_decide_eq_false_2 (wj ≠ wj)) by tauto.
      rewrite bool_decide_eq_false_2; [done|]. rewrite not_elem_of_cons. tauto.
    + rewrite (bool_decide_eq_true_2 (w ≠ wj)) by done.
      rewrite IH.
      destruct (decide (w ∈ rest)).
      * rewrite !bool_decide_eq_false_2; [done|..]; rewrite ?not_elem_of_cons; tauto.
      * rewrite !bool_decide_eq_true_2; [done|..]; rewrite ?not_elem_of_cons; tauto.
Qed.

Lemma witnessLoop_Success sg ws s u s' evs :
  witnessLoop sg ws s = Success u s' evs ->
  s' = s /\ evs = [] /\ witnessesOk sg ws.
Proof.
  revert u s' evs. induction ws as [|w rest IH]; cbn [witnessLoop]; intros u s' evs H.
  - rewrite ret_eq in H. simplify_eq. repeat split; constructor.
  - mnorm_in H. mcase H. mcase H.
    destruct (decide (w ∈ rest)) as [Hin|Hin].
    + erewrite bind_Reverted in H; [done|]. rewrite duplicateLoop_eq.
      by rewrite bool_decide_eq_false_2 by tauto.
    + erewrite bind_Success in H; cycle 1.
      { rewrite duplicateLoop_eq. by rewrite bool_decide_eq_true_2. }
      rewrite logged_nil in H. apply IH in H as (-> & -> & Hnd & Hall).
      repeat split; [by constructor | by constructor].
Qed.

Lemma witnessLoop_ok sg ws s :
  witnessesOk sg ws -> witnessLoop sg ws s = Success tt s [].
Proof.
  intros [Hnd Hall]. induction ws as [|w rest IH]; cbn [witnessLoop].
  - reflexivity.
  - apply NoDup_cons in Hnd as [Hin Hnd]. apply Forall_cons in Hall as [[H0 Hsg] Hall].
    mnorm. rewrite !bool_decide_eq_true_2 by done.
    erewrite bind_Success; cycle 1.
    { rewrite duplicateLoop_eq. by rewrite bool_decide_eq_true_2. }
    rewrite logged_nil. by apply IH.
Qed.

Lemma witnessLoop_cases sg ws s :
  (witnessesOk sg ws /\ witnessLoop sg ws s = Success tt s [])
  \/ (~ witnessesOk sg ws /\ exists e, witnessLoop sg ws s = Reverted e).
Proof.
  destruct (witnessLoop sg ws s) as [[] s' evs|e] eqn:H.
  - left. apply witnessLoop_Success in H as (-> & -> & Hok). done.
  - right. split; [|eauto]. intros Hok.
    by rewrite (witnessLoop_ok _ _ _ Hok) in H.
Qed.

Lemma createCommitment_Success env h sg ws s i s' evs :
  createCommitment env h sg ws s = Success i s' evs ->
  (0 < String.length h)%nat /\ sg ≠ 0 /\ sg ≠ msg_sender env
  /\ witnessesOk sg ws
  /\ _commitmentIdCounter s < MAX_UINT256
  /\ i = _commitmentIdCounter s + 1
  /\ s' = storeAt i (newCommitment env i h sg ws) (set_commitmentIdCounter i s)
  /\ evs = [CommitmentCreated i (msg_sender env) sg h (block_timestamp env);
            CommitmentSigned i (msg_sender env) "initiator" (block_timestamp env)].
Proof.
  unfold createCommitment, checked_incr, updateCommitment. intros H.
  mnorm_in H. mcase H. mcase H. mcase H.
  destruct (witnessLoop_cases sg ws s) as [[Hok Hw]|[_ [e Hw]]].
  2:{ erewrite bind_Reverted in H by exact Hw. done. }
  erewrite bind_Success in H by exact Hw.
  mnorm_in H. rewrite logged_nil in H. mcase H. mnorm_in H.
  set (i' := _commitmentIdCounter s + 1) in *.
  change (set_commitments _ ?st)
    with (storeAt i' (newCommitment env i' h sg ws) st) in H.
  erewrite bind_Success in H by apply _checkCompletion_storeAt.
  rewrite ret_eq in H. cbn in H. simplify_eq. done.
Qed.

Lemma signAsSigner_Success env i s u s' evs :
  signAsSigner env i s = Success u s' evs ->
  let c := commitmentAt s i in
  let c1 := set_signerSigned true c in
  _entered s = false /\ _paused s = false
  /\ validId s i = true
  /\ isFrozen c = false /\ msg_sender env = signer c
  /\ signerSigned c = false /\ initiatorSigned c = true
  /\ s' = storeAt i (completed c1) s
  /\ evs = CommitmentSigned i (msg_sender env) "signer" (block_timestamp env)
           :: completionLog env i c1.
Proof.
  unfold signAsSigner, nonReentrant, whenNotPaused, validCommitmentId,
    notFrozen, updateCommitment.
  intros H. mnorm_in H. mcase H. mcase H.
  change (bool_decide (0 < i) && _) with (validId s i) in H.
  mcase H.
  change (commitmentAt (set_entered true s) i) with (commitmentAt s i) in H.
  mcase H. mcase H. mcase H. mcase H.
  change (set_commitments _ ?st)
    with (storeAt i (set_signerSigned true (commitmentAt s i)) st) in H.
  erewrite bind_Success in H by apply _checkCompletion_storeAt.
  mnorm_in H. rewrite ret_eq in H. cbn [logged] in H.
  rewrite set_entered_storeAt, set_entered_twice, set_entered_id in H by done.
  rewrite app_nil_r in H. simplify_eq. done.
Qed.

Lemma signAsWitness_Success env i s u s' evs :
  signAsWitness env i s = Success u s' evs ->
  let c := commitmentAt s i in
  let c1 := set_witnessSignedCount (witnessSignedCount c + 1) c in
  _entered s = false
  /\ validId s i = true
  /\ isFrozen c = false /\ initiatorSigned c = true
  /\ msg_sender env ∈ witnesses c
  /\ witnessSignedAt s i (msg_sender env) = false
  /\ witnessSignedCount c < MAX_UINT256
  /\ s' = storeAt i (completed c1) (signWitness i (msg_sender env) s)
  /\ evs = CommitmentSigned i (msg_sender env) "witness" (block_timestamp env)
           :: completionLog env i c1.
Proof.
  unfold signAsWitness, nonReentrant, validCommitmentId, notFrozen,
    updateCommitment, _isWitness, checked_incr.
  intros H. mnorm_in H. mcase H.
  change (bool_decide (0 < i) && _) with (validId s i) in H.
  mcase H.
  change (commitmentAt (set_entered true s) i) with (commitmentAt s i) in H.
  change (witnessSignedAt (set_entered true s) i) with (witnessSignedAt s i) in H.
  mcase H. mcase H. mcase H. mcase H. mcase H. mnorm_in H.
  change (commitmentAt (set_witnessSigned _ _) i) with (commitmentAt s i) in H.
  change (set_commitments _ (set_witnessSigned ?m ?st))
    with (storeAt i (set_witnessSignedCount (witnessSignedCount (commitmentAt s i) + 1)
                       (commitmentAt s i)) (set_witnessSigned m st)) in H.
  erewrite bind_Success in H by apply _checkCompletion_storeAt.
  mnorm_in H. rewrite ret_eq in H. cbn [logged] in H.
  rewrite app_nil_r in H. simplify_eq.
  repeat split; try done.
  - match goal with Hx : existsb _ _ = true |- _ =>
      apply existsb_exists in Hx as (w & Hw & Hd) end.
    apply bool_decide_eq_true in Hd. subst w. by apply list_elem_of_In.
  - unfold signWitness, storeAt. destruct s; simpl in *; by subst.
Qed.


Lemma freezeCommitment_eq env i s :
  freezeCommitment env i s
  = if validId s i then
      if isFrozen (commitmentAt s i)
      then Reverted (Revert "CommitmentChain: Already frozen")
      else Success tt (storeAt i (set_isFrozen true (commitmentAt s i)) s)
             [CommitmentFrozen i (msg_sender env) (block_timestamp env)]
    else Reverted (Revert "CommitmentChain: Invalid commitment ID").
Proof.
  unfold freezeCommitment, validCommitmentId, updateCommitment. mnorm.
  fold (validId s i). destruct (validId s i); [|done].
  destruct (isFrozen (commitmentAt s i)); reflexivity.
Qed.

Lemma unfreezeCommitment_eq env i s :
  unfreezeCommitment env i s
  = if validId s i then
      if isFrozen (commitmentAt s i)
      then Success tt (storeAt i (set_isFrozen false (commitmentAt s i)) s)
             [CommitmentUnfrozen i (msg_sender env) (block_timestamp env)]
      else Reverted (Revert "CommitmentChain: Not frozen")
    else Reverted (Revert "CommitmentChain: Invalid commitment ID").
Proof.
  unfold unfreezeCommitment, validCommitmentId, updateCommitment. mnorm.
  fold (validId s i). destruct (validId s i); [|done].
  destruct (isFrozen (commitmentAt s i)); reflexivity.
Qed.

Lemma verifyCommitment_eq env i s :
  verifyCommitment env i s
  = if validId s i then
      if isVerified (commitmentAt s i)
      then Reverted (Revert "CommitmentChain: Already verified")
      else if isCompleted (commitmentAt s i)
      then Success tt (storeAt i (set_isVerified true (commitmentAt s i)) s)
             [CommitmentVerified i (msg_sender env) (block_timestamp env)]
      else Reverted (Revert "CommitmentChain: Not completed yet")
    else Reverted (Revert "CommitmentChain: Invalid commitment ID").
Proof.
  unfold verifyCommitment, validCommitmentId, updateCommitment. mnorm.
  fold (validId s i). destruct (validId s i); [|done].
  destruct (isVerified (commitmentAt s i)); [done|].
  destruct (isCompleted (commitmentAt s i)); reflexivity.
Qed.

Lemma _grantRole_Success env r a s b s' evs :
  _grantRole env r a s = Success b s' evs ->
  sameRegistry s s' /\ Forall (fun ev => isCommitmentEvent ev = false) evs.
Proof.
  unfold _grantRole. intros H. mnorm_in H.
  mcase H; rewrite ret_eq in H; cbn in H; simplify_eq.
  all: split; [by repeat split | by repeat constructor].
Qed.

Lemma _revokeRole_Success env r a s b s' evs :
  _revokeRole env r a s = Success b s' evs ->
  sameRegistry s s' /\ Forall (fun ev => isCommitmentEvent ev = false) evs.
Proof.
  unfold _revokeRole. intros H. mnorm_in H.
  mcase H; rewrite ret_eq in H; cbn in H; simplify_eq.
  all: split; [by repeat split | by repeat constructor].
Qed.

Lemma initialize_initialized env admin s :
  _initialized s = true -> initialize env admin s = Reverted InvalidInitialization.
Proof.
  intros Hi. unfold initialize, initializer. mnorm. by rewrite Hi.
Qed.

Lemma admin_dispatch_Success env op s r s' evs :
  isRegistryOp op = false -> _initialized s = true ->
  dispatch env op s = Success r s' evs ->
  r = None /\ sameRegistry s s'
  /\ Forall (fun ev => isCommitmentEvent ev = false) evs.
Proof.
  intros Hop Hi H. destruct op; try discriminate Hop; cbn [dispatch] in H.
  - erewrite bind_Reverted in H by (by apply initialize_initialized). done.
  - unfold grantRole, onlyRole, _checkRole in H. mnorm_in H. mcase H.
    destruct (_grantRole env r0 account s) as [b s1 e1|e] eqn:Hg.
    + erewrite bind_Success in H by exact Hg. mnorm_in H. rewrite ret_eq in H.
      cbn in H. rewrite app_nil_r in H. simplify_eq.
      by apply _grantRole_Success in Hg as [? ?].
    + erewrite bind_Reverted in H by exact Hg. done.
  - unfold revokeRole, onlyRole, _checkRole in H. mnorm_in H. mcase H.
    destruct (_revokeRole env r0 account s) as [b s1 e1|e] eqn:Hg.
    + erewrite bind_Success in H by exact Hg. mnorm_in H. rewrite ret_eq in H.
      cbn in H. rewrite app_nil_r in H. simplify_eq.
      by apply _revokeRole_Success in Hg as [? ?].
    + erewrite bind_Reverted in H by exact Hg. done.
  - unfold renounceRole in H. mnorm_in H. mcase H.
    destruct (_revokeRole env r0 callerConfirmation s) as [b s1 e1|e] eqn:Hg.
    + erewrite bind_Success in H by exact Hg. mnorm_in H. rewrite ret_eq in H.
      cbn in H. rewrite app_nil_r in H. simplify_eq.
      by apply _revokeRole_Success in Hg as [? ?].
    + erewrite bind_Reverted in H by exact Hg. done.
  - unfold pause, _pause, onlyRole, _checkRole, whenNotPaused in H.
    mnorm_in H. mcase H. mcase H. rewrite ret_eq in H. cbn in H. simplify_eq.
    split; [done|]. split; [by repeat split | by repeat constructor].
  - unfold unpause, _unpause, onlyRole, _checkRole, whenPaused in H.
    mnorm_in H. mcase H. mcase H. rewrite ret_eq in H. cbn in H. simplify_eq.
    split; [done|]. split; [by repeat split | by repeat constructor].
Qed.

(** Split a call [do x <- m; ret _] that succeeded. *)
Ltac bind_inv H Hc :=
  match type of H with
  | bind ?m _ ?s = Success _ _ _ =>
      destruct (m s) as [? ? ?|?] eqn:Hc;
      [ erewrite bind_Success in H by exact Hc; rewrite ret_eq in H;
        cbn [logged] in H; rewrite app_nil_r in H; simplify_eq
      | erewrite bind_Reverted in H by exact Hc; discriminate H ]
  end.

Lemma dispatch_commits env op s r s' evs :
  _initialized s = true -> _entered s = false ->
  dispatch env op s = Success r s' evs -> commits s r s' evs.
Proof.
  intros Hi He H.
  destruct (isRegistryOp op) eqn:Hop.
  2:{ apply admin_dispatch_Success in H as (-> & ? & ?); [|done..].
      by apply commits_admin. }
  destruct op; try discriminate Hop; cbn [dispatch] in H; bind_inv H Hc.
  - apply createCommitment_Success in Hc as (?&?&?&?&?&?&->&->).
    by eapply commits_create.
  - apply signAsSigner_Success in Hc as (?&?&?&?&?&?&?&->&->).
    by eapply commits_signer.
  - apply signAsWitness_Success in Hc as (?&?&?&?&?&?&?&->&->).
    by eapply commits_witness.
  - rewrite freezeCommitment_eq in Hc. mcase Hc. mcase Hc. simplify_eq.
    by eapply commits_freeze.
  - rewrite unfreezeCommitment_eq in Hc. mcase Hc. mcase Hc. simplify_eq.
    by eapply commits_unfreeze.
  - rewrite verifyCommitment_eq in Hc. mcase Hc. mcase Hc. mcase Hc. simplify_eq.
    by eapply commits_verify.
Qed.

(** *** Counting signed witnesses *)

Lemma countSigned_le f ws : (countSigned f ws <= length ws)%nat.
Proof.
  induction ws as [|w rest IH]; simpl; [lia|]. destruct (f w); simpl; lia.
Qed.

Lemma countSigned_ext f g ws :
  (forall w, w ∈ ws -> f w = g w) -> countSigned f ws = countSigned g ws.
Proof.
  induction ws as [|w rest IH]; intros Hfg; simpl; [done|].
  rewrite (Hfg w) by apply list_elem_of_here.
  rewrite IH; [done|]. intros w' Hw'. apply Hfg. by apply list_elem_of_further.
Qed.

Lemma countSigned_lt f ws a :
  a ∈ ws -> f a = false -> (countSigned f ws < length ws)%nat.
Proof.
  induction ws as [|w rest IH]; intros Hin Hfa.
  - by apply elem_of_nil in Hin.
  - simpl. apply elem_of_cons in Hin as [<-|Hin].
    + rewrite Hfa. simpl. pose proof (countSigned_le f rest). lia.
    + specialize (IH Hin Hfa). destruct (f w); simpl; lia.
Qed.

Lemma countSigned_sign f g ws a :
  NoDup ws -> a ∈ ws -> f a = false -> g a = true ->
  (forall w, w ≠ a -> g w = f w) ->
  countSigned g ws = S (countSigned f ws).
Proof.
  intros Hnd Hin Hfa Hga Hfg. induction ws as [|w rest IH].
  - by apply elem_of_nil in Hin.
  - apply NoDup_cons in Hnd as [Hw Hnd]. simpl.
    apply elem_of_cons in Hin as [<-|Hin].
    + rewrite Hfa, Hga. simpl. f_equal. apply countSigned_ext.
      intros w Hwin. apply Hfg. intros ->. done.
    + rewrite (Hfg w) by (intros ->; done). rewrite (IH Hnd Hin). lia.
Qed.

Lemma countSigned_none f ws :
  (forall w, f w = false) -> countSigned f ws = 0%nat.
Proof.
  intros Hf. induction ws as [|w rest IH]; simpl; [done|]. by rewrite Hf, IH.
Qed.

(** *** The registry invariant *)

Lemma Inv_lookup s i :
  Inv s -> validId s i = true -> commitments s !! i = Some (commitmentAt s i).
Proof.
  intros HI Hv. apply (inv_dom s HI) in Hv as [c Hc].
  unfold commitmentAt. by rewrite Hc.
Qed.

Lemma Inv_lookup_None s i :
  Inv s -> validId s i = false -> commitments s !! i = None.
Proof.
  intros HI Hv. destruct (commitments s !! i) as [c|] eqn:Hc; [|done].
  assert (validId s i = true) by (apply (inv_dom s HI); eauto). congruence.
Qed.

Lemma Inv_wf s i : Inv s -> validId s i = true -> wfCommitment s i (commitmentAt s i).
Proof. intros HI Hv. apply (inv_wf s HI). by apply Inv_lookup. Qed.

Lemma wfCommitment_completed s i c :
  id c = i -> initiatorSigned c = true -> NoDup (witnesses c) ->
  witnessSignedCount c
  = N.of_nat (countSigned (witnessSignedAt s i) (witnesses c)) ->
  (isCompleted c = true -> allSigned c = true) ->
  (isVerified c = true -> isCompleted c = true) ->
  wfCommitment s i (completed c).
Proof.
  intros Hid Hin Hnd Hcnt Hcomp Hver. unfold completed.
  destruct (allSigned c) eqn:Hall.
  - repeat split; try done.
  - repeat split; try done. rewrite Hall.
    destruct (isCompleted c); [by specialize (Hcomp eq_refl)|done].
Qed.

Lemma Inv_storeAt s i c' :
  Inv s -> validId s i = true -> wfCommitment s i c' -> Inv (storeAt i c' s).
Proof.
  intros HI Hv Hwf. split.
  - apply (inv_initialized s HI).
  - apply (inv_entered s HI).
  - intros j. change (validId (storeAt i c' s) j) with (validId s j).
    unfold storeAt; simpl. destruct (decide (i = j)) as [->|Hne].
    + rewrite lookup_insert_eq. split; [done|eauto].
    + rewrite lookup_insert_ne by done. apply (inv_dom s HI).
  - apply (inv_signed s HI).
  - intros j c. unfold storeAt; simpl. destruct (decide (i = j)) as [->|Hne].
    + rewrite lookup_insert_eq. by intros [= <-].
    + rewrite lookup_insert_ne by done. apply (inv_wf s HI).
Qed.

Lemma witnessSignedAt_signWitness i a s j b :
  witnessSignedAt (signWitness i a s) j b
  = if bool_decide ((i, a) = (j, b)) then true else witnessSignedAt s j b.
Proof.
  unfold witnessSignedAt, signWitness. simpl. case_bool_decide as Hd.
  - by rewrite Hd, lookup_insert_eq.
  - by rewrite lookup_insert_ne.
Qed.

Lemma commits_Inv s r s' evs : Inv s -> commits s r s' evs -> Inv s'.
Proof.
  intros HI Hc. destruct Hc.
  - (* administration *)
    destruct H as (Hi & He & Hn & Hm & Hw). destruct HI as [I1 I2 I3 I4 I5].
    destruct s, s'; simpl in *; subst. by split.
  - (* createCommitment *)
    subst i. set (i := _commitmentIdCounter s + 1).
    assert (Hfresh : validId s i = false).
    { apply not_true_is_false. rewrite validId_spec. subst i. lia. }
    assert (Hval : forall j, validId (set_commitmentIdCounter i s) j = true
                   <-> j = i \/ validId s j = true).
    { intros j. rewrite !validId_spec. simpl. subst i. lia. }
    split.
    + apply (inv_initialized s HI).
    + apply (inv_entered s HI).
    + intros j. change (validId (storeAt _ _ ?st) j) with (validId st j).
      rewrite Hval. unfold storeAt; simpl.
      destruct (decide (i = j)) as [<-|Hne].
      * rewrite lookup_insert_eq. split; [auto|eauto].
      * rewrite lookup_insert_ne by done. rewrite (inv_dom s HI).
        split; [auto | intros [?|?]; [congruence|done]].
    + intros j a Hs. change (validId (storeAt _ _ ?st) j) with (validId st j).
      apply Hval. right. by apply (inv_signed s HI j a).
    + intros j c. unfold storeAt; simpl.
      destruct (decide (i = j)) as [<-|Hne].
      * rewrite lookup_insert_eq. intros [= <-].
        destruct H2 as [Hnd _]. repeat split; try done. simpl.
        rewrite countSigned_none; [done|]. intros w.
        apply not_true_is_false. intros Hs.
        apply (inv_signed s HI) in Hs. congruence.
      * rewrite lookup_insert_ne by done. apply (inv_wf s HI).
  - (* signAsSigner *)
    pose proof (Inv_wf s i HI H2) as (Hid & Hin & Hnd & Hcnt & Hcomp & Hver).
    rewrite <- H in *. apply Inv_storeAt; [done..|]. subst c1.
    assert (Hnc : isCompleted c = false).
    { rewrite Hcomp. unfold allSigned. rewrite H5. by rewrite andb_false_r. }
    apply wfCommitment_completed; simpl; [done..|congruence|done].
  - (* signAsWitness *)
    pose proof (Inv_wf s i HI H1) as (Hid & Hin & Hnd & Hcnt & Hcomp & Hver).
    rewrite <- H in *.
    assert (Hnc : isCompleted c = false).
    { rewrite Hcomp. unfold allSigned.
      pose proof (countSigned_lt _ _ _ H4 H5) as Hlt.
      rewrite bool_decide_eq_false_2; [by rewrite andb_false_r|]. lia. }
    assert (Hwf : wfCommitment (signWitness i (msg_sender env) s) i (completed c1)).
    { subst c1. apply wfCommitment_completed; simpl; [done..| |congruence|done].
      rewrite Hcnt.
        erewrite (countSigned_sign (witnessSignedAt s i)
                    (witnessSignedAt (signWitness i (msg_sender env) s) i));
          [lia|done..| |].
      - rewrite witnessSignedAt_signWitness. by rewrite bool_decide_eq_true_2.
      - intros w Hw. rewrite witnessSignedAt_signWitness.
        rewrite bool_decide_eq_false_2; [done|]. congruence. }
    split.
    + apply (inv_initialized s HI).
    + apply (inv_entered s HI).
    + intros j. change (validId (storeAt _ _ ?st) j) with (validId s j).
      unfold storeAt; simpl. destruct (decide (i = j)) as [<-|Hne].
      * rewrite lookup_insert_eq. split; [done|eauto].
      * rewrite lookup_insert_ne by done. apply (inv_dom s HI).
    + intros j a. change (validId (storeAt _ _ ?st) j) with (validId s j).
      change (witnessSignedAt (storeAt _ _ ?st) j a) with (witnessSignedAt st j a).
      rewrite witnessSignedAt_signWitness. case_bool_decide as Hd.
      * intros _. by simplify_eq.
      * apply (inv_signed s HI).
    + intros j c0. unfold storeAt; simpl.
      destruct (decide (i = j)) as [<-|Hne].
      * rewrite lookup_insert_eq. by intros [= <-].
      * rewrite lookup_insert_ne by done. intros Hc0.
        pose proof (inv_wf s HI j c0 Hc0) as (?&?&?&Hc&?&?).
        repeat split; try done. rewrite Hc. f_equal. apply countSigned_ext.
        intros w _.
        change (witnessSignedAt (set_commitments _ ?st) j w)
          with (witnessSignedAt st j w).
        rewrite witnessSignedAt_signWitness.
        rewrite bool_decide_eq_false_2; [done|]. congruence.
  - (* freezeCommitment *)
    pose proof (Inv_wf s i HI H0) as Hwf. rewrite <- H in *.
    apply Inv_storeAt; [done..|]. exact Hwf.
  - (* unfreezeCommitment *)
    pose proof (Inv_wf s i HI H0) as Hwf. rewrite <- H in *.
    apply Inv_storeAt; [done..|]. exact Hwf.
  - (* verifyCommitment *)
    pose proof (Inv_wf s i HI H0) as (Hid & Hin & Hnd & Hcnt & Hcomp & Hver).
    rewrite <- H in *.
    apply Inv_storeAt; [done..|]. repeat split; done.
Qed.
(** *** Executions *)

Lemma deploy_Some env admin s :
  deploy env admin = Some s ->
  admin ≠ 0
  /\ s = mkState true (<[(DEFAULT_ADMIN_ROLE, admin) := true]> ∅)
           false false 0 ∅ ∅.
Proof.
  unfold deploy, initialize, initializer, _grantRole. mnorm.
  change (_initialized genesis) with false. cbv iota.
  destruct (decide (admin ≠ 0)) as [Hne|He].
  - rewrite (bool_decide_eq_true_2 _ Hne). mnorm. cbn. by intros [= <-].
  - rewrite (bool_decide_eq_false_2 _ He). done.
Qed.

Lemma deploy_Inv env admin s : deploy env admin = Some s -> Inv s.
Proof.
  intros [_ ->]%deploy_Some.
  assert (Hv : forall i, validId (mkState true (<[(DEFAULT_ADMIN_ROLE, admin) := true]> ∅)
                                    false false 0 ∅ ∅) i = false).
  { intros i. apply not_true_is_false. rewrite validId_spec. simpl. lia. }
  split; simpl; try done.
  - intros i. rewrite lookup_empty, Hv. split; [by intros [? ?]|done].
Qed.

Lemma transact_cases s tx :
  Inv s ->
  (exists e, transact s tx = (s, mkReceipt (inl e) []))
  \/ (exists r s' evs, transact s tx = (s', mkReceipt (inr r) evs)
                      /\ commits s r s' evs).
Proof.
  intros HI. unfold transact.
  destruct (dispatch tx.1 tx.2 s) as [r s' evs|e] eqn:Hd.
  - right. exists r, s', evs. split; [done|].
    eapply dispatch_commits; [apply (inv_initialized s HI)
                             |apply (inv_entered s HI)|done].
  - left. by exists e.
Qed.

Lemma transact_Inv s tx : Inv s -> Inv (transact s tx).1.
Proof.
  intros HI. destruct (transact_cases s tx HI) as [[e ->]|(r & s' & evs & -> & Hc)].
  - done.
  - by eapply commits_Inv.
Qed.

Lemma run_cons s tx rest :
  run s (tx :: rest)
  = ((run (transact s tx).1 rest).1,
     (transact s tx).2 :: (run (transact s tx).1 rest).2).
Proof.
  simpl. destruct (transact s tx) as [s1 r]. simpl.
  by destruct (run s1 rest).
Qed.

Lemma run_Inv s txs : Inv s -> Inv (run s txs).1.
Proof.
  revert s. induction txs as [|tx rest IH]; intros s HI; [done|].
  rewrite run_cons. simpl. apply IH. by apply transact_Inv.
Qed.

(** *** Completion *)

Lemma completedEmitted_app i evs1 evs2 :
  completedEmitted i (evs1 ++ evs2)
  = (completedEmitted i evs1 + completedEmitted i evs2)%nat.
Proof. unfold completedEmitted. by rewrite List.filter_app, length_app. Qed.

Lemma completedEmitted_cons i ev evs :
  completedEmitted i (ev :: evs)
  = (b2n (isCompletedEvent i ev) + completedEmitted i evs)%nat.
Proof. unfold completedEmitted. simpl. by destruct (isCompletedEvent i ev). Qed.

Lemma completedEmitted_none i evs :
  Forall (fun ev => isCommitmentEvent ev = false) evs ->
  completedEmitted i evs = 0%nat.
Proof.
  unfold completedEmitted. induction 1 as [|ev evs Hev _ IH]; [done|].
  simpl. destruct ev; try discriminate Hev; done.
Qed.

Lemma completedEmitted_completionLog env i j c :
  completedEmitted i (completionLog env j c)
  = if bool_decide (j = i) then b2n (allSigned c) else 0%nat.
Proof.
  unfold completedEmitted, completionLog.
  destruct (allSigned c); simpl; by case_bool_decide.
Qed.

Lemma isCompleted_completed c :
  isCompleted (completed c) = isCompleted c || allSigned c.
Proof.
  unfold completed. destruct (allSigned c); simpl.
  - by rewrite orb_true_r.
  - by rewrite orb_false_r.
Qed.

Lemma not_completed_signer s i :
  Inv s -> validId s i = true -> signerSigned (commitmentAt s i) = false ->
  isCompleted (commitmentAt s i) = false.
Proof.
  intros HI Hv Hs. destruct (Inv_wf s i HI Hv) as (_&_&_&_&Hc&_).
  rewrite Hc. unfold allSigned. rewrite Hs. by rewrite andb_false_r.
Qed.

Lemma not_completed_witness s i a :
  Inv s -> validId s i = true -> a ∈ witnesses (commitmentAt s i) ->
  witnessSignedAt s i a = false ->
  isCompleted (commitmentAt s i) = false.
Proof.
  intros HI Hv Hin Ha. destruct (Inv_wf s i HI Hv) as (_&_&_&Hn&Hc&_).
  rewrite Hc. unfold allSigned. pose proof (countSigned_lt _ _ _ Hin Ha).
  rewrite bool_decide_eq_false_2; [by rewrite andb_false_r|]. lia.
Qed.

Lemma commitmentAt_invalid s i :
  Inv s -> validId s i = false -> commitmentAt s i = zeroCommitment.
Proof.
  intros HI Hv. unfold commitmentAt. by rewrite (Inv_lookup_None s i HI Hv).
Qed.

Lemma commits_completed s r s' evs i :
  Inv s -> commits s r s' evs ->
  (completedEmitted i evs + b2n (isCompleted (commitmentAt s i)))%nat
  = b2n (isCompleted (commitmentAt s' i)).
Proof.
  intros HI Hc. destruct Hc.
  - rewrite completedEmitted_none by done.
    destruct H as (_&_&_&Hm&_). unfold commitmentAt. by rewrite Hm.
  - destruct (decide (i0 = i)) as [->|Hne].
    + rewrite commitmentAt_storeAt. rewrite commitmentAt_invalid; [done..|].
      apply not_true_is_false. rewrite validId_spec. lia.
    + by rewrite commitmentAt_storeAt_ne.
  - rewrite completedEmitted_cons. cbn [isCompletedEvent b2n plus].
    rewrite completedEmitted_completionLog. case_bool_decide as Hd.
    + subst i0. rewrite commitmentAt_storeAt, isCompleted_completed.
      subst c c1. simpl. rewrite (not_completed_signer s i) by done.
      by destruct (allSigned _).
    + by rewrite commitmentAt_storeAt_ne.
  - rewrite completedEmitted_cons. cbn [isCompletedEvent b2n plus].
    rewrite completedEmitted_completionLog. case_bool_decide as Hd.
    + subst i0. rewrite commitmentAt_storeAt, isCompleted_completed.
      subst c c1. simpl.
      rewrite (not_completed_witness s i (msg_sender env)) by done.
      by destruct (allSigned _).
    + by rewrite commitmentAt_storeAt_ne.
  - destruct (decide (i0 = i)) as [->|Hne].
    + rewrite commitmentAt_storeAt. by subst c.
    + by rewrite commitmentAt_storeAt_ne.
  - destruct (decide (i0 = i)) as [->|Hne].
    + rewrite commitmentAt_storeAt. by subst c.
    + by rewrite commitmentAt_storeAt_ne.
  - destruct (decide (i0 = i)) as [->|Hne].
    + rewrite commitmentAt_storeAt. by subst c.
    + by rewrite commitmentAt_storeAt_ne.
Qed.

Lemma transact_completed s tx i :
  Inv s ->
  (completedEmitted i (logs (transact s tx).2)
   + b2n (isCompleted (commitmentAt s i)))%nat
  = b2n (isCompleted (commitmentAt (transact s tx).1 i)).
Proof.
  intros HI. destruct (transact_cases s tx HI) as [[e ->]|(r & s' & evs & -> & Hc)].
  - done.
  - simpl. by apply commits_completed with r.
Qed.

Lemma allLogs_cons r rs : allLogs (r :: rs) = logs r ++ allLogs rs.
Proof. reflexivity. Qed.

Lemma run_completedEmitted s txs i :
  Inv s ->
  (completedEmitted i (allLogs (run s txs).2)
   + b2n (isCompleted (commitmentAt s i)))%nat
  = b2n (isCompleted (commitmentAt (run s txs).1 i)).
Proof.
  revert s. induction txs as [|tx rest IH]; intros s HI; [done|].
  rewrite run_cons. cbn [fst snd]. rewrite allLogs_cons, completedEmitted_app.
  rewrite <- (IH _ (transact_Inv s tx HI)).
  rewrite <- (transact_completed s tx i HI). lia.
Qed.

Lemma run_completionFlips s txs i :
  Inv s ->
  (completionFlips i s txs + b2n (isCompleted (commitmentAt s i)))%nat
  = b2n (isCompleted (commitmentAt (run s txs).1 i)).
Proof.
  revert s. induction txs as [|tx rest IH]; intros s HI; [done|].
  rewrite run_cons. cbn [fst snd completionFlips].
  rewrite <- (IH _ (transact_Inv s tx HI)).
  pose proof (transact_completed s tx i HI) as Hstep.
  destruct (isCompleted (commitmentAt s i)),
    (isCompleted (commitmentAt (transact s tx).1 i)); simpl in *; lia.
Qed.

Lemma b2n_le_1 b : (b2n b <= 1)%nat.
Proof. destruct b; simpl; lia. Qed.

Lemma Inv_completed s i :
  Inv s -> isCompleted (commitmentAt s i) = true ->
  initiatorSigned (commitmentAt s i) = true
  /\ signerSigned (commitmentAt s i) = true
  /\ witnessSignedCount (commitmentAt s i)
     = N.of_nat (length (witnesses (commitmentAt s i))).
Proof.
  intros HI Hc. destruct (validId s i) eqn:Hv.
  - destruct (Inv_wf s i HI Hv) as (_&_&_&_&Hall&_).
    rewrite Hall in Hc. unfold allSigned in Hc.
    apply andb_true_iff in Hc as [[? ?]%andb_true_iff ?%bool_decide_eq_true].
    done.
  - by rewrite commitmentAt_invalid in Hc.
Qed.

(** C1. Along every execution from deployment, for every commitment id:
    [isCompleted] goes from false to true at most once; whenever it is true
    the initiator and the signer have signed and [witnessSignedCount] is
    the length of the witness list; and [CommitmentCompleted] is logged at
    most once for that id. *)
Theorem completion_at_most_once env admin s0 txs i :
  deploy env admin = Some s0 ->
  let s := (run s0 txs).1 in
  let c := commitmentAt s i in
  (completionFlips i s0 txs <= 1)%nat
  /\ (completedEmitted i (allLogs (run s0 txs).2) <= 1)%nat
  /\ completionFlips i s0 txs = completedEmitted i (allLogs (run s0 txs).2)
  /\ (isCompleted c = true ->
      initiatorSigned c = true /\ signerSigned c = true
      /\ witnessSignedCount c = N.of_nat (length (witnesses c))).
Proof.
  intros Hd s c. pose proof (deploy_Inv _ _ _ Hd) as HI.
  pose proof (run_completionFlips s0 txs i HI) as Hf.
  pose proof (run_completedEmitted s0 txs i HI) as He.
  pose proof (b2n_le_1 (isCompleted (commitmentAt (run s0 txs).1 i))).
  repeat split; try lia.
  - by apply (Inv_completed s i (run_Inv s0 txs HI)).
  - by apply (Inv_completed s i (run_Inv s0 txs HI)).
  - by apply (Inv_completed s i (run_Inv s0 txs HI)).
Qed.

(** *** Monotonicity *)

Lemma grows_refl c : grows c c.
Proof. repeat split; try done; lia. Qed.

Lemma grows_trans c1 c2 c3 : grows c1 c2 -> grows c2 c3 -> grows c1 c3.
Proof.
  intros (?&?&?&?&?) (?&?&?&?&?). repeat split; try tauto; lia.
Qed.

Lemma grows_completed c : grows c (completed c).
Proof.
  unfold completed. destruct (allSigned c); repeat split; simpl; try done; lia.
Qed.

Lemma grows_zero c : grows zeroCommitment c.
Proof. repeat split; try done; simpl; lia. Qed.

Lemma commits_grows s r s' evs i :
  Inv s -> commits s r s' evs ->
  grows (commitmentAt s i) (commitmentAt s' i)
  /\ (forall a, witnessSignedAt s i a = true -> witnessSignedAt s' i a = true).
Proof.
  intros HI Hc. destruct Hc.
  - destruct H as (_&_&_&Hm&Hw). unfold commitmentAt, witnessSignedAt.
    rewrite Hm, Hw. split; [apply grows_refl|done].
  - split; [|done]. destruct (decide (i0 = i)) as [->|Hne].
    + rewrite (commitmentAt_invalid s i); [apply grows_zero|done|].
      apply not_true_is_false. rewrite validId_spec. lia.
    + rewrite commitmentAt_storeAt_ne by done. apply grows_refl.
  - split; [|done]. destruct (decide (i0 = i)) as [->|Hne].
    + rewrite commitmentAt_storeAt. subst c c1.
      eapply grows_trans; [|apply grows_completed].
      repeat split; simpl; try done; lia.
    + rewrite commitmentAt_storeAt_ne by done. apply grows_refl.
  - split.
    + destruct (decide (i0 = i)) as [->|Hne].
      * rewrite commitmentAt_storeAt. subst c c1.
        eapply grows_trans; [|apply grows_completed].
        repeat split; simpl; try done; lia.
      * rewrite commitmentAt_storeAt_ne by done. apply grows_refl.
    + intros a Ha.
      change (witnessSignedAt (storeAt _ _ ?st) i a) with (witnessSignedAt st i a).
      rewrite witnessSignedAt_signWitness. by case_bool_decide.
  - split; [|done]. destruct (decide (i0 = i)) as [->|Hne].
    + rewrite commitmentAt_storeAt. subst c. repeat split; simpl; try done; lia.
    + rewrite commitmentAt_storeAt_ne by done. apply grows_refl.
  - split; [|done]. destruct (decide (i0 = i)) as [->|Hne].
    + rewrite commitmentAt_storeAt. subst c. repeat split; simpl; try done; lia.
    + rewrite commitmentAt_storeAt_ne by done. apply grows_refl.
  - split; [|done]. destruct (decide (i0 = i)) as [->|Hne].
    + rewrite commitmentAt_storeAt. subst c. repeat split; simpl; try done; lia.
    + rewrite commitmentAt_storeAt_ne by done. apply grows_refl.
Qed.

Lemma transact_grows s tx i :
  Inv s ->
  grows (commitmentAt s i) (commitmentAt (transact s tx).1 i)
  /\ (forall a, witnessSignedAt s i a = true ->
                witnessSignedAt (transact s tx).1 i a = true).
Proof.
  intros HI. destruct (transact_cases s tx HI) as [[e ->]|(r & s' & evs & -> & Hc)].
  - split; [apply grows_refl|done].
  - simpl. by eapply commits_grows.
Qed.

Lemma run_grows s txs i :
  Inv s ->
  grows (commitmentAt s i) (commitmentAt (run s txs).1 i)
  /\ (forall a, witnessSignedAt s i a = true ->
                witnessSignedAt (run s txs).1 i a = true).
Proof.
  revert s. induction txs as [|tx rest IH]; intros s HI.
  - split; [apply grows_refl|done].
  - rewrite run_cons. cbn [fst].
    destruct (transact_grows s tx i HI) as [Hg Hw].
    destruct (IH _ (transact_Inv s tx HI)) as [Hg' Hw'].
    split; [by eapply grows_trans|auto].
Qed.

Lemma Inv_count_le s i :
  Inv s ->
  witnessSignedCount (commitmentAt s i)
  <= N.of_nat (length (witnesses (commitmentAt s i))).
Proof.
  intros HI. destruct (validId s i) eqn:Hv.
  - destruct (Inv_wf s i HI Hv) as (_&_&_&Hn&_). rewrite Hn.
    pose proof (countSigned_le (witnessSignedAt s i) (witnesses (commitmentAt s i))).
    lia.
  - rewrite commitmentAt_invalid by done. simpl. lia.
Qed.

(** C7. From any state reached from deployment and over any further
    sequence of transactions, for every commitment id: [initiatorSigned],
    [signerSigned], each witness's signed flag, [isCompleted] and
    [isVerified] stay true once true; [witnessSignedCount] does not
    decrease, and it never exceeds the number of witnesses. *)
Theorem signatures_monotone env admin s0 txs1 txs2 i :
  deploy env admin = Some s0 ->
  let s := (run s0 txs1).1 in
  let s' := (run s txs2).1 in
  let c := commitmentAt s i in
  let c' := commitmentAt s' i in
  (initiatorSigned c = true -> initiatorSigned c' = true)
  /\ (signerSigned c = true -> signerSigned c' = true)
  /\ (forall a, witnessSignedAt s i a = true -> witnessSignedAt s' i a = true)
  /\ (isCompleted c = true -> isCompleted c' = true)
  /\ (isVerified c = true -> isVerified c' = true)
  /\ witnessSignedCount c <= witnessSignedCount c'
  /\ witnessSignedCount c' <= N.of_nat (length (witnesses c')).
Proof.
  intros Hd s s' c c'.
  pose proof (run_Inv s0 txs1 (deploy_Inv _ _ _ Hd)) as HI. fold s in HI.
  destruct (run_grows s txs2 i HI) as [(H1&H2&H3&H4&H5) Hw].
  repeat split; try done.
  apply Inv_count_le. by apply run_Inv.
Qed.

(** *** Identifiers *)

Lemma commits_counter s r s' evs :
  commits s r s' evs ->
  match r with
  | Some j => j = _commitmentIdCounter s + 1 /\ _commitmentIdCounter s' = j
  | None => _commitmentIdCounter s' = _commitmentIdCounter s
  end.
Proof.
  intros Hc. destruct Hc; try done.
  by destruct H as (_&_&Hn&_).
Qed.

Lemma transact_counter s tx :
  Inv s ->
  match createdId (transact s tx).2 with
  | Some j => j = _commitmentIdCounter s + 1
              /\ _commitmentIdCounter (transact s tx).1 = j
  | None => _commitmentIdCounter (transact s tx).1 = _commitmentIdCounter s
  end.
Proof.
  intros HI. destruct (transact_cases s tx HI) as [[e ->]|(r & s' & evs & -> & Hc)].
  - done.
  - apply commits_counter in Hc. unfold createdId. simpl. by destruct r.
Qed.

Lemma createdIds_cons r rs :
  createdIds (r :: rs)
  = match createdId r with
    | Some j => j :: createdIds rs
    | None => createdIds rs
    end.
Proof. reflexivity. Qed.

Lemma run_createdIds s txs :
  Inv s ->
  let ids := createdIds (run s txs).2 in
  _commitmentIdCounter (run s txs).1
  = _commitmentIdCounter s + N.of_nat (length ids)
  /\ Forall (fun j => _commitmentIdCounter s < j) ids
  /\ StronglySorted N.lt ids.
Proof.
  revert s. induction txs as [|tx rest IH]; intros s HI.
  - simpl. split; [lia|]. split; constructor.
  - rewrite run_cons. cbn [fst snd]. rewrite createdIds_cons.
    destruct (IH _ (transact_Inv s tx HI)) as (Hn & Hall & Hs).
    pose proof (transact_counter s tx HI) as Hc.
    destruct (createdId (transact s tx).2) as [j|].
    + destruct Hc as [-> Hc]. rewrite Hc in *. cbn zeta. repeat split.
      * rewrite Hn. simpl length. lia.
      * constructor; [lia|]. eapply Forall_impl; [exact Hall|].
        simpl. intros; lia.
      * by constructor.
    + rewrite Hc in *. done.
Qed.

Lemma StronglySorted_lt_NoDup (l : list N) : StronglySorted N.lt l -> NoDup l.
Proof.
  induction 1 as [|x l _ IH Hx]; constructor; [|done].
  intros Hin. rewrite Forall_forall in Hx. specialize (Hx x Hin). lia.
Qed.

(** C8. Along every execution from deployment, the ids returned by the
    successful [createCommitment] calls are positive, pairwise different
    and strictly increasing in the order of the calls; they are handed out
    one after the other, so the [k]-th successful creation returns [k] and
    reverted calls use up no id. *)
Theorem created_ids_sequential env admin s0 txs :
  deploy env admin = Some s0 ->
  let ids := createdIds (run s0 txs).2 in
  Forall (fun j => 0 < j) ids
  /\ NoDup ids
  /\ StronglySorted N.lt ids
  /\ (forall k j, ids !! k = Some j -> j = N.of_nat (S k))
  /\ _commitmentIdCounter (run s0 txs).1 = N.of_nat (length ids).
Proof.
  intros Hd ids. pose proof (deploy_Inv _ _ _ Hd) as HI.
  apply deploy_Some in Hd as [_ Hs0].
  assert (H0 : _commitmentIdCounter s0 = 0) by (by subst s0).
  assert (Hgen : forall s txs', Inv s -> forall k j,
             createdIds (run s txs').2 !! k = Some j ->
             j = _commitmentIdCounter s + N.of_nat (S k)).
  { clear. intros s txs'. revert s.
    induction txs' as [|tx rest IH]; intros s HI k j; [done|].
    rewrite run_cons. cbn [snd]. rewrite createdIds_cons.
    pose proof (transact_counter s tx HI) as Hc.
    destruct (createdId (transact s tx).2) as [j0|].
    - destruct Hc as [-> Hc]. destruct k as [|k]; simpl.
      + intros [= <-]. lia.
      + intros Hk. apply (IH _ (transact_Inv s tx HI)) in Hk. lia.
    - intros Hk. apply (IH _ (transact_Inv s tx HI)) in Hk. lia. }
  destruct (run_createdIds s0 txs HI) as (Hn & Hall & Hs).
  fold ids in Hn, Hall, Hs. rewrite H0 in *.
  split; [exact Hall|]. split; [by apply StronglySorted_lt_NoDup|].
  split; [exact Hs|]. split; [|lia].
  intros k j Hk. apply (Hgen s0 txs HI) in Hk. lia.
Qed.

(** *** Invalid identifiers *)

Lemma validCommitmentId_invalid {A} i (body : M A) s :
  validId s i = false -> validCommitmentId i body s = Reverted invalidId.
Proof. intros Hv. by rewrite validCommitmentId_eq, Hv. Qed.

Lemma signAsWitness_invalid env i s :
  _entered s = false -> validId s i = false ->
  signAsWitness env i s = Reverted invalidId.
Proof.
  intros He Hv. unfold signAsWitness, nonReentrant, validCommitmentId.
  mnorm. rewrite He. change (bool_decide (0 < i) && _) with (validId s i).
  by rewrite Hv.
Qed.

Lemma signAsSigner_invalid env i s :
  _entered s = false -> validId s i = false ->
  signAsSigner env i s
  = Reverted (if _paused s then EnforcedPause else invalidId).
Proof.
  intros He Hv. unfold signAsSigner, nonReentrant, whenNotPaused, validCommitmentId.
  mnorm. rewrite He. change (_paused (set_entered true s)) with (_paused s).
  destruct (_paused s); [done|].
  change (bool_decide (0 < i) && _) with (validId s i). by rewrite Hv.
Qed.

(** C9 (as amended). In every state reached from deployment the
    commitments stored are exactly those with [1 <= id <= commitmentCount()],
    the record stored at [i] has [id = i], and every entry point guarded by
    [validCommitmentId] reverts on any other id: with the invalid-id
    failure, except that [signAsSigner] on a paused registry reverts with
    [EnforcedPause], its [whenNotPaused] guard coming first. *)
Theorem valid_ids_contiguous env0 admin s0 txs :
  deploy env0 admin = Some s0 ->
  let s := (run s0 txs).1 in
  commitmentCount s = Success (_commitmentIdCounter s) s []
  /\ (forall i, is_Some (commitments s !! i) <-> 1 <= i <= _commitmentIdCounter s)
  /\ (forall i c, commitments s !! i = Some c -> id c = i)
  /\ (forall env i a,
        ~ (1 <= i <= _commitmentIdCounter s) ->
        getCommitment i s = Reverted invalidId
        /\ hasWitnessSigned i a s = Reverted invalidId
        /\ getRole i a s = Reverted invalidId
        /\ getWitnessCount i s = Reverted invalidId
        /\ signAsWitness env i s = Reverted invalidId
        /\ freezeCommitment env i s = Reverted invalidId
        /\ unfreezeCommitment env i s = Reverted invalidId
        /\ verifyCommitment env i s = Reverted invalidId
        /\ signAsSigner env i s
           = Reverted (if _paused s then EnforcedPause else invalidId)).
Proof.
  intros Hd s. pose proof (run_Inv s0 txs (deploy_Inv _ _ _ Hd)) as HI.
  fold s in HI. split; [|split; [|split]].
  - unfold commitmentCount. by mnorm.
  - intros i. rewrite (inv_dom s HI), validId_spec. lia.
  - intros i c Hc. by destruct (inv_wf s HI i c Hc) as [? _].
  - intros env i a Hi.
    assert (Hv : validId s i = false).
    { apply not_true_is_false. rewrite validId_spec. lia. }
    pose proof (inv_entered s HI) as He.
    repeat split.
    + by apply validCommitmentId_invalid.
    + by apply validCommitmentId_invalid.
    + by apply validCommitmentId_invalid.
    + by apply validCommitmentId_invalid.
    + by apply signAsWitness_invalid.
    + by rewrite freezeCommitment_eq, Hv.
    + by rewrite unfreezeCommitment_eq, Hv.
    + by rewrite verifyCommitment_eq, Hv.
    + by apply signAsSigner_invalid.
Qed.

Lemma valid_ids_contiguous_witness :
  deploy (from admin0) admin0 = Some deployed
  /\ getCommitment 1 pausedRegistry = Reverted invalidId
  /\ signAsWitness (from witness1) 1 pausedRegistry = Reverted invalidId
  /\ signAsSigner (from signer0) 1 pausedRegistry = Reverted EnforcedPause.
Proof.
  assert (Hd : deploy (from admin0) admin0 = Some deployed)
    by (vm_compute; reflexivity).
  split; [exact Hd|].
  destruct (valid_ids_contiguous (from admin0) admin0 deployed pausedTxs Hd)
    as (_ & _ & _ & H).
  destruct (H (from signer0) 1 witness1) as (H1 & _ & _ & _ & _ & _ & _ & _ & H9).
  { intros [_ H2]. vm_compute in H2. by apply H2. }
  destruct (H (from witness1) 1 witness1) as (_ & _ & _ & _ & H5 & _).
  { intros [_ H2]. vm_compute in H2. by apply H2. }
  split; [exact H1|]. split; [exact H5|]. exact H9.
Defined.

(** C9 as stated fails: on the paused registry, reached from deployment,
    [signAsSigner 0] does not revert with the invalid-id failure but with
    [EnforcedPause]. *)
Lemma signAsSigner_invalid_id_when_paused :
  deploy (from admin0) admin0 = Some deployed
  /\ pausedRegistry = (run deployed pausedTxs).1
  /\ _commitmentIdCounter pausedRegistry = 0
  /\ signAsSigner (from signer0) 0 pausedRegistry = Reverted EnforcedPause
  /\ signAsSigner (from signer0) 0 pausedRegistry ≠ Reverted invalidId.
Proof.
  split; [vm_compute; reflexivity|]. split; [reflexivity|].
  split; [by vm_compute|].
  assert (H : signAsSigner (from signer0) 0 pausedRegistry = Reverted EnforcedPause)
    by (by vm_compute).
  split; [exact H|]. rewrite H. discriminate.
Qed.

(** *** Freezing *)

Lemma sameOutside_storeAt i c s : sameOutside i s (storeAt i c s).
Proof.
  repeat split; try done. intros j Hne. unfold storeAt; simpl.
  by rewrite lookup_insert_ne.
Qed.

Lemma transact_Reverted s env op e :
  dispatch env op s = Reverted e ->
  transact s (env, op) = (s, mkReceipt (inl e) []).
Proof. unfold transact. simpl. by intros ->. Qed.

(** C3. While [isFrozen] is set, [signAsSigner] and [signAsWitness] on the
    commitment revert and the transaction leaves the storage as it was.
    [freezeCommitment] reverts on a frozen commitment, [unfreezeCommitment]
    on one that is not frozen; when they succeed, the storage outside the
    commitment's slot is unchanged (the per-witness signed flags included),
    and in the slot only [isFrozen] differs. *)
Theorem freeze_gates_signing_only env s i :
  let c := commitmentAt s i in
  (isFrozen c = true ->
     (exists e, signAsSigner env i s = Reverted e
                /\ transact s (env, SignAsSigner i) = (s, mkReceipt (inl e) []))
     /\ (exists e, signAsWitness env i s = Reverted e
                /\ transact s (env, SignAsWitness i) = (s, mkReceipt (inl e) []))
     /\ (exists e, freezeCommitment env i s = Reverted e))
  /\ (isFrozen c = false -> exists e, unfreezeCommitment env i s = Reverted e)
  /\ (forall u s' evs,
        freezeCommitment env i s = Success u s' evs ->
        isFrozen c = false /\ isFrozen (commitmentAt s' i) = true
        /\ sameButFrozen c (commitmentAt s' i) /\ sameOutside i s s')
  /\ (forall u s' evs,
        unfreezeCommitment env i s = Success u s' evs ->
        isFrozen c = true /\ isFrozen (commitmentAt s' i) = false
        /\ sameButFrozen c (commitmentAt s' i) /\ sameOutside i s s').
Proof.
  intros c. split; [|split; [|split]].
  - intros Hf. split; [|split].
    + destruct (signAsSigner env i s) as [u s' evs|e] eqn:Hs.
      * apply signAsSigner_Success in Hs as (_&_&_&Hnf&_). fold c in Hnf. congruence.
      * exists e. split; [done|]. apply transact_Reverted. cbn [dispatch].
        by apply bind_Reverted.
    + destruct (signAsWitness env i s) as [u s' evs|e] eqn:Hs.
      * apply signAsWitness_Success in Hs as (_&_&Hnf&_). fold c in Hnf. congruence.
      * exists e. split; [done|]. apply transact_Reverted. cbn [dispatch].
        by apply bind_Reverted.
    + rewrite freezeCommitment_eq. fold c. rewrite Hf.
      destruct (validId s i); eauto.
  - intros Hf. rewrite unfreezeCommitment_eq. fold c. rewrite Hf.
    destruct (validId s i); eauto.
  - intros u s' evs. rewrite freezeCommitment_eq. fold c. intros H.
    mcase H. mcase H. simplify_eq. rewrite commitmentAt_storeAt.
    split; [done|]. split; [done|]. split; [done|]. apply sameOutside_storeAt.
  - intros u s' evs. rewrite unfreezeCommitment_eq. fold c. intros H.
    mcase H. mcase H. simplify_eq. rewrite commitmentAt_storeAt.
    split; [done|]. split; [done|]. split; [done|]. apply sameOutside_storeAt.
Qed.

Lemma freeze_gates_signing_only_witness :
  isFrozen (commitmentAt frozenRegistry 1) = true
  /\ (exists e, signAsSigner (from signer0) 1 frozenRegistry = Reverted e)
  /\ (exists e, signAsWitness (from witness1) 1 frozenRegistry = Reverted e)
  /\ (exists e, freezeCommitment (from emergency0) 1 frozenRegistry = Reverted e)
  /\ isFrozen (commitmentAt completedRegistry 1) = false
  /\ (exists e, unfreezeCommitment (from emergency0) 1 completedRegistry = Reverted e)
  /\ sameOutside 1 completedRegistry frozenRegistry
  /\ sameOutside 1 frozenRegistry completedRegistry.
Proof.
  assert (Hf : isFrozen (commitmentAt frozenRegistry 1) = true) by (by vm_compute).
  assert (Hn : isFrozen (commitmentAt completedRegistry 1) = false) by (by vm_compute).
  split; [exact Hf|].
  destruct (freeze_gates_signing_only (from signer0) frozenRegistry 1)
    as (H1 & _).
  destruct (H1 Hf) as ((e1 & He1 & _) & _).
  split; [by exists e1|].
  destruct (freeze_gates_signing_only (from witness1) frozenRegistry 1)
    as (H2 & _).
  destruct (H2 Hf) as (_ & (e2 & He2 & _) & _).
  split; [by exists e2|].
  destruct (freeze_gates_signing_only (from emergency0) frozenRegistry 1)
    as (H3 & _ & _ & H4).
  destruct (H3 Hf) as (_ & _ & He3).
  split; [exact He3|]. split; [exact Hn|].
  destruct (freeze_gates_signing_only (from emergency0) completedRegistry 1)
    as (_ & H5 & H6 & _).
  split; [exact (H5 Hn)|].
  split.
  - refine (proj2 (proj2 (proj2 (H6 tt frozenRegistry
      [CommitmentFrozen 1 emergency0 1700000000] _)))).
    vm_compute. reflexivity.
  - refine (proj2 (proj2 (proj2 (H4 tt completedRegistry
      [CommitmentUnfrozen 1 emergency0 1700000000] _)))).
    vm_compute. reflexivity.
Defined.

(** *** Creation *)

(** C6. [createCommitment] reverts, whatever the other arguments and the
    storage are, on an empty file hash, a zero signer, a signer equal to
    the caller, a zero witness, a witness equal to the signer, or a witness
    list with a repeated entry; the reverted transaction leaves the storage
    as it was and logs nothing. *)
Theorem createCommitment_rejects env h sg ws s :
  h = EmptyString \/ sg = 0 \/ sg = msg_sender env
  \/ 0 ∈ ws \/ sg ∈ ws \/ ~ NoDup ws ->
  exists e,
    createCommitment env h sg ws s = Reverted e
    /\ transact s (env, CreateCommitment h sg ws) = (s, mkReceipt (inl e) []).
Proof.
  intros Hbad.
  destruct (createCommitment env h sg ws s) as [i s' evs|e] eqn:Hc.
  - exfalso.
    apply createCommitment_Success in Hc as (Hh & H0 & Hs & [Hnd Hall] & _).
    rewrite Forall_forall in Hall.
    destruct Hbad as [->|[?|[?|[Hin|[Hin|?]]]]]; try done.
    + simpl in Hh. lia.
    + by destruct (Hall _ Hin).
    + by destruct (Hall _ Hin).
  - exists e. split; [done|]. apply transact_Reverted. cbn [dispatch].
    by apply bind_Reverted.
Qed.

Lemma createCommitment_rejects_witness :
  (exists e,
     createCommitment (from police0) "0xab" signer0 [witness1; signer0]
       completedRegistry = Reverted e
     /\ transact completedRegistry
          (from police0, CreateCommitment "0xab" signer0 [witness1; signer0])
        = (completedRegistry, mkReceipt (inl e) [])).
Proof.
  apply (createCommitment_rejects (from police0) "0xab" signer0
           [witness1; signer0] completedRegistry).
  right. right. right. right. left.
  apply list_elem_of_In. simpl. right. left. reflexivity.
Defined.

(** *** Verification *)

(** C10. A commitment with a valid id that is completed and not yet
    verified is verified by [verifyCommitment] also while it is frozen: the
    call succeeds, sets [isVerified] and leaves [isFrozen] set.  Likewise
    [unfreezeCommitment] is not held back by the frozen flag. *)
Theorem verify_while_frozen env s i :
  let c := commitmentAt s i in
  validId s i = true -> isCompleted c = true -> isVerified c = false ->
  isFrozen c = true ->
  exists s',
    verifyCommitment env i s
    = Success tt s' [CommitmentVerified i (msg_sender env) (block_timestamp env)]
    /\ isVerified (commitmentAt s' i) = true
    /\ isFrozen (commitmentAt s' i) = true
    /\ exists s'',
         unfreezeCommitment env i s
         = Success tt s''
             [CommitmentUnfrozen i (msg_sender env) (block_timestamp env)].
Proof.
  intros c Hv Hc Hnv Hf.
  exists (storeAt i (set_isVerified true c) s).
  rewrite verifyCommitment_eq, unfreezeCommitment_eq. fold c.
  rewrite Hv, Hc, Hnv, Hf, commitmentAt_storeAt. simpl.
  split; [done|]. split; [done|]. split; [done|]. eauto.
Qed.

Lemma verify_while_frozen_witness :
  exists s',
    verifyCommitment (from outsider0) 1 frozenRegistry
    = Success tt s' [CommitmentVerified 1 outsider0 1700000000]
    /\ isVerified (commitmentAt s' 1) = true
    /\ isFrozen (commitmentAt s' 1) = true
    /\ exists s'',
         unfreezeCommitment (from outsider0) 1 frozenRegistry
         = Success tt s'' [CommitmentUnfrozen 1 outsider0 1700000000].
Proof.
  apply (verify_while_frozen (from outsider0) frozenRegistry 1);
    vm_compute; reflexivity.
Defined.

(** *** Witnesses of the theorems on executions *)

Lemma completion_at_most_once_witness :
  deploy (from admin0) admin0 = Some deployed
  /\ (completionFlips 1 deployed scenarioB <= 1)%nat
  /\ (completedEmitted 1 (allLogs (run deployed scenarioB).2) <= 1)%nat.
Proof.
  assert (Hd : deploy (from admin0) admin0 = Some deployed)
    by (vm_compute; reflexivity).
  split; [exact Hd|].
  destruct (completion_at_most_once (from admin0) admin0 deployed scenarioB 1 Hd)
    as (H1 & H2 & _).
  split; [exact H1|exact H2].
Defined.

Lemma signatures_monotone_witness :
  deploy (from admin0) admin0 = Some deployed
  /\ isCompleted (commitmentAt completedRegistry 1) = true
  /\ isCompleted (commitmentAt (run completedRegistry
                                  [(from emergency0, FreezeCommitment 1);
                                   (from signer0, SignAsSigner 1);
                                   (from emergency0, UnfreezeCommitment 1)]).1 1)
     = true.
Proof.
  assert (Hd : deploy (from admin0) admin0 = Some deployed)
    by (vm_compute; reflexivity).
  assert (Hc : isCompleted (commitmentAt completedRegistry 1) = true)
    by (vm_compute; reflexivity).
  split; [exact Hd|]. split; [exact Hc|].
  destruct (signatures_monotone (from admin0) admin0 deployed completedTxs
              [(from emergency0, FreezeCommitment 1);
               (from signer0, SignAsSigner 1);
               (from emergency0, UnfreezeCommitment 1)] 1 Hd)
    as (_ & _ & _ & H4 & _).
  exact (H4 Hc).
Defined.

Lemma created_ids_sequential_witness :
  deploy (from admin0) admin0 = Some deployed
  /\ StronglySorted N.lt (createdIds (run deployed scenarioB).2)
  /\ NoDup (createdIds (run deployed scenarioB).2).
Proof.
  assert (Hd : deploy (from admin0) admin0 = Some deployed)
    by (vm_compute; reflexivity).
  split; [exact Hd|].
  destruct (created_ids_sequential (from admin0) admin0 deployed scenarioB Hd)
    as (_ & H2 & H3 & _).
  split; [exact H3|exact H2].
Defined.

(** *** Where the code departs from its documentation *)

(** C2, evaluated.  The modifiers [onlyRole(POLICE_ROLE)] and
    [whenNotPaused] of [createCommitment] are commented out: on the paused
    registry a caller without [POLICE_ROLE] creates commitment 1.  Reading
    it back with [getCommitment] succeeds while the registry is paused. *)
Theorem createCommitment_ignores_role_and_pause :
  let tx := (from outsider0, CreateCommitment "0xab" signer0 []) in
  deploy (from admin0) admin0 = Some deployed
  /\ _paused pausedRegistry = true
  /\ hasRole pausedRegistry POLICE_ROLE outsider0 = false
  /\ outcome (transact pausedRegistry tx).2 = inr (Some 1)
  /\ _paused (transact pausedRegistry tx).1 = true
  /\ getCommitment 1 (transact pausedRegistry tx).1
     = Success (newCommitment (from outsider0) 1 "0xab" signer0 [])
         (transact pausedRegistry tx).1 [].
Proof. vm_compute. repeat split; reflexivity. Qed.

(** C4, evaluated.  The modifier [onlyRole(VERIFIER_ROLE)] of
    [verifyCommitment] is commented out: a caller without the role verifies
    the completed commitment 1; a second call reverts, and so does a call
    on a commitment that is not completed. *)
Theorem verifyCommitment_ignores_role :
  let tx := (from outsider0, VerifyCommitment 1) in
  deploy (from admin0) admin0 = Some deployed
  /\ hasRole completedRegistry VERIFIER_ROLE outsider0 = false
  /\ isCompleted (commitmentAt completedRegistry 1) = true
  /\ outcome (transact completedRegistry tx).2 = inr None
  /\ isVerified (commitmentAt (transact completedRegistry tx).1 1) = true
  /\ outcome (transact (transact completedRegistry tx).1 tx).2
     = inl (Revert "CommitmentChain: Already verified").
Proof. vm_compute. repeat split; reflexivity. Qed.

(** C5, evaluated.  The check that a witness is not the initiator is
    commented out in the validation loop: the caller lists itself as a
    witness and the commitment is stored with it. *)
Theorem createCommitment_accepts_initiator_as_witness :
  let tx := (from police0, CreateCommitment "0xab" signer0 [witness1; police0]) in
  let s := (run deployed setupTxs).1 in
  deploy (from admin0) admin0 = Some deployed
  /\ outcome (transact s tx).2 = inr (Some 1)
  /\ initiator (commitmentAt (transact s tx).1 1) = police0
  /\ witnesses (commitmentAt (transact s tx).1 1) = [witness1; police0].
Proof. vm_compute. repeat split; reflexivity. Qed.

(** Reading a stored commitment does not look at the pause flag. *)
Lemma getCommitment_valid i s :
  validId s i = true -> getCommitment i s = Success (commitmentAt s i) s [].
Proof.
  intros Hv. unfold getCommitment. rewrite validCommitmentId_eq, Hv. by mnorm.
Qed.

(** The two guards [verifyCommitment] does have: it reverts on a commitment
    that is not completed, and after a successful call every further call
    reverts. *)
Lemma verifyCommitment_guards env i s :
  (isCompleted (commitmentAt s i) = false ->
   exists e, verifyCommitment env i s = Reverted e)
  /\ (forall u s' evs,
        verifyCommitment env i s = Success u s' evs ->
        isVerified (commitmentAt s i) = false
        /\ isVerified (commitmentAt s' i) = true
        /\ forall env',
             verifyCommitment env' i s'
             = Reverted (Revert "CommitmentChain: Already verified")).
Proof.
  split.
  - intros Hc. rewrite verifyCommitment_eq, Hc.
    destruct (validId s i), (isVerified (commitmentAt s i)); eauto.
  - intros u s' evs. rewrite verifyCommitment_eq. intros H.
    mcase H. mcase H. mcase H. simplify_eq.
    rewrite commitmentAt_storeAt. split; [done|]. split; [done|].
    intros env'. rewrite verifyCommitment_eq.
    change (validId (storeAt _ _ s) i) with (validId s i).
    match goal with Hv : validId s i = true |- _ => rewrite Hv end.
    by rewrite commitmentAt_storeAt.
Qed.

(** ** Further properties of the registry *)

(** *** Stored data *)

Lemma wfCreated_completed c : wfCreated c -> wfCreated (completed c).
Proof. unfold completed. by destruct (allSigned c). Qed.

Lemma witnesses_completed c : witnesses (completed c) = witnesses c.
Proof. unfold completed. by destruct (allSigned c). Qed.

Lemma sameCreated_completed c : sameCreated c (completed c).
Proof. unfold completed. by destruct (allSigned c). Qed.

Lemma sameCreated_refl c : sameCreated c c.
Proof. done. Qed.

Lemma sameCreated_trans c1 c2 c3 :
  sameCreated c1 c2 -> sameCreated c2 c3 -> sameCreated c1 c3.
Proof.
  intros (?&?&?&?&?&?) (?&?&?&?&?&?). repeat split; congruence.
Qed.

Lemma Inv2_storeAt s i c' :
  Inv s -> Inv2 s -> validId s i = true ->
  wfCreated c' -> witnesses c' = witnesses (commitmentAt s i) ->
  Inv2 (storeAt i c' s).
Proof.
  intros HI HJ Hv Hwf Hw j c. unfold storeAt; simpl.
  destruct (decide (i = j)) as [<-|Hne].
  - rewrite lookup_insert_eq. intros [= <-]. split; [done|].
    intros a Ha. rewrite Hw.
    by apply (HJ i _ (Inv_lookup s i HI Hv)).
  - rewrite lookup_insert_ne by done. apply HJ.
Qed.

Lemma commits_Inv2 s r s' evs :
  Inv s -> Inv2 s -> commits s r s' evs -> Inv2 s'.
Proof.
  intros HI HJ Hc.
  destruct Hc as [s' evs Hsame Hev
                 |env h sg ws i Hh Hsg0 Hsgs Hok Hmax Hi
                 |env i c c1 Hc Hc1 Hp Hv Hf Hs Hss His
                 |env i c c1 Hc Hc1 Hv Hf His Hin Hws Hmax
                 |env i c Hc Hv Hf|env i c Hc Hv Hf|env i c Hc Hv Hnv Hcomp].
  - destruct Hsame as (_ & _ & _ & Hm & Hw). intros i c.
    unfold witnessSignedAt. rewrite Hm, Hw. apply HJ.
  - intros j c. unfold storeAt; simpl.
    destruct (decide (i = j)) as [<-|Hne].
    + rewrite lookup_insert_eq. intros [= <-]. split; [done|].
      intros a Ha. apply (inv_signed s HI) in Ha.
      apply validId_spec in Ha. lia.
    + rewrite lookup_insert_ne by done. apply HJ.
  - subst c c1. apply Inv2_storeAt; try done.
    + apply wfCreated_completed.
      by destruct (HJ i _ (Inv_lookup s i HI Hv)) as [? _].
    + by rewrite witnesses_completed.
  - subst c c1. intros j c.
    change (witnessSignedAt (storeAt _ _ ?st) j) with (witnessSignedAt st j).
    unfold storeAt; cbn [commitments set_commitments].
    destruct (decide (i = j)) as [<-|Hne].
    + rewrite lookup_insert_eq. intros [= <-].
      destruct (HJ i _ (Inv_lookup s i HI Hv)) as [Hwf Hin'].
      split; [by apply wfCreated_completed|].
      intros a. rewrite witnesses_completed. cbn [witnesses set_witnessSignedCount].
      rewrite witnessSignedAt_signWitness. case_bool_decide as Hd.
      * intros _. by simplify_eq.
      * apply Hin'.
    + rewrite lookup_insert_ne by done. intros Hc.
      destruct (HJ j c Hc) as [Hwf Hin']. split; [done|]. intros a.
      rewrite witnessSignedAt_signWitness.
      rewrite bool_decide_eq_false_2 by congruence. apply Hin'.
  - subst c. apply Inv2_storeAt; try done.
    by destruct (HJ i _ (Inv_lookup s i HI Hv)) as [? _].
  - subst c. apply Inv2_storeAt; try done.
    by destruct (HJ i _ (Inv_lookup s i HI Hv)) as [? _].
  - subst c. apply Inv2_storeAt; try done.
    by destruct (HJ i _ (Inv_lookup s i HI Hv)) as [? _].
Qed.

Lemma deploy_Inv2 env admin s : deploy env admin = Some s -> Inv2 s.
Proof. intros [_ ->]%deploy_Some. intros i c. simpl. by rewrite lookup_empty. Qed.

Lemma transact_Inv2 s tx : Inv s -> Inv2 s -> Inv2 (transact s tx).1.
Proof.
  intros HI HJ.
  destruct (transact_cases s tx HI) as [[e ->]|(r & s' & evs & -> & Hc)];
    [done|by eapply commits_Inv2].
Qed.

Lemma run_Inv2 s txs : Inv s -> Inv2 s -> Inv2 (run s txs).1.
Proof.
  revert s. induction txs as [|tx rest IH]; intros s HI HJ; [done|].
  rewrite run_cons. simpl. apply IH; [by apply transact_Inv|by apply transact_Inv2].
Qed.

Lemma commits_sameCreated s r s' evs i :
  Inv s -> commits s r s' evs -> validId s i = true ->
  sameCreated (commitmentAt s i) (commitmentAt s' i).
Proof.
  intros HI Hc Hv.
  destruct Hc as [s' evs Hsame Hev
                 |env h sg ws j Hh Hsg0 Hsgs Hok Hmax Hj
                 |env j c c1 Hc Hc1 Hp Hvj Hf Hs Hss His
                 |env j c c1 Hc Hc1 Hvj Hf His Hin Hws Hmax
                 |env j c Hc Hvj Hf|env j c Hc Hvj Hf|env j c Hc Hvj Hnv Hcomp].
  - destruct Hsame as (_ & _ & _ & Hm & _). unfold commitmentAt. by rewrite Hm.
  - rewrite commitmentAt_storeAt_ne; [done|].
    apply validId_spec in Hv. lia.
  - destruct (decide (j = i)) as [->|Hne].
    + rewrite commitmentAt_storeAt. subst c c1.
      eapply sameCreated_trans; [|apply sameCreated_completed]. done.
    + by rewrite commitmentAt_storeAt_ne.
  - destruct (decide (j = i)) as [->|Hne].
    + rewrite commitmentAt_storeAt. subst c c1.
      eapply sameCreated_trans; [|apply sameCreated_completed]. done.
    + by rewrite commitmentAt_storeAt_ne.
  - destruct (decide (j = i)) as [->|Hne].
    + rewrite commitmentAt_storeAt. by subst c.
    + by rewrite commitmentAt_storeAt_ne.
  - destruct (decide (j = i)) as [->|Hne].
    + rewrite commitmentAt_storeAt. by subst c.
    + by rewrite commitmentAt_storeAt_ne.
  - destruct (decide (j = i)) as [->|Hne].
    + rewrite commitmentAt_storeAt. by subst c.
    + by rewrite commitmentAt_storeAt_ne.
Qed.

Lemma commits_validId s r s' evs i :
  commits s r s' evs -> validId s i = true -> validId s' i = true.
Proof.
  intros Hc. apply commits_counter in Hc. rewrite !validId_spec.
  destruct r as [j|]; [destruct Hc as [-> Hc]|]; rewrite Hc; lia.
Qed.

Lemma transact_validId s tx i :
  Inv s -> validId s i = true -> validId (transact s tx).1 i = true.
Proof.
  intros HI. destruct (transact_cases s tx HI) as [[e ->]|(r & s' & evs & -> & Hc)];
    [done|by eapply commits_validId].
Qed.

Lemma run_sameCreated s txs i :
  Inv s -> validId s i = true ->
  validId (run s txs).1 i = true
  /\ sameCreated (commitmentAt s i) (commitmentAt (run s txs).1 i).
Proof.
  revert s. induction txs as [|tx rest IH]; intros s HI Hv; [done|].
  rewrite run_cons. cbn [fst].
  destruct (IH _ (transact_Inv s tx HI) (transact_validId s tx i HI Hv)) as [Hv' Hs].
  split; [done|]. eapply sameCreated_trans; [|exact Hs].
  destruct (transact_cases s tx HI) as [[e ->]|(r & s' & evs & -> & Hc)];
    [done|by eapply commits_sameCreated].
Qed.

(** X1. Once a commitment exists, no later transaction changes its id,
    initiator, signer, witness list, file hash or creation time, and its
    id stays valid. *)
Theorem creation_data_immutable env admin s0 txs1 txs2 i :
  deploy env admin = Some s0 ->
  let s := (run s0 txs1).1 in
  let s' := (run s txs2).1 in
  validId s i = true ->
  validId s' i = true
  /\ id (commitmentAt s' i) = id (commitmentAt s i)
  /\ initiator (commitmentAt s' i) = initiator (commitmentAt s i)
  /\ signer (commitmentAt s' i) = signer (commitmentAt s i)
  /\ witnesses (commitmentAt s' i) = witnesses (commitmentAt s i)
  /\ fileHash (commitmentAt s' i) = fileHash (commitmentAt s i)
  /\ createdAt (commitmentAt s' i) = createdAt (commitmentAt s i).
Proof.
  intros Hd s s' Hv.
  pose proof (run_Inv s0 txs1 (deploy_Inv _ _ _ Hd)) as HI. fold s in HI.
  by destruct (run_sameCreated s txs2 i HI Hv) as [? (?&?&?&?&?&?)].
Qed.

Lemma creation_data_immutable_witness :
  deploy (from admin0) admin0 = Some deployed
  /\ validId completedRegistry 1 = true
  /\ witnesses (commitmentAt (run completedRegistry
                                [(from emergency0, FreezeCommitment 1);
                                 (from outsider0, VerifyCommitment 1)]).1 1)
     = witnesses (commitmentAt completedRegistry 1).
Proof.
  assert (Hd : deploy (from admin0) admin0 = Some deployed)
    by (vm_compute; reflexivity).
  assert (Hv : validId completedRegistry 1 = true) by (vm_compute; reflexivity).
  split; [exact Hd|]. split; [exact Hv|].
  destruct (creation_data_immutable (from admin0) admin0 deployed completedTxs
              [(from emergency0, FreezeCommitment 1);
               (from outsider0, VerifyCommitment 1)] 1 Hd Hv)
    as (_ & _ & _ & _ & H & _).
  exact H.
Defined.

(** X2. Every stored commitment carries what [createCommitment] checked:
    its [id] is its key, the initiator has signed, the file hash is not
    empty, the signer is neither the zero address nor the initiator, and
    the witnesses are pairwise different, none of them the zero address or
    the signer. *)
Theorem stored_commitments_wellformed env admin s0 txs i c :
  deploy env admin = Some s0 ->
  commitments (run s0 txs).1 !! i = Some c ->
  id c = i /\ initiatorSigned c = true
  /\ fileHash c ≠ EmptyString
  /\ signer c ≠ 0 /\ signer c ≠ initiator c
  /\ NoDup (witnesses c)
  /\ (forall w, w ∈ witnesses c -> w ≠ 0 /\ w ≠ signer c).
Proof.
  intros Hd Hc. pose proof (deploy_Inv _ _ _ Hd) as HI.
  pose proof (run_Inv2 s0 txs HI (deploy_Inv2 _ _ _ Hd)) as HJ.
  pose proof (run_Inv s0 txs HI) as HI'.
  destruct (inv_wf _ HI' i c Hc) as (Hid & Hin & _).
  destruct (HJ i c Hc) as [(Hh & Hs0 & Hsi & Hnd & Hall) _].
  split; [done|]. split; [done|]. split.
  { intros Heq. rewrite Heq in Hh. simpl in Hh. lia. }
  split; [done|]. split; [done|]. split; [done|].
  intros w Hw. rewrite Forall_forall in Hall. by apply Hall.
Qed.

Lemma stored_commitments_wellformed_witness :
  deploy (from admin0) admin0 = Some deployed
  /\ commitments (run deployed scenarioB).1 !! 1
     = Some (mkCommitment 1 police0 signer0 [witness1; witness2] "0xab"
               1700000000 true true 2 true false true)
  /\ NoDup [witness1; witness2].
Proof.
  assert (Hd : deploy (from admin0) admin0 = Some deployed)
    by (vm_compute; reflexivity).
  assert (Hc : commitments (run deployed scenarioB).1 !! 1
     = Some (mkCommitment 1 police0 signer0 [witness1; witness2] "0xab"
               1700000000 true true 2 true false true))
    by (vm_compute; reflexivity).
  split; [exact Hd|]. split; [exact Hc|].
  destruct (stored_commitments_wellformed (from admin0) admin0 deployed
              scenarioB 1 _ Hd Hc) as (_ & _ & _ & _ & _ & H & _).
  exact H.
Defined.

(** *** Signatures and completion *)

Lemma countSigned_all f ws :
  countSigned f ws = length ws <-> (forall w, w ∈ ws -> f w = true).
Proof.
  induction ws as [|w rest IH]; simpl.
  - split; [|done]. intros _ w Hw. by apply elem_of_nil in Hw.
  - pose proof (countSigned_le f rest) as Hle. split.
    + intros Hc w' Hw'. destruct (f w) eqn:Hf; simpl in Hc; [|lia].
      apply elem_of_cons in Hw' as [->|Hw']; [done|].
      apply IH; [lia|done].
    + intros Hall. rewrite (Hall w) by apply list_elem_of_here. simpl.
      f_equal. apply IH. intros w' Hw'. apply Hall.
      by apply list_elem_of_further.
Qed.

(** X3. In every state reached from deployment, [witnessSignedCount] of a
    commitment is the number of its listed witnesses whose signed flag is
    set, and a signed flag is set only for a listed witness of an existing
    commitment. *)
Theorem witness_count_matches_flags env admin s0 txs i :
  deploy env admin = Some s0 ->
  let s := (run s0 txs).1 in
  let c := commitmentAt s i in
  witnessSignedCount c
  = N.of_nat (countSigned (witnessSignedAt s i) (witnesses c))
  /\ (forall a, witnessSignedAt s i a = true ->
        validId s i = true /\ a ∈ witnesses c).
Proof.
  intros Hd s c. pose proof (deploy_Inv _ _ _ Hd) as HI0.
  pose proof (run_Inv s0 txs HI0) as HI.
  pose proof (run_Inv2 s0 txs HI0 (deploy_Inv2 _ _ _ Hd)) as HJ.
  fold s in HI, HJ. split.
  - destruct (validId s i) eqn:Hv.
    + by destruct (Inv_wf s i HI Hv) as (_&_&_&Hn&_).
    + subst c. by rewrite commitmentAt_invalid.
  - intros a Ha. pose proof (inv_signed s HI i a Ha) as Hv. split; [done|].
    by apply (HJ i _ (Inv_lookup s i HI Hv)).
Qed.

Lemma witness_count_matches_flags_witness :
  deploy (from admin0) admin0 = Some deployed
  /\ witnessSignedCount (commitmentAt (run deployed scenarioB).1 1) = 2
  /\ witness1 ∈ witnesses (commitmentAt (run deployed scenarioB).1 1).
Proof.
  assert (Hd : deploy (from admin0) admin0 = Some deployed)
    by (vm_compute; reflexivity).
  split; [exact Hd|].
  destruct (witness_count_matches_flags (from admin0) admin0 deployed
              scenarioB 1 Hd) as [H1 H2].
  split.
  - rewrite H1. vm_compute. reflexivity.
  - apply (H2 witness1). vm_compute. reflexivity.
Defined.

(** X4. In every state reached from deployment, a commitment is completed
    exactly when its signer and every listed witness have signed; and a
    verified commitment is completed. *)
Theorem completed_iff_all_signed env admin s0 txs i :
  deploy env admin = Some s0 ->
  let s := (run s0 txs).1 in
  let c := commitmentAt s i in
  (isCompleted c = true <->
     signerSigned c = true
     /\ forall w, w ∈ witnesses c -> witnessSignedAt s i w = true)
  /\ (isVerified c = true -> isCompleted c = true).
Proof.
  intros Hd s c. pose proof (run_Inv s0 txs (deploy_Inv _ _ _ Hd)) as HI.
  fold s in HI. destruct (validId s i) eqn:Hv.
  - destruct (Inv_wf s i HI Hv) as (_ & Hin & _ & Hn & Hc & Hver).
    fold c in Hin, Hn, Hc, Hver. split; [|done].
    rewrite Hc. unfold allSigned. rewrite Hin, andb_true_iff, bool_decide_eq_true.
    rewrite <- countSigned_all, Hn. simpl. split.
    + intros [? ?]. split; [done|]. lia.
    + intros [? ?]. split; [done|]. lia.
  - subst c. rewrite commitmentAt_invalid by done. simpl. split; [|done].
    split; [done|]. by intros [? _].
Qed.

Lemma completed_iff_all_signed_witness :
  deploy (from admin0) admin0 = Some deployed
  /\ signerSigned (commitmentAt (run deployed scenarioB).1 1) = true
  /\ witnessSignedAt (run deployed scenarioB).1 1 witness2 = true.
Proof.
  assert (Hd : deploy (from admin0) admin0 = Some deployed)
    by (vm_compute; reflexivity).
  split; [exact Hd|].
  destruct (completed_iff_all_signed (from admin0) admin0 deployed
              scenarioB 1 Hd) as [[H1 _] _].
  destruct H1 as [Hs Hw]; [vm_compute; reflexivity|].
  split; [exact Hs|]. apply Hw.
  apply list_elem_of_In. vm_compute. right. left. reflexivity.
Defined.

(** *** Outcome of the signing calls *)

Lemma signAsSigner_eq env i s :
  _entered s = false ->
  signAsSigner env i s
  = let c := commitmentAt s i in
    if _paused s then Reverted EnforcedPause
    else if validId s i then
      if isFrozen c then Reverted (Revert "CommitmentChain: Commitment is frozen")
      else if bool_decide (msg_sender env = signer c) then
        if signerSigned c then Reverted (Revert "CommitmentChain: Already signed")
        else if initiatorSigned c then
          Success tt (storeAt i (completed (set_signerSigned true c)) s)
            (CommitmentSigned i (msg_sender env) "signer" (block_timestamp env)
             :: completionLog env i (set_signerSigned true c))
        else Reverted (Revert "CommitmentChain: Initiator must sign first")
      else Reverted (Revert "CommitmentChain: Not the designated signer")
    else Reverted invalidId.
Proof.
  intros He. cbv zeta.
  unfold signAsSigner, nonReentrant, whenNotPaused, validCommitmentId,
    notFrozen, updateCommitment.
  mnorm. rewrite He.
  change (_paused (set_entered true s)) with (_paused s).
  destruct (_paused s); [done|].
  change (bool_decide (0 < i) && _) with (validId s i).
  destruct (validId s i); [|done].
  change (commitmentAt (set_entered true s) i) with (commitmentAt s i).
  destruct (isFrozen (commitmentAt s i)); [done|]. cbn [negb].
  destruct (bool_decide (msg_sender env = signer (commitmentAt s i))); [|done].
  destruct (signerSigned (commitmentAt s i)); [done|]. cbn [negb].
  destruct (initiatorSigned (commitmentAt s i)); [|done].
  change (set_commitments _ ?st)
    with (storeAt i (set_signerSigned true (commitmentAt s i)) st).
  erewrite bind_Success by apply _checkCompletion_storeAt.
  mnorm. rewrite ret_eq. cbn [logged].
  rewrite set_entered_storeAt, set_entered_twice, set_entered_id by done.
  by rewrite app_nil_r.
Qed.

Lemma _isWitness_eq i a s :
  _isWitness i a s
  = Success (bool_decide (a ∈ witnesses (commitmentAt s i))) s [].
Proof.
  unfold _isWitness. mnorm. rewrite ret_eq. f_equal.
  induction (witnesses (commitmentAt s i)) as [|w rest IH]; cbn [existsb].
  - by rewrite bool_decide_eq_false_2 by apply not_elem_of_nil.
  - rewrite IH. destruct (decide (w = a)) as [->|Hne].
    + rewrite (bool_decide_eq_true_2 (a = a)) by done. cbn [orb].
      by rewrite bool_decide_eq_true_2 by apply list_elem_of_here.
    + rewrite (bool_decide_eq_false_2 (w = a)) by done. cbn [orb].
      apply bool_decide_ext. rewrite elem_of_cons.
      split; [auto | intros [?|?]; [congruence|done]].
Qed.

Lemma signAsWitness_eq env i s :
  _entered s = false ->
  signAsWitness env i s
  = let c := commitmentAt s i in
    let a := msg_sender env in
    if validId s i then
      if isFrozen c then Reverted (Revert "CommitmentChain: Commitment is frozen")
      else if initiatorSigned c then
        if bool_decide (a ∈ witnesses c) then
          if witnessSignedAt s i a
          then Reverted (Revert "CommitmentChain: Already signed")
          else if bool_decide (witnessSignedCount c < MAX_UINT256) then
            Success tt
              (storeAt i (completed (set_witnessSignedCount
                                       (witnessSignedCount c + 1) c))
                 (signWitness i a s))
              (CommitmentSigned i a "witness" (block_timestamp env)
               :: completionLog env i
                    (set_witnessSignedCount (witnessSignedCount c + 1) c))
          else Reverted (Panic 17)
        else Reverted (Revert "CommitmentChain: Not a designated witness")
      else Reverted (Revert "CommitmentChain: Initiator must sign first")
    else Reverted invalidId.
Proof.
  intros He. cbv zeta.
  unfold signAsWitness, nonReentrant, validCommitmentId, notFrozen,
    updateCommitment, checked_incr.
  mnorm. rewrite He.
  change (bool_decide (0 < i) && _) with (validId s i).
  destruct (validId s i); [|done].
  change (commitmentAt (set_entered true s) i) with (commitmentAt s i).
  change (witnessSignedAt (set_entered true s) i) with (witnessSignedAt s i).
  destruct (isFrozen (commitmentAt s i)); [done|]. cbn [negb].
  destruct (initiatorSigned (commitmentAt s i)); [|done].
  erewrite bind_Success by apply _isWitness_eq. rewrite logged_nil.
  change (commitmentAt (set_entered true s) i) with (commitmentAt s i).
  mnorm.
  destruct (bool_decide (msg_sender env ∈ witnesses (commitmentAt s i))); [|done].
  destruct (witnessSignedAt s i (msg_sender env)); [done|]. cbn [negb].
  mnorm.
  destruct (bool_decide (witnessSignedCount (commitmentAt s i) < MAX_UINT256));
    [|done].
  mnorm.
  change (commitmentAt (set_witnessSigned _ _) i) with (commitmentAt s i).
  change (set_commitments _ (set_witnessSigned ?m ?st))
    with (storeAt i (set_witnessSignedCount
                       (witnessSignedCount (commitmentAt s i) + 1)
                       (commitmentAt s i)) (set_witnessSigned m st)).
  erewrite bind_Success by apply _checkCompletion_storeAt.
  mnorm. rewrite ret_eq. cbn [logged]. rewrite app_nil_r.
  f_equal. unfold signWitness, storeAt. destruct s; simpl in *; by subst.
Qed.

(** X5. [signAsSigner] in a state reached from deployment: the checks
    fail in this order - paused registry, invalid id, frozen commitment,
    caller other than the designated signer, signer already signed - and
    otherwise the call succeeds, sets [signerSigned], logs the signature
    and runs the completion check.  The guard on the initiator's signature
    never fires. *)
Theorem signAsSigner_outcome env0 admin s0 txs env i :
  deploy env0 admin = Some s0 ->
  let s := (run s0 txs).1 in
  let c := commitmentAt s i in
  signAsSigner env i s
  = if _paused s then Reverted EnforcedPause
    else if negb (validId s i) then Reverted invalidId
    else if isFrozen c
    then Reverted (Revert "CommitmentChain: Commitment is frozen")
    else if negb (bool_decide (msg_sender env = signer c))
    then Reverted (Revert "CommitmentChain: Not the designated signer")
    else if signerSigned c
    then Reverted (Revert "CommitmentChain: Already signed")
    else Success tt (storeAt i (completed (set_signerSigned true c)) s)
           (CommitmentSigned i (msg_sender env) "signer" (block_timestamp env)
            :: completionLog env i (set_signerSigned true c)).
Proof.
  intros Hd s c. pose proof (run_Inv s0 txs (deploy_Inv _ _ _ Hd)) as HI.
  fold s in HI. rewrite signAsSigner_eq by apply (inv_entered s HI).
  cbv zeta. fold c. destruct (_paused s); [done|].
  destruct (validId s i) eqn:Hv; [|done]. cbn [negb].
  destruct (Inv_wf s i HI Hv) as (_ & Hin & _). fold c in Hin. rewrite Hin.
  destruct (isFrozen c); [done|].
  by destruct (bool_decide (msg_sender env = signer c)), (signerSigned c).
Qed.

Lemma signAsSigner_outcome_witness :
  deploy (from admin0) admin0 = Some deployed
  /\ signAsSigner (from signer0) 1 completedRegistry
     = Reverted (Revert "CommitmentChain: Already signed")
  /\ signAsSigner (from outsider0) 1 completedRegistry
     = Reverted (Revert "CommitmentChain: Not the designated signer").
Proof.
  assert (Hd : deploy (from admin0) admin0 = Some deployed)
    by (vm_compute; reflexivity).
  split; [exact Hd|]. unfold completedRegistry. split.
  - rewrite (signAsSigner_outcome (from admin0) admin0 deployed completedTxs
               (from signer0) 1 Hd).
    vm_compute. reflexivity.
  - rewrite (signAsSigner_outcome (from admin0) admin0 deployed completedTxs
               (from outsider0) 1 Hd).
    vm_compute. reflexivity.
Defined.

(** X6. [signAsWitness] in a state reached from deployment, for a witness
    list whose length fits a [uint256]: the checks fail in this order -
    invalid id, frozen commitment, caller not in the witness list, witness
    already signed - and otherwise the call succeeds, sets the caller's
    flag, adds one to [witnessSignedCount], logs the signature and runs
    the completion check.  The pause flag is not looked at; neither the
    initiator guard nor the checked increment ever fails. *)
Theorem signAsWitness_outcome env0 admin s0 txs env i :
  deploy env0 admin = Some s0 ->
  let s := (run s0 txs).1 in
  let c := commitmentAt s i in
  let a := msg_sender env in
  N.of_nat (length (witnesses c)) <= MAX_UINT256 ->
  signAsWitness env i s
  = if negb (validId s i) then Reverted invalidId
    else if isFrozen c
    then Reverted (Revert "CommitmentChain: Commitment is frozen")
    else if negb (bool_decide (a ∈ witnesses c))
    then Reverted (Revert "CommitmentChain: Not a designated witness")
    else if witnessSignedAt s i a
    then Reverted (Revert "CommitmentChain: Already signed")
    else Success tt
           (storeAt i (completed (set_witnessSignedCount
                                    (witnessSignedCount c + 1) c))
              (signWitness i a s))
           (CommitmentSigned i a "witness" (block_timestamp env)
            :: completionLog env i
                 (set_witnessSignedCount (witnessSignedCount c + 1) c)).
Proof.
  intros Hd s c a Hlen. pose proof (run_Inv s0 txs (deploy_Inv _ _ _ Hd)) as HI.
  fold s in HI. rewrite signAsWitness_eq by apply (inv_entered s HI).
  cbv zeta. fold c a. destruct (validId s i) eqn:Hv; [|done]. cbn [negb].
  destruct (Inv_wf s i HI Hv) as (_ & Hin & _ & Hn & _).
  fold c in Hin, Hn. rewrite Hin.
  destruct (isFrozen c); [done|].
  destruct (decide (a ∈ witnesses c)) as [Ha|Ha].
  2:{ by rewrite (bool_decide_eq_false_2 _ Ha). }
  rewrite (bool_decide_eq_true_2 _ Ha). cbn [negb].
  destruct (witnessSignedAt s i a) eqn:Hs; [done|].
  rewrite bool_decide_eq_true_2; [done|].
  pose proof (countSigned_lt _ _ _ Ha Hs). lia.
Qed.

Lemma signAsWitness_outcome_witness :
  deploy (from admin0) admin0 = Some deployed
  /\ signAsWitness (from witness1) 1 (run deployed scenarioB).1
     = Reverted (Revert "CommitmentChain: Already signed")
  /\ signAsWitness (from outsider0) 1 (run deployed scenarioB).1
     = Reverted (Revert "CommitmentChain: Not a designated witness").
Proof.
  assert (Hd : deploy (from admin0) admin0 = Some deployed)
    by (vm_compute; reflexivity).
  split; [exact Hd|]. split.
  - rewrite (signAsWitness_outcome (from admin0) admin0 deployed scenarioB
               (from witness1) 1 Hd).
    + vm_compute. reflexivity.
    + vm_compute. discriminate.
  - rewrite (signAsWitness_outcome (from admin0) admin0 deployed scenarioB
               (from outsider0) 1 Hd).
    + vm_compute. reflexivity.
    + vm_compute. discriminate.
Defined.

(** X7. A signature is given once: after the signer of a commitment has
    signed, every later [signAsSigner] on it reverts, and after a witness
    has signed, every later [signAsWitness] on it by that witness reverts,
    whatever transactions came in between. *)
Theorem no_second_signature env0 admin s0 txs1 txs2 env i :
  deploy env0 admin = Some s0 ->
  let s := (run s0 txs1).1 in
  let s' := (run s txs2).1 in
  (signerSigned (commitmentAt s i) = true ->
   exists e, signAsSigner env i s' = Reverted e)
  /\ (witnessSignedAt s i (msg_sender env) = true ->
      exists e, signAsWitness env i s' = Reverted e).
Proof.
  intros Hd s s'. pose proof (run_Inv s0 txs1 (deploy_Inv _ _ _ Hd)) as HI.
  fold s in HI. destruct (run_grows s txs2 i HI) as [(_ & Hs & _) Hw].
  fold s' in Hs, Hw. split.
  - intros Hsig. apply Hs in Hsig.
    destruct (signAsSigner env i s') as [u s'' evs|e] eqn:Hc; [|eauto].
    apply signAsSigner_Success in Hc as (_&_&_&_&_&Hn&_). congruence.
  - intros Hsig. apply Hw in Hsig.
    destruct (signAsWitness env i s') as [u s'' evs|e] eqn:Hc; [|eauto].
    apply signAsWitness_Success in Hc as (_&_&_&_&_&Hn&_). congruence.
Qed.

Lemma no_second_signature_witness :
  deploy (from admin0) admin0 = Some deployed
  /\ (exists e, signAsSigner (from signer0) 1
                  (run completedRegistry
                     [(from emergency0, FreezeCommitment 1);
                      (from emergency0, UnfreezeCommitment 1)]).1 = Reverted e).
Proof.
  assert (Hd : deploy (from admin0) admin0 = Some deployed)
    by (vm_compute; reflexivity).
  split; [exact Hd|].
  destruct (no_second_signature (from admin0) admin0 deployed completedTxs
              [(from emergency0, FreezeCommitment 1);
               (from emergency0, UnfreezeCommitment 1)] (from signer0) 1 Hd)
    as [H _].
  apply H. vm_compute. reflexivity.
Defined.

(** *** Outcome of creation *)

Lemma createCommitment_eq env h sg ws s :
  createCommitment env h sg ws s
  = if bool_decide (0 < String.length h)%nat then
      if bool_decide (sg ≠ 0) then
        if bool_decide (sg ≠ msg_sender env) then
          match witnessLoop sg ws s with
          | Reverted e => Reverted e
          | Success _ _ _ =>
              if bool_decide (_commitmentIdCounter s < MAX_UINT256) then
                let i := _commitmentIdCounter s + 1 in
                Success i
                  (storeAt i (newCommitment env i h sg ws)
                     (set_commitmentIdCounter i s))
                  [CommitmentCreated i (msg_sender env) sg h (block_timestamp env);
                   CommitmentSigned i (msg_sender env) "initiator"
                     (block_timestamp env)]
              else Reverted (Panic 17)
          end
        else Reverted (Revert "CommitmentChain: Signer cannot be initiator")
      else Reverted (Revert "CommitmentChain: Invalid signer address")
    else Reverted (Revert "CommitmentChain: File hash cannot be empty").
Proof.
  unfold createCommitment, checked_incr, updateCommitment. mnorm.
  destruct (bool_decide (0 < String.length h)%nat); [|done].
  destruct (bool_decide (sg ≠ 0)); [|done].
  destruct (bool_decide (sg ≠ msg_sender env)); [|done].
  destruct (witnessLoop_cases sg ws s) as [[Hok Hw]|[_ [e Hw]]].
  2:{ rewrite Hw. by erewrite bind_Reverted by exact Hw. }
  rewrite Hw. erewrite bind_Success by exact Hw. rewrite logged_nil. mnorm.
  destruct (bool_decide (_commitmentIdCounter s < MAX_UINT256)); [|done].
  mnorm. cbv zeta. set (i := _commitmentIdCounter s + 1).
  change (set_commitments _ ?st)
    with (storeAt i (newCommitment env i h sg ws) st).
  erewrite bind_Success by apply _checkCompletion_storeAt.
  rewrite ret_eq. reflexivity.
Qed.

Lemma duplicateLoop_Reverted w rest s e :
  duplicateLoop w rest s = Reverted e ->
  e = Revert "CommitmentChain: Duplicate witness address".
Proof.
  rewrite duplicateLoop_eq. case_bool_decide; [done|]. by intros [= <-].
Qed.

Lemma witnessLoop_Reverted sg ws s e :
  witnessLoop sg ws s = Reverted e ->
  e = Revert "CommitmentChain: Invalid witness address"
  \/ e = Revert "CommitmentChain: Witness cannot be signer"
  \/ e = Revert "CommitmentChain: Duplicate witness address".
Proof.
  induction ws as [|w rest IH]; cbn [witnessLoop]; intros H.
  - by rewrite ret_eq in H.
  - mnorm_in H.
    destruct (bool_decide (w ≠ 0)); [|simplify_eq; auto].
    destruct (bool_decide (w ≠ sg)); [|simplify_eq; auto].
    destruct (duplicateLoop w rest s) as [[] s1 e1|e1] eqn:Hd.
    + pose proof Hd as Hd'. rewrite duplicateLoop_eq in Hd'.
      case_bool_decide; [|done]. simplify_eq.
      erewrite bind_Success in H by exact Hd. rewrite logged_nil in H. auto.
    + erewrite bind_Reverted in H by exact Hd. simplify_eq.
      apply duplicateLoop_Reverted in Hd. auto.
Qed.

(** X8. [createCommitment] accepts exactly the inputs with a non-empty
    file hash, a signer that is neither zero nor the caller, and pairwise
    different witnesses that are neither zero nor the signer, as long as
    the id counter is below its maximum - for every caller and whether or
    not the registry is paused.  It then returns the counter plus one,
    stores the new record (initiator signed, nothing else) under that id
    and logs [CommitmentCreated] and [CommitmentSigned] for the initiator. *)
Theorem createCommitment_accepts_exactly env h sg ws s :
  let ok :=
    h ≠ EmptyString /\ sg ≠ 0 /\ sg ≠ msg_sender env
    /\ NoDup ws /\ (forall w, w ∈ ws -> w ≠ 0 /\ w ≠ sg)
    /\ _commitmentIdCounter s < MAX_UINT256 in
  let i := _commitmentIdCounter s + 1 in
  (ok ->
   createCommitment env h sg ws s
   = Success i
       (storeAt i (newCommitment env i h sg ws) (set_commitmentIdCounter i s))
       [CommitmentCreated i (msg_sender env) sg h (block_timestamp env);
        CommitmentSigned i (msg_sender env) "initiator" (block_timestamp env)])
  /\ (~ ok -> exists e, createCommitment env h sg ws s = Reverted e).
Proof.
  intros ok i. split.
  - intros (Hh & H0 & Hs & Hnd & Hall & Hmax).
    rewrite createCommitment_eq.
    rewrite (bool_decide_eq_true_2 (0 < String.length h)%nat).
    2:{ destruct h; [done|simpl; lia]. }
    rewrite !bool_decide_eq_true_2 by done.
    rewrite witnessLoop_ok; [done|]. split; [done|]. by apply Forall_forall.
  - intros Hnot.
    destruct (createCommitment env h sg ws s) as [j s' evs|e] eqn:Hc; [|eauto].
    exfalso. apply Hnot.
    apply createCommitment_Success in Hc as (Hh & H0 & Hs & [Hnd Hall] & Hmax & _).
    split. { intros ->. simpl in Hh. lia. }
    split; [done|]. split; [done|]. split; [done|]. split; [|done].
    by apply Forall_forall.
Qed.

Lemma createCommitment_accepts_exactly_witness :
  createCommitment (from outsider0) "0xcd" signer0 [witness1; outsider0]
    pausedRegistry
  = Success 1
      (storeAt 1 (newCommitment (from outsider0) 1 "0xcd" signer0
                    [witness1; outsider0])
         (set_commitmentIdCounter 1 pausedRegistry))
      [CommitmentCreated 1 outsider0 signer0 "0xcd" 1700000000;
       CommitmentSigned 1 outsider0 "initiator" 1700000000]
  /\ (exists e, createCommitment (from outsider0) "0xcd" outsider0 []
                  pausedRegistry = Reverted e).
Proof.
  split.
  - apply (createCommitment_accepts_exactly (from outsider0) "0xcd" signer0
             [witness1; outsider0] pausedRegistry).
    split; [done|]. split; [done|]. split; [done|].
    split; [apply (bool_decide_unpack (NoDup [witness1; outsider0])); vm_compute; exact I|].
    split; [|by vm_compute].
    intros w Hw. apply list_elem_of_In in Hw. simpl in Hw.
    destruct Hw as [<-|[<-|[]]]; done.
  - apply (createCommitment_accepts_exactly (from outsider0) "0xcd" outsider0
             [] pausedRegistry).
    intros (_ & _ & H & _). by apply H.
Defined.

(** X9. The failure [createCommitment] reports is that of the first check
    that fails, in the order: empty file hash, zero signer, signer equal to
    the caller, then the witness list (zero witness, witness equal to the
    signer, or repeated witness), and last the overflow of the id counter
    (panic 0x11). *)
Theorem createCommitment_error_order env h sg ws s :
  (h = EmptyString ->
   createCommitment env h sg ws s
   = Reverted (Revert "CommitmentChain: File hash cannot be empty"))
  /\ (h ≠ EmptyString -> sg = 0 ->
      createCommitment env h sg ws s
      = Reverted (Revert "CommitmentChain: Invalid signer address"))
  /\ (h ≠ EmptyString -> sg ≠ 0 -> sg = msg_sender env ->
      createCommitment env h sg ws s
      = Reverted (Revert "CommitmentChain: Signer cannot be initiator"))
  /\ (h ≠ EmptyString -> sg ≠ 0 -> sg ≠ msg_sender env ->
      ~ witnessesOk sg ws ->
      createCommitment env h sg ws s
      = Reverted (Revert "CommitmentChain: Invalid witness address")
      \/ createCommitment env h sg ws s
         = Reverted (Revert "CommitmentChain: Witness cannot be signer")
      \/ createCommitment env h sg ws s
         = Reverted (Revert "CommitmentChain: Duplicate witness address"))
  /\ (h ≠ EmptyString -> sg ≠ 0 -> sg ≠ msg_sender env ->
      witnessesOk sg ws -> _commitmentIdCounter s = MAX_UINT256 ->
      createCommitment env h sg ws s = Reverted (Panic 17)).
Proof.
  assert (Hlen : h ≠ EmptyString -> (0 < String.length h)%nat).
  { destruct h; [done|simpl; lia]. }
  rewrite createCommitment_eq. repeat split.
  - by intros ->.
  - intros Hh ->. rewrite (bool_decide_eq_true_2 _ (Hlen Hh)).
    by rewrite bool_decide_eq_false_2 by tauto.
  - intros Hh H0 Hs. rewrite (bool_decide_eq_true_2 _ (Hlen Hh)).
    rewrite (bool_decide_eq_true_2 _ H0).
    by rewrite bool_decide_eq_false_2 by tauto.
  - intros Hh H0 Hs Hnok. rewrite (bool_decide_eq_true_2 _ (Hlen Hh)).
    rewrite (bool_decide_eq_true_2 _ H0), (bool_decide_eq_true_2 _ Hs).
    destruct (witnessLoop_cases sg ws s) as [[Hok _]|[_ [e Hw]]]; [done|].
    rewrite Hw. apply witnessLoop_Reverted in Hw as [-> | [-> | ->]]; auto.
  - intros Hh H0 Hs Hok Hmax. rewrite (bool_decide_eq_true_2 _ (Hlen Hh)).
    rewrite (bool_decide_eq_true_2 _ H0), (bool_decide_eq_true_2 _ Hs).
    rewrite witnessLoop_ok by done.
    rewrite bool_decide_eq_false_2; [done|]. lia.
Qed.

Lemma createCommitment_error_order_witness :
  createCommitment (from police0) EmptyString 0 [0] deployed
  = Reverted (Revert "CommitmentChain: File hash cannot be empty")
  /\ createCommitment (from police0) "0xab" 0 [0] deployed
     = Reverted (Revert "CommitmentChain: Invalid signer address")
  /\ createCommitment (from police0) "0xab" police0 [0] deployed
     = Reverted (Revert "CommitmentChain: Signer cannot be initiator")
  /\ createCommitment (from police0) "0xab" signer0 []
       (set_commitmentIdCounter MAX_UINT256 deployed)
     = Reverted (Panic 17).
Proof.
  destruct (createCommitment_error_order (from police0) EmptyString 0 [0] deployed)
    as (H1 & _).
  destruct (createCommitment_error_order (from police0) "0xab" 0 [0] deployed)
    as (_ & H2 & _).
  destruct (createCommitment_error_order (from police0) "0xab" police0 [0] deployed)
    as (_ & _ & H3 & _).
  destruct (createCommitment_error_order (from police0) "0xab" signer0 []
              (set_commitmentIdCounter MAX_UINT256 deployed))
    as (_ & _ & _ & _ & H5).
  split; [by apply H1|]. split; [by apply H2|]. split; [by apply H3|].
  apply H5; try done. split; constructor.
Defined.

(** *** Who changes what *)

Lemma dispatch_effectOf env op s r s' evs :
  _initialized s = true -> _entered s = false ->
  dispatch env op s = Success r s' evs -> effectOf env op s s'.
Proof.
  intros Hi He H.
  destruct (isRegistryOp op) eqn:Hop.
  2:{ apply admin_dispatch_Success in H as (_ & ? & _); [|done..].
      by destruct op. }
  destruct op; try discriminate Hop; cbn [dispatch] in H; bind_inv H Hc;
    cbn [effectOf].
  - by apply createCommitment_Success in Hc as (_&_&_&_&_&->&->&_).
  - by apply signAsSigner_Success in Hc as (_&_&?&_&?&_&_&->&_).
  - by apply signAsWitness_Success in Hc as (_&?&_&_&?&_&_&->&_).
  - rewrite freezeCommitment_eq in Hc. mcase Hc. mcase Hc. by simplify_eq.
  - rewrite unfreezeCommitment_eq in Hc. mcase Hc. mcase Hc. by simplify_eq.
  - rewrite verifyCommitment_eq in Hc. mcase Hc. mcase Hc. mcase Hc. by simplify_eq.
Qed.

Lemma transact_effectOf s env op :
  Inv s ->
  (transact s (env, op)).1 = s \/ effectOf env op s (transact s (env, op)).1.
Proof.
  intros HI. unfold transact. cbn [fst snd].
  destruct (dispatch env op s) as [r s' evs|e] eqn:Hd; [right|by left].
  eapply dispatch_effectOf; [apply (inv_initialized s HI)
                            |apply (inv_entered s HI)|done].
Qed.

Lemma signerSigned_completed c : signerSigned (completed c) = signerSigned c.
Proof. unfold completed. by destruct (allSigned c). Qed.

Lemma isFrozen_completed c : isFrozen (completed c) = isFrozen c.
Proof. unfold completed. by destruct (allSigned c). Qed.

Lemma isVerified_completed c : isVerified (completed c) = isVerified c.
Proof. unfold completed. by destruct (allSigned c). Qed.

Lemma commitmentAt_fresh s :
  Inv s -> commitmentAt s (_commitmentIdCounter s + 1) = zeroCommitment.
Proof.
  intros HI. apply commitmentAt_invalid; [done|].
  apply not_true_is_false. rewrite validId_spec. lia.
Qed.

Lemma witnessSignedAt_fresh s a :
  Inv s -> witnessSignedAt s (_commitmentIdCounter s + 1) a = false.
Proof.
  intros HI. apply not_true_is_false. intros Ha.
  apply (inv_signed s HI) in Ha. apply validId_spec in Ha. lia.
Qed.

(** X10. Signatures are given by their owners only: a transaction that
    sets [signerSigned] of a commitment is a [signAsSigner] on it sent by its
    designated signer, and a transaction that sets the signed flag of an
    address is a [signAsWitness] on that commitment sent by that address,
    which is one of its listed witnesses. *)
Theorem signatures_only_by_owner env0 admin s0 txs env op i :
  deploy env0 admin = Some s0 ->
  let s := (run s0 txs).1 in
  let s' := (transact s (env, op)).1 in
  (signerSigned (commitmentAt s i) = false ->
   signerSigned (commitmentAt s' i) = true ->
   op = SignAsSigner i /\ msg_sender env = signer (commitmentAt s i))
  /\ (forall a,
        witnessSignedAt s i a = false -> witnessSignedAt s' i a = true ->
        op = SignAsWitness i /\ msg_sender env = a
        /\ a ∈ witnesses (commitmentAt s i)).
Proof.
  intros Hd s s'. pose proof (run_Inv s0 txs (deploy_Inv _ _ _ Hd)) as HI.
  fold s in HI. destruct (transact_effectOf s env op HI) as [Hs|He]; fold s' in Hs || fold s' in He.
  { rewrite Hs. split; [congruence|]. intros a. congruence. }
  destruct op; cbn [effectOf] in He;
    try (destruct He as (_ & _ & _ & Hm & Hw);
         unfold commitmentAt, witnessSignedAt; rewrite Hm, Hw;
         split; [congruence|intros a; congruence]).
  - (* createCommitment *)
    rewrite He. split.
    + destruct (decide (_commitmentIdCounter s + 1 = i)) as [<-|Hne].
      * rewrite commitmentAt_storeAt. done.
      * rewrite commitmentAt_storeAt_ne by done.
        change (commitmentAt (set_commitmentIdCounter _ s) i)
          with (commitmentAt s i). congruence.
    + intros a. change (witnessSignedAt (storeAt _ _ ?st) i a)
        with (witnessSignedAt s i a). congruence.
  - (* signAsSigner *)
    destruct He as (Hv & Hsg & ->). split.
    + destruct (decide (_commitmentId = i)) as [->|Hne]; [done|].
      rewrite commitmentAt_storeAt_ne by done. congruence.
    + intros a. change (witnessSignedAt (storeAt _ _ ?st) i a)
        with (witnessSignedAt st i a). congruence.
  - (* signAsWitness *)
    destruct He as (Hv & Hin & ->). split.
    + destruct (decide (_commitmentId = i)) as [->|Hne].
      * rewrite commitmentAt_storeAt, signerSigned_completed. simpl. congruence.
      * rewrite commitmentAt_storeAt_ne by done.
        change (commitmentAt (signWitness _ _ s) i) with (commitmentAt s i).
        congruence.
    + intros a. change (witnessSignedAt (storeAt _ _ ?st) i a)
        with (witnessSignedAt st i a).
      rewrite witnessSignedAt_signWitness. case_bool_decide as Hk; [|congruence].
      simplify_eq. done.
  - destruct He as (Hv & ->). split.
    + destruct (decide (_commitmentId = i)) as [->|Hne].
      * rewrite commitmentAt_storeAt. simpl. congruence.
      * rewrite commitmentAt_storeAt_ne by done. congruence.
    + intros a. change (witnessSignedAt (storeAt _ _ ?st) i a)
        with (witnessSignedAt st i a). congruence.
  - destruct He as (Hv & ->). split.
    + destruct (decide (_commitmentId = i)) as [->|Hne].
      * rewrite commitmentAt_storeAt. simpl. congruence.
      * rewrite commitmentAt_storeAt_ne by done. congruence.
    + intros a. change (witnessSignedAt (storeAt _ _ ?st) i a)
        with (witnessSignedAt st i a). congruence.
  - destruct He as (Hv & ->). split.
    + destruct (decide (_commitmentId = i)) as [->|Hne].
      * rewrite commitmentAt_storeAt. simpl. congruence.
      * rewrite commitmentAt_storeAt_ne by done. congruence.
    + intros a. change (witnessSignedAt (storeAt _ _ ?st) i a)
        with (witnessSignedAt st i a). congruence.
Qed.

Lemma signatures_only_by_owner_witness :
  deploy (from admin0) admin0 = Some deployed
  /\ signer0 = signer (commitmentAt
                         (run deployed
                            (setupTxs ++ [(from police0,
                                           CreateCommitment "0xab" signer0 [])])).1 1).
Proof.
  assert (Hd : deploy (from admin0) admin0 = Some deployed)
    by (vm_compute; reflexivity).
  split; [exact Hd|].
  destruct (signatures_only_by_owner (from admin0) admin0 deployed
              (setupTxs ++ [(from police0, CreateCommitment "0xab" signer0 [])])
              (from signer0) (SignAsSigner 1) 1 Hd) as [H _].
  apply H; vm_compute; reflexivity.
Defined.

(** X11. The other fields change through their own entry points only: a
    transaction that changes [isFrozen] of a commitment is a
    [freezeCommitment] or [unfreezeCommitment] on it, one that sets
    [isVerified] is a [verifyCommitment] on it, one that sets [isCompleted]
    is a [signAsSigner] or [signAsWitness] on it, and one that changes the
    id counter is a [createCommitment], which adds one to it. *)
Theorem status_changes_by_entry_point env0 admin s0 txs env op i :
  deploy env0 admin = Some s0 ->
  let s := (run s0 txs).1 in
  let s' := (transact s (env, op)).1 in
  (isFrozen (commitmentAt s' i) ≠ isFrozen (commitmentAt s i) ->
   op = FreezeCommitment i \/ op = UnfreezeCommitment i)
  /\ (isVerified (commitmentAt s i) = false ->
      isVerified (commitmentAt s' i) = true -> op = VerifyCommitment i)
  /\ (isCompleted (commitmentAt s i) = false ->
      isCompleted (commitmentAt s' i) = true ->
      op = SignAsSigner i \/ op = SignAsWitness i)
  /\ (_commitmentIdCounter s' ≠ _commitmentIdCounter s ->
      _commitmentIdCounter s' = _commitmentIdCounter s + 1
      /\ exists h sg ws, op = CreateCommitment h sg ws).
Proof.
  intros Hd s s'. pose proof (run_Inv s0 txs (deploy_Inv _ _ _ Hd)) as HI.
  fold s in HI.
  destruct (transact_effectOf s env op HI) as [Hs|He];
    fold s' in Hs || fold s' in He.
  { rewrite Hs. repeat split; congruence. }
  destruct op; cbn [effectOf] in He;
    try (destruct He as (_ & _ & Hn & Hm & _);
         unfold commitmentAt; rewrite Hm, Hn; repeat split; congruence).
  - (* createCommitment *)
    rewrite He. change (_commitmentIdCounter (storeAt _ _ (set_commitmentIdCounter ?n _)))
      with n.
    destruct (decide (_commitmentIdCounter s + 1 = i)) as [<-|Hne].
    + rewrite commitmentAt_storeAt, commitmentAt_fresh by done. simpl.
      repeat split; try congruence. eauto.
    + rewrite commitmentAt_storeAt_ne by done.
      change (commitmentAt (set_commitmentIdCounter _ s) i)
        with (commitmentAt s i).
      repeat split; try congruence. eauto.
  - destruct He as (Hv & _ & ->).
    change (_commitmentIdCounter (storeAt _ _ s)) with (_commitmentIdCounter s).
    destruct (decide (_commitmentId = i)) as [->|Hne].
    + rewrite commitmentAt_storeAt, isFrozen_completed, isVerified_completed.
      simpl. repeat split; try congruence. auto.
    + rewrite commitmentAt_storeAt_ne by done. repeat split; congruence.
  - destruct He as (Hv & _ & ->).
    change (_commitmentIdCounter (storeAt _ _ (signWitness _ _ s)))
      with (_commitmentIdCounter s).
    destruct (decide (_commitmentId = i)) as [->|Hne].
    + rewrite commitmentAt_storeAt, isFrozen_completed, isVerified_completed.
      simpl. repeat split; try congruence. auto.
    + rewrite commitmentAt_storeAt_ne by done.
      change (commitmentAt (signWitness _ _ s) i) with (commitmentAt s i).
      repeat split; congruence.
  - destruct He as (Hv & ->).
    change (_commitmentIdCounter (storeAt _ _ s)) with (_commitmentIdCounter s).
    destruct (decide (_commitmentId = i)) as [->|Hne].
    + rewrite commitmentAt_storeAt. simpl. repeat split; try congruence. auto.
    + rewrite commitmentAt_storeAt_ne by done. repeat split; congruence.
  - destruct He as (Hv & ->).
    change (_commitmentIdCounter (storeAt _ _ s)) with (_commitmentIdCounter s).
    destruct (decide (_commitmentId = i)) as [->|Hne].
    + rewrite commitmentAt_storeAt. simpl. repeat split; try congruence. auto.
    + rewrite commitmentAt_storeAt_ne by done. repeat split; congruence.
  - destruct He as (Hv & ->).
    change (_commitmentIdCounter (storeAt _ _ s)) with (_commitmentIdCounter s).
    destruct (decide (_commitmentId = i)) as [->|Hne].
    + rewrite commitmentAt_storeAt. simpl. repeat split; try congruence.
    + rewrite commitmentAt_storeAt_ne by done. repeat split; congruence.
Qed.

Lemma status_changes_by_entry_point_witness :
  deploy (from admin0) admin0 = Some deployed
  /\ (FreezeCommitment 1 = FreezeCommitment 1
      \/ FreezeCommitment 1 = UnfreezeCommitment 1).
Proof.
  assert (Hd : deploy (from admin0) admin0 = Some deployed)
    by (vm_compute; reflexivity).
  split; [exact Hd|].
  destruct (status_changes_by_entry_point (from admin0) admin0 deployed
              completedTxs (from emergency0) (FreezeCommitment 1) 1 Hd)
    as [H _].
  apply H. vm_compute. discriminate.
Defined.

(** *** Freezing and unfreezing undo each other *)

Lemma transact_Success s env op r s' evs :
  dispatch env op s = Success r s' evs ->
  transact s (env, op) = (s', mkReceipt (inr r) evs).
Proof. unfold transact. simpl. by intros ->. Qed.

Lemma transact_freeze s env i :
  validId s i = true -> isFrozen (commitmentAt s i) = false ->
  (transact s (env, FreezeCommitment i)).1
  = storeAt i (set_isFrozen true (commitmentAt s i)) s.
Proof.
  intros Hv Hf. erewrite transact_Success; [done|]. cbn [dispatch].
  erewrite bind_Success by (by rewrite freezeCommitment_eq, Hv, Hf).
  by rewrite ret_eq.
Qed.

Lemma transact_unfreeze s env i :
  validId s i = true -> isFrozen (commitmentAt s i) = true ->
  (transact s (env, UnfreezeCommitment i)).1
  = storeAt i (set_isFrozen false (commitmentAt s i)) s.
Proof.
  intros Hv Hf. erewrite transact_Success; [done|]. cbn [dispatch].
  erewrite bind_Success by (by rewrite unfreezeCommitment_eq, Hv, Hf).
  by rewrite ret_eq.
Qed.

Lemma storeAt_id s i c : commitments s !! i = Some c -> storeAt i c s = s.
Proof.
  intros Hc. unfold storeAt. rewrite insert_id by done. by destruct s.
Qed.

(** X12. On an existing commitment, freezing and then unfreezing (or, when
    it is frozen, unfreezing and then freezing) gives back exactly the
    storage there was before, whoever sends the two transactions. *)
Theorem freeze_unfreeze_roundtrip env0 admin s0 txs e1 e2 i :
  deploy env0 admin = Some s0 ->
  let s := (run s0 txs).1 in
  validId s i = true ->
  (isFrozen (commitmentAt s i) = false ->
   (run s [(e1, FreezeCommitment i); (e2, UnfreezeCommitment i)]).1 = s)
  /\ (isFrozen (commitmentAt s i) = true ->
      (run s [(e1, UnfreezeCommitment i); (e2, FreezeCommitment i)]).1 = s).
Proof.
  intros Hd s Hv. pose proof (run_Inv s0 txs (deploy_Inv _ _ _ Hd)) as HI.
  fold s in HI. pose proof (Inv_lookup s i HI Hv) as Hc.
  split; intros Hf; rewrite !run_cons; cbn [run fst].
  - rewrite (transact_freeze s e1 i Hv Hf).
    rewrite transact_unfreeze; [|done|by rewrite commitmentAt_storeAt].
    rewrite commitmentAt_storeAt, storeAt_storeAt. apply storeAt_id.
    rewrite Hc. f_equal. destruct (commitmentAt s i); simpl in *; by subst.
  - rewrite (transact_unfreeze s e1 i Hv Hf).
    rewrite transact_freeze; [|done|by rewrite commitmentAt_storeAt].
    rewrite commitmentAt_storeAt, storeAt_storeAt. apply storeAt_id.
    rewrite Hc. f_equal. destruct (commitmentAt s i); simpl in *; by subst.
Qed.

Lemma freeze_unfreeze_roundtrip_witness :
  deploy (from admin0) admin0 = Some deployed
  /\ (run completedRegistry [(from emergency0, FreezeCommitment 1);
                             (from outsider0, UnfreezeCommitment 1)]).1
     = completedRegistry.
Proof.
  assert (Hd : deploy (from admin0) admin0 = Some deployed)
    by (vm_compute; reflexivity).
  split; [exact Hd|].
  destruct (freeze_unfreeze_roundtrip (from admin0) admin0 deployed completedTxs
              (from emergency0) (from outsider0) 1 Hd) as [H _].
  - vm_compute. reflexivity.
  - apply H. vm_compute. reflexivity.
Defined.

(** *** Frame *)

(** X13. A transaction changes no existing commitment other than the one
    it names: the record and the witness flags of every other existing
    commitment are as before.  A [createCommitment] thus leaves all
    existing commitments alone, and so does role and pause administration. *)
Theorem other_commitments_untouched env0 admin s0 txs env op j :
  deploy env0 admin = Some s0 ->
  let s := (run s0 txs).1 in
  let s' := (transact s (env, op)).1 in
  validId s j = true -> targetOf op ≠ Some j ->
  commitments s' !! j = commitments s !! j
  /\ (forall a, witnessSignedAt s' j a = witnessSignedAt s j a).
Proof.
  intros Hd s s' Hv Ht. pose proof (run_Inv s0 txs (deploy_Inv _ _ _ Hd)) as HI.
  fold s in HI.
  destruct (transact_effectOf s env op HI) as [Hs|He];
    fold s' in Hs || fold s' in He.
  { by rewrite Hs. }
  assert (Hstore : forall i c st,
            i ≠ j -> commitments (storeAt i c st) !! j = commitments st !! j).
  { intros i c st Hne. unfold storeAt. simpl. by rewrite lookup_insert_ne. }
  destruct op; cbn [effectOf targetOf] in He, Ht;
    try (destruct He as (_ & _ & _ & Hm & Hw);
         unfold witnessSignedAt; by rewrite Hm, Hw).
  - rewrite He. split; [|done]. rewrite Hstore; [done|].
    apply validId_spec in Hv. lia.
  - destruct He as (_ & _ & ->). split; [|done]. apply Hstore. congruence.
  - destruct He as (_ & _ & ->). split; [by rewrite Hstore by congruence|].
    intros a. change (witnessSignedAt (storeAt _ _ ?st) j a)
      with (witnessSignedAt st j a).
    rewrite witnessSignedAt_signWitness.
    rewrite bool_decide_eq_false_2; [done|]. congruence.
  - destruct He as (_ & ->). split; [|done]. apply Hstore. congruence.
  - destruct He as (_ & ->). split; [|done]. apply Hstore. congruence.
  - destruct He as (_ & ->). split; [|done]. apply Hstore. congruence.
Qed.

Lemma other_commitments_untouched_witness :
  deploy (from admin0) admin0 = Some deployed
  /\ commitments (transact (run deployed scenarioB).1
                    (from emergency0, FreezeCommitment 2)).1 !! 1
     = commitments (run deployed scenarioB).1 !! 1.
Proof.
  assert (Hd : deploy (from admin0) admin0 = Some deployed)
    by (vm_compute; reflexivity).
  split; [exact Hd|].
  destruct (other_commitments_untouched (from admin0) admin0 deployed scenarioB
              (from emergency0) (FreezeCommitment 2) 1 Hd) as [H _].
  - vm_compute. reflexivity.
  - simpl. discriminate.
  - exact H.
Defined.

(** *** Views *)

Lemma getRole_eq i a s :
  getRole i a s
  = if validId s i then Success (roleName (commitmentAt s i) a) s []
    else Reverted invalidId.
Proof.
  unfold getRole. rewrite validCommitmentId_eq.
  destruct (validId s i); [|done]. mnorm. unfold roleName.
  destruct (bool_decide (a = initiator (commitmentAt s i))); [done|].
  destruct (bool_decide (a = signer (commitmentAt s i))); [done|].
  erewrite bind_Success by apply _isWitness_eq. rewrite logged_nil. mnorm.
  by destruct (bool_decide (a ∈ witnesses (commitmentAt s i))).
Qed.

(** X14. For an existing commitment [getRole] changes nothing and answers
    [initiator] exactly for the initiator, [signer] exactly for the signer,
    [witness] exactly for a listed witness other than the initiator, and
    [none] exactly for an address that is none of these; an address
    answered [none] cannot sign the commitment in either way. *)
Theorem getRole_meaning env0 admin s0 txs env i :
  deploy env0 admin = Some s0 ->
  let s := (run s0 txs).1 in
  let c := commitmentAt s i in
  let a := msg_sender env in
  validId s i = true ->
  exists r,
    getRole i a s = Success r s []
    /\ (r = "initiator" <-> a = initiator c)
    /\ (r = "signer" <-> a = signer c)
    /\ (r = "witness" <-> a ∈ witnesses c /\ a ≠ initiator c)
    /\ (r = "none" <-> a ≠ initiator c /\ a ≠ signer c /\ a ∉ witnesses c)
    /\ (r = "none" ->
        (exists e, signAsSigner env i s = Reverted e)
        /\ (exists e, signAsWitness env i s = Reverted e)).
Proof.
  intros Hd s c a Hv. pose proof (deploy_Inv _ _ _ Hd) as HI0.
  pose proof (run_Inv s0 txs HI0) as HI.
  pose proof (run_Inv2 s0 txs HI0 (deploy_Inv2 _ _ _ Hd)) as HJ.
  fold s in HI, HJ.
  destruct (HJ i _ (Inv_lookup s i HI Hv)) as [(_ & _ & Hsi & _ & Hall) _].
  fold c in Hsi, Hall. rewrite Forall_forall in Hall.
  exists (roleName c a). rewrite getRole_eq, Hv. fold c. split; [done|].
  assert (Hrev : a ≠ signer c -> a ∉ witnesses c ->
                 (exists e, signAsSigner env i s = Reverted e)
                 /\ (exists e, signAsWitness env i s = Reverted e)).
  { intros Hs Hw. split.
    - destruct (signAsSigner env i s) as [u s'' evs|e] eqn:Hc; [|eauto].
      apply signAsSigner_Success in Hc as (_&_&_&_&Hx&_). done.
    - destruct (signAsWitness env i s) as [u s'' evs|e] eqn:Hc; [|eauto].
      apply signAsWitness_Success in Hc as (_&_&_&_&Hx&_). done. }
  unfold roleName.
  destruct (decide (a = initiator c)) as [Hi|Hi];
    [rewrite (bool_decide_eq_true_2 _ Hi)
    |rewrite (bool_decide_eq_false_2 _ Hi);
     destruct (decide (a = signer c)) as [Hs|Hs];
       [rewrite (bool_decide_eq_true_2 _ Hs)
       |rewrite (bool_decide_eq_false_2 _ Hs);
        destruct (decide (a ∈ witnesses c)) as [Hw|Hw];
          [rewrite (bool_decide_eq_true_2 _ Hw)
          |rewrite (bool_decide_eq_false_2 _ Hw)]]].
  all: repeat (split; [split; intros; destruct_and?; try discriminate;
                       try done; try congruence; try tauto|]).
  all: try (match goal with Hx : _ ∈ witnesses _ |- _ =>
              destruct (Hall _ Hx); done end).
  all: try discriminate.
  intros _. by apply Hrev.
Qed.

Lemma getRole_meaning_witness :
  deploy (from admin0) admin0 = Some deployed
  /\ exists r, getRole 1 outsider0 completedRegistry
               = Success r completedRegistry []
               /\ (r = "none" ->
                   (exists e, signAsSigner (from outsider0) 1 completedRegistry
                              = Reverted e)
                   /\ (exists e, signAsWitness (from outsider0) 1 completedRegistry
                                 = Reverted e)).
Proof.
  assert (Hd : deploy (from admin0) admin0 = Some deployed)
    by (vm_compute; reflexivity).
  split; [exact Hd|].
  destruct (getRole_meaning (from admin0) admin0 deployed completedTxs
              (from outsider0) 1 Hd) as (r & Hr & _ & _ & _ & _ & Hn).
  { vm_compute. reflexivity. }
  exists r. split; [exact Hr|exact Hn].
Defined.

(** *** Initialisation *)

Lemma deploy_zero env : deploy env 0 = None.
Proof.
  unfold deploy, initialize, initializer. mnorm.
  change (_initialized genesis) with false. cbv iota.
  by rewrite (bool_decide_eq_false_2 (0 ≠ 0)) by tauto.
Qed.

Lemma deploy_nonzero env admin :
  admin ≠ 0 ->
  deploy env admin
  = Some (mkState true (<[(DEFAULT_ADMIN_ROLE, admin) := true]> ∅)
            false false 0 ∅ ∅).
Proof.
  intros Hne. unfold deploy, initialize, initializer, _grantRole. mnorm.
  change (_initialized genesis) with false. cbv iota.
  rewrite (bool_decide_eq_true_2 _ Hne). mnorm. reflexivity.
Qed.

Lemma hasRole_deployed admin r a :
  hasRole (mkState true (<[(DEFAULT_ADMIN_ROLE, admin) := true]> ∅)
             false false 0 ∅ ∅) r a = true
  <-> r = DEFAULT_ADMIN_ROLE /\ a = admin.
Proof.
  unfold hasRole. cbn [_roles].
  destruct (decide ((DEFAULT_ADMIN_ROLE, admin) = (r, a))) as [Heq|Hk].
  - rewrite <- Heq, lookup_insert_eq. injection Heq as <- <-. done.
  - rewrite lookup_insert_ne by done. rewrite lookup_empty. cbn [default].
    split; [done|]. intros [-> ->]. done.
Qed.

(** X15. [initialize] runs once.  Deployment fails for the zero admin
    address; otherwise it leaves an unpaused registry without commitments
    in which the admin holds [DEFAULT_ADMIN_ROLE] and nobody holds any
    other role.  In every state reached from there a further [initialize]
    reverts with [InvalidInitialization] and changes nothing. *)
Theorem initialize_once env0 admin :
  deploy env0 0 = None
  /\ (admin ≠ 0 ->
      exists s0,
        deploy env0 admin = Some s0
        /\ _commitmentIdCounter s0 = 0 /\ _paused s0 = false
        /\ commitments s0 = ∅ /\ witnessSigned s0 = ∅
        /\ (forall r a, hasRole s0 r a = true
                        <-> r = DEFAULT_ADMIN_ROLE /\ a = admin)
        /\ forall txs env admin',
             initialize env admin' (run s0 txs).1
             = Reverted InvalidInitialization
             /\ transact (run s0 txs).1 (env, Initialize admin')
                = ((run s0 txs).1, mkReceipt (inl InvalidInitialization) [])).
Proof.
  split; [apply deploy_zero|]. intros Hne.
  pose proof (deploy_nonzero env0 admin Hne) as Hd.
  eexists. split; [exact Hd|].
  split; [done|]. split; [done|]. split; [done|]. split; [done|].
  split; [apply hasRole_deployed|].
  intros txs env admin'.
  pose proof (inv_initialized _ (run_Inv _ txs (deploy_Inv _ _ _ Hd))) as Hini.
  pose proof (initialize_initialized env admin' _ Hini) as Hi.
  split; [exact Hi|].
  apply transact_Reverted. cbn [dispatch]. by apply bind_Reverted.
Qed.

Lemma initialize_once_witness :
  exists s0,
    deploy (from admin0) admin0 = Some s0
    /\ hasRole s0 POLICE_ROLE admin0 = false
    /\ initialize (from outsider0) outsider0 (run s0 scenarioB).1
       = Reverted InvalidInitialization.
Proof.
  destruct (initialize_once (from admin0) admin0) as [_ H].
  destruct H as (s0 & Hd & _ & _ & _ & _ & Hr & Hi); [done|].
  exists s0. split; [exact Hd|]. split.
  - destruct (hasRole s0 POLICE_ROLE admin0) eqn:Hp; [|done].
    apply Hr in Hp as [Hp _]. discriminate Hp.
  - apply (Hi scenarioB (from outsider0) outsider0).
Defined.

(** *** Pausing *)





(** *** What the registry entry points do not look at *)

Lemma bind_ret_map {A B} (m : M A) (g : A -> B) s :
  bind m (fun a => ret (g a)) s
  = match m s with
    | Success a s' evs => Success (g a) s' evs
    | Reverted e => Reverted e
    end.
Proof.
  destruct (m s) as [a s' evs|e] eqn:Hm.
  - erewrite bind_Success by exact Hm. rewrite ret_eq. cbn [logged].
    by rewrite app_nil_r.
  - by erewrite bind_Reverted by exact Hm.
Qed.

Lemma witnessLoop_state sg ws s s' :
  witnessLoop sg ws s'
  = match witnessLoop sg ws s with
    | Success _ _ _ => Success tt s' []
    | Reverted e => Reverted e
    end.
Proof.
  induction ws as [|w rest IH]; cbn [witnessLoop].
  - by rewrite !ret_eq.
  - mnorm. destruct (bool_decide (w ≠ 0)); [|done].
    destruct (bool_decide (w ≠ sg)); [|done].
    destruct (decide (w ∈ rest)) as [Hin|Hin].
    + rewrite !(bind_Reverted _ _ _ (Revert "CommitmentChain: Duplicate witness address"));
        [done|..]; rewrite duplicateLoop_eq; by rewrite bool_decide_eq_false_2 by tauto.
    + rewrite (bind_Success _ _ s' tt s' []), (bind_Success _ _ s tt s []);
        [|rewrite duplicateLoop_eq; by rewrite bool_decide_eq_true_2..].
      by rewrite !logged_nil.
Qed.

Section Commute.

Variable f : State -> State.

Hypothesis f_entered : forall s, _entered (f s) = _entered s.
Hypothesis f_counter : forall s, _commitmentIdCounter (f s) = _commitmentIdCounter s.
Hypothesis f_commitments : forall s, commitments (f s) = commitments s.
Hypothesis f_witnessSigned : forall s, witnessSigned (f s) = witnessSigned s.
Hypothesis f_storeAt : forall i c s, f (storeAt i c s) = storeAt i c (f s).
Hypothesis f_signWitness : forall i a s, f (signWitness i a s) = signWitness i a (f s).
Hypothesis f_set_counter :
  forall n s, f (set_commitmentIdCounter n s) = set_commitmentIdCounter n (f s).

Lemma f_commitmentAt s i : commitmentAt (f s) i = commitmentAt s i.
Proof. unfold commitmentAt. by rewrite f_commitments. Qed.

Lemma f_witnessSignedAt s i a : witnessSignedAt (f s) i a = witnessSignedAt s i a.
Proof. unfold witnessSignedAt. by rewrite f_witnessSigned. Qed.

Lemma f_validId s i : validId (f s) i = validId s i.
Proof. unfold validId. by rewrite f_counter. Qed.

Lemma dispatch_commute env op s :
  isRegistryOp op = true -> _entered s = false ->
  ((forall i, op ≠ SignAsSigner i) \/ _paused (f s) = _paused s) ->
  dispatch env op (f s) = onState f (dispatch env op s).
Proof.
  intros Hop He Hp. pose proof (f_entered s) as He'. rewrite He in He'.
  destruct op; try discriminate Hop; cbn [dispatch]; rewrite !bind_ret_map.
  - rewrite !createCommitment_eq, f_counter.
    rewrite (witnessLoop_state _ _ s (f s)).
    repeat (case_bool_decide; [|done]).
    destruct (witnessLoop _ _ s); [|done].
    case_bool_decide; [|done]. cbv zeta. cbn [onState].
    by rewrite f_storeAt, f_set_counter.
  - destruct Hp as [Hp|Hp]; [by destruct (Hp _commitmentId)|].
    rewrite !signAsSigner_eq by done. cbv zeta.
    rewrite Hp, f_validId, f_commitmentAt.
    destruct (_paused s); [done|]. destruct (validId s _); [|done].
    destruct (isFrozen _); [done|]. case_bool_decide; [|done].
    destruct (signerSigned _); [done|]. destruct (initiatorSigned _); [|done].
    cbn [onState]. by rewrite f_storeAt.
  - rewrite !signAsWitness_eq by done. cbv zeta.
    rewrite f_validId, f_commitmentAt, f_witnessSignedAt.
    destruct (validId s _); [|done].
    destruct (isFrozen _); [done|]. destruct (initiatorSigned _); [|done].
    case_bool_decide; [|done]. destruct (witnessSignedAt _ _ _); [done|].
    case_bool_decide; [|done].
    cbn [onState]. by rewrite f_storeAt, f_signWitness.
  - rewrite !freezeCommitment_eq, f_validId, f_commitmentAt.
    destruct (validId s _); [|done]. destruct (isFrozen _); [done|].
    cbn [onState]. by rewrite f_storeAt.
  - rewrite !unfreezeCommitment_eq, f_validId, f_commitmentAt.
    destruct (validId s _); [|done]. destruct (isFrozen _); [|done].
    cbn [onState]. by rewrite f_storeAt.
  - rewrite !verifyCommitment_eq, f_validId, f_commitmentAt.
    destruct (validId s _); [|done]. destruct (isVerified _); [done|].
    destruct (isCompleted _); [|done].
    cbn [onState]. by rewrite f_storeAt.
Qed.

End Commute.

(** X17. No registry entry point looks at the role assignments, and only
    [signAsSigner] looks at the pause flag: with other roles, or (for the
    other entry points) another pause flag, [createCommitment],
    [signAsSigner], [signAsWitness], [freezeCommitment],
    [unfreezeCommitment] and [verifyCommitment] return the same value, log
    the same events and make the same change to the storage. *)
Theorem registry_ignores_roles_and_pause env op s roles b :
  isRegistryOp op = true -> _entered s = false ->
  dispatch env op (set_roles roles s)
  = onState (set_roles roles) (dispatch env op s)
  /\ ((forall i, op ≠ SignAsSigner i) ->
      dispatch env op (set_paused b s)
      = onState (set_paused b) (dispatch env op s)).
Proof.
  intros Hop He. split.
  - apply dispatch_commute; try done. by right.
  - intros Hns. apply dispatch_commute; try done. by left.
Qed.

Lemma registry_ignores_roles_and_pause_witness :
  dispatch (from outsider0) (VerifyCommitment 1)
    (set_roles ∅ completedRegistry)
  = onState (set_roles ∅)
      (dispatch (from outsider0) (VerifyCommitment 1) completedRegistry)
  /\ dispatch (from witness1) (SignAsWitness 1) (set_paused true completedRegistry)
     = onState (set_paused true)
         (dispatch (from witness1) (SignAsWitness 1) completedRegistry).
Proof.
  split.
  - apply (registry_ignores_roles_and_pause (from outsider0) (VerifyCommitment 1)
             completedRegistry ∅ true); reflexivity.
  - apply (registry_ignores_roles_and_pause (from witness1) (SignAsWitness 1)
             completedRegistry ∅ true); [reflexivity|reflexivity|].
    intros i. discriminate.
Defined.

(** *** The log against the storage *)

Lemma countEvents_app p evs1 evs2 :
  countEvents p (evs1 ++ evs2) = (countEvents p evs1 + countEvents p evs2)%nat.
Proof. unfold countEvents. by rewrite List.filter_app, length_app. Qed.

Lemma countEvents_cons p ev evs :
  countEvents p (ev :: evs) = (b2n (p ev) + countEvents p evs)%nat.
Proof. unfold countEvents. simpl. by destruct (p ev). Qed.

Lemma countEvents_nil p : countEvents p [] = 0%nat.
Proof. reflexivity. Qed.

Lemma countEvents_completionLog p env i c :
  (forall j t, p (CommitmentCompleted j t) = false) ->
  countEvents p (completionLog env i c) = 0%nat.
Proof.
  intros Hp. unfold completionLog. destruct (allSigned c); [|done].
  by rewrite countEvents_cons, Hp.
Qed.

Lemma countEvents_none p evs :
  (forall ev, isCommitmentEvent ev = false -> p ev = false) ->
  Forall (fun ev => isCommitmentEvent ev = false) evs ->
  countEvents p evs = 0%nat.
Proof.
  intros Hp. induction 1 as [|ev evs Hev _ IH]; [done|].
  by rewrite countEvents_cons, (Hp ev Hev), IH.
Qed.

Lemma isSignedEvent_eq role i j a r t :
  isSignedEvent role i (CommitmentSigned j a r t)
  = bool_decide (j = i) && bool_decide (r = role).
Proof. reflexivity. Qed.

Lemma witnessSignedCount_completed c :
  witnessSignedCount (completed c) = witnessSignedCount c.
Proof. unfold completed. by destruct (allSigned c). Qed.

Lemma validId_next s i :
  validId (set_commitmentIdCounter (_commitmentIdCounter s + 1) s) i
  = validId s i || bool_decide (i = _commitmentIdCounter s + 1).
Proof.
  apply eq_true_iff_eq. rewrite orb_true_iff, !validId_spec, bool_decide_eq_true.
  simpl. lia.
Qed.

Ltac count_events :=
  rewrite ?countEvents_app, ?countEvents_cons, ?countEvents_nil;
  rewrite ?countEvents_completionLog by done;
  cbn [isCreatedEvent isSignedEvent isVerifiedEvent isFrozenEvent isUnfrozenEvent].

Ltac decide_ids :=
  repeat match goal with
  | |- context [bool_decide (?x = ?x)] =>
      rewrite (bool_decide_eq_true_2 (x = x)) by reflexivity
  | H : ?x ≠ ?y |- context [bool_decide (?x = ?y)] =>
      rewrite (bool_decide_eq_false_2 (x = y)) by exact H
  | |- context [bool_decide (?x = ?y :> string)] =>
      rewrite (bool_decide_eq_false_2 (x = y)) by discriminate
  end.

Lemma commits_logMatches s r s' evs i log :
  Inv s -> commits s r s' evs ->
  logMatches i log s -> logMatches i (log ++ evs) s'.
Proof.
  intros HI Hc (H1 & H2 & H3 & H4 & H5 & H6). unfold logMatches.
  destruct Hc as [s' evs Hsame Hev
                 |env h sg ws j Hh Hsg0 Hsgs Hok Hmax Hj
                 |env j c c1 Hc Hc1 Hp Hv Hf Hs Hss His
                 |env j c c1 Hc Hc1 Hv Hf His Hin Hws Hmax
                 |env j c Hc Hv Hf|env j c Hc Hv Hf|env j c Hc Hv Hnv Hcomp].
  - destruct Hsame as (_ & _ & Hn & Hm & _).
    rewrite !countEvents_app.
    rewrite !(countEvents_none _ evs) by (done || by intros []).
    unfold commitmentAt, validId in *. rewrite Hm, Hn.
    repeat split; lia.
  - subst j.
    change (validId (storeAt _ _ ?st) i) with (validId st i).
    rewrite validId_next. set (j := _commitmentIdCounter s + 1).
    destruct (decide (j = i)) as [<-|Hne].
    + rewrite commitmentAt_storeAt. rewrite commitmentAt_fresh in * by done.
      assert (Hnv : validId s j = false).
      { apply not_true_is_false. rewrite validId_spec. subst j. lia. }
      rewrite Hnv in *. count_events. decide_ids. simpl in *.
      repeat split; lia.
    + rewrite commitmentAt_storeAt_ne by done.
      change (commitmentAt (set_commitmentIdCounter _ s) i)
        with (commitmentAt s i).
      assert (Hne' : i ≠ j) by congruence.
      count_events. decide_ids. rewrite orb_false_r. simpl.
      repeat split; lia.
  - change (validId (storeAt _ _ s) i) with (validId s i).
    destruct (decide (j = i)) as [->|Hne].
    + rewrite commitmentAt_storeAt, signerSigned_completed,
        witnessSignedCount_completed, isVerified_completed, isFrozen_completed.
      subst c c1. rewrite Hss in *. count_events. decide_ids. simpl in *.
      repeat split; lia.
    + rewrite commitmentAt_storeAt_ne by done.
      count_events. decide_ids. simpl. repeat split; lia.
  - change (validId (storeAt _ _ (signWitness _ _ s)) i) with (validId s i).
    destruct (decide (j = i)) as [->|Hne].
    + rewrite commitmentAt_storeAt, signerSigned_completed,
        witnessSignedCount_completed, isVerified_completed, isFrozen_completed.
      subst c c1. count_events. decide_ids. simpl in *.
      repeat split; lia.
    + rewrite commitmentAt_storeAt_ne by done.
      change (commitmentAt (signWitness _ _ s) i) with (commitmentAt s i).
      count_events. decide_ids. simpl. repeat split; lia.
  - change (validId (storeAt _ _ s) i) with (validId s i).
    destruct (decide (j = i)) as [->|Hne].
    + rewrite commitmentAt_storeAt. subst c. rewrite Hf in *.
      count_events. decide_ids. simpl in *. repeat split; lia.
    + rewrite commitmentAt_storeAt_ne by done.
      count_events. decide_ids. simpl. repeat split; lia.
  - change (validId (storeAt _ _ s) i) with (validId s i).
    destruct (decide (j = i)) as [->|Hne].
    + rewrite commitmentAt_storeAt. subst c. rewrite Hf in *.
      count_events. decide_ids. simpl in *. repeat split; lia.
    + rewrite commitmentAt_storeAt_ne by done.
      count_events. decide_ids. simpl. repeat split; lia.
  - change (validId (storeAt _ _ s) i) with (validId s i).
    destruct (decide (j = i)) as [->|Hne].
    + rewrite commitmentAt_storeAt. subst c. rewrite Hnv in *.
      count_events. decide_ids. simpl in *. repeat split; lia.
    + rewrite commitmentAt_storeAt_ne by done.
      count_events. decide_ids. simpl. repeat split; lia.
Qed.

Lemma transact_logMatches s tx i log :
  Inv s -> logMatches i log s ->
  logMatches i (log ++ logs (transact s tx).2) (transact s tx).1.
Proof.
  intros HI Hl.
  destruct (transact_cases s tx HI) as [[e ->]|(r & s' & evs & -> & Hc)].
  - simpl. by rewrite app_nil_r.
  - simpl. by eapply commits_logMatches.
Qed.

Lemma run_logMatches s txs i log :
  Inv s -> logMatches i log s ->
  logMatches i (log ++ allLogs (run s txs).2) (run s txs).1.
Proof.
  revert s log. induction txs as [|tx rest IH]; intros s log HI Hl.
  - simpl. by rewrite app_nil_r.
  - rewrite run_cons. cbn [fst snd]. rewrite allLogs_cons, app_assoc.
    apply IH; [by apply transact_Inv|by apply transact_logMatches].
Qed.

(** X18. The log of an execution from deployment tells the storage it
    ends in.  For every id: [CommitmentCreated] and the initiator's
    [CommitmentSigned] were logged once if the commitment exists and never
    otherwise; the signer's [CommitmentSigned] and [CommitmentVerified]
    were logged once if the flag is set and never otherwise; the number of
    witness [CommitmentSigned] events is [witnessSignedCount]; and
    [CommitmentFrozen] was logged once more than [CommitmentUnfrozen] if
    the commitment is frozen and equally often if not. *)
Theorem log_reflects_storage env admin s0 txs i :
  deploy env admin = Some s0 ->
  let s := (run s0 txs).1 in
  let c := commitmentAt s i in
  let evs := allLogs (run s0 txs).2 in
  countEvents (isCreatedEvent i) evs = b2n (validId s i)
  /\ countEvents (isSignedEvent "initiator" i) evs = b2n (validId s i)
  /\ countEvents (isSignedEvent "signer" i) evs = b2n (signerSigned c)
  /\ N.of_nat (countEvents (isSignedEvent "witness" i) evs) = witnessSignedCount c
  /\ countEvents (isVerifiedEvent i) evs = b2n (isVerified c)
  /\ countEvents (isFrozenEvent i) evs
     = (countEvents (isUnfrozenEvent i) evs + b2n (isFrozen c))%nat.
Proof.
  intros Hd s c evs. pose proof (deploy_Inv _ _ _ Hd) as HI.
  apply (run_logMatches s0 txs i [] HI).
  assert (Hv : validId s0 i = false).
  { apply not_true_is_false. rewrite validId_spec.
    apply deploy_Some in Hd as [_ ->]. simpl. lia. }
  unfold logMatches. rewrite Hv.
  apply deploy_Some in Hd as [_ ->]. by repeat split.
Qed.

Lemma log_reflects_storage_witness :
  deploy (from admin0) admin0 = Some deployed
  /\ countEvents (isSignedEvent "witness" 1) (allLogs (run deployed scenarioB).2)
     = 2%nat
  /\ countEvents (isCreatedEvent 3) (allLogs (run deployed scenarioB).2) = 0%nat.
Proof.
  assert (Hd : deploy (from admin0) admin0 = Some deployed)
    by (vm_compute; reflexivity).
  split; [exact Hd|].
  destruct (log_reflects_storage (from admin0) admin0 deployed scenarioB 1 Hd)
    as (_ & _ & _ & H4 & _).
  destruct (log_reflects_storage (from admin0) admin0 deployed scenarioB 3 Hd)
    as (H1 & _).
  split.
  - apply Nat2N.inj. rewrite H4. vm_compute. reflexivity.
  - rewrite H1. vm_compute. reflexivity.
Defined.

(** *** Everyone signs *)

Lemma Inv_completed_iff s i :
  Inv s -> validId s i = true ->
  isCompleted (commitmentAt s i) = true
  <-> signerSigned (commitmentAt s i) = true
      /\ forall w, w ∈ witnesses (commitmentAt s i) -> witnessSignedAt s i w = true.
Proof.
  intros HI Hv. destruct (Inv_wf s i HI Hv) as (_ & Hin & _ & Hn & Hc & _).
  rewrite Hc. unfold allSigned. rewrite Hin, andb_true_iff, bool_decide_eq_true.
  rewrite <- countSigned_all, Hn. simpl. split.
  - intros [? ?]. split; [done|]. lia.
  - intros [? ?]. split; [done|]. lia.
Qed.

(** The situation kept while the parties sign: the commitment exists, is
    not frozen, the registry is not paused. *)
Lemma signer_step s i t :
  Inv s -> validId s i = true -> _paused s = false ->
  isFrozen (commitmentAt s i) = false ->
  let s1 := (transact s (mkEnv (signer (commitmentAt s i)) t, SignAsSigner i)).1 in
  signerSigned (commitmentAt s1 i) = true
  /\ _paused s1 = false /\ isFrozen (commitmentAt s1 i) = false
  /\ witnesses (commitmentAt s1 i) = witnesses (commitmentAt s i).
Proof.
  intros HI Hv Hp Hf. cbv zeta. unfold transact. cbn [fst snd dispatch].
  rewrite bind_ret_map, signAsSigner_eq by apply (inv_entered s HI).
  cbv zeta. rewrite Hp, Hv, Hf. cbn [msg_sender].
  rewrite bool_decide_eq_true_2 by done.
  destruct (signerSigned (commitmentAt s i)) eqn:Hs; [done|].
  destruct (Inv_wf s i HI Hv) as (_ & Hin & _). rewrite Hin. cbn [fst].
  rewrite commitmentAt_storeAt, signerSigned_completed, isFrozen_completed,
    witnesses_completed.
  done.
Qed.

Lemma witness_step s i w t :
  Inv s -> validId s i = true ->
  isFrozen (commitmentAt s i) = false ->
  w ∈ witnesses (commitmentAt s i) ->
  N.of_nat (length (witnesses (commitmentAt s i))) <= MAX_UINT256 ->
  let s1 := (transact s (mkEnv w t, SignAsWitness i)).1 in
  witnessSignedAt s1 i w = true
  /\ _paused s1 = _paused s /\ isFrozen (commitmentAt s1 i) = false
  /\ witnesses (commitmentAt s1 i) = witnesses (commitmentAt s i).
Proof.
  intros HI Hv Hf Hw Hlen. cbv zeta. unfold transact. cbn [fst snd dispatch].
  rewrite bind_ret_map, signAsWitness_eq by apply (inv_entered s HI).
  cbv zeta. rewrite Hv, Hf. cbn [msg_sender].
  destruct (Inv_wf s i HI Hv) as (_ & Hin & _ & Hn & _). rewrite Hin.
  rewrite (bool_decide_eq_true_2 _ Hw).
  destruct (witnessSignedAt s i w) eqn:Hs; [done|].
  rewrite bool_decide_eq_true_2.
  2:{ pose proof (countSigned_lt _ _ _ Hw Hs). lia. }
  cbn [fst]. rewrite commitmentAt_storeAt, isFrozen_completed, witnesses_completed.
  change (witnessSignedAt (storeAt _ _ ?st) i w) with (witnessSignedAt st i w).
  rewrite witnessSignedAt_signWitness. by rewrite bool_decide_eq_true_2.
Qed.

Lemma witnesses_sign s i t ws :
  Inv s -> validId s i = true ->
  isFrozen (commitmentAt s i) = false ->
  (forall w, w ∈ ws -> w ∈ witnesses (commitmentAt s i)) ->
  N.of_nat (length (witnesses (commitmentAt s i))) <= MAX_UINT256 ->
  let s' := (run s (map (fun w => (mkEnv w t, SignAsWitness i)) ws)).1 in
  (forall w, w ∈ ws -> witnessSignedAt s' i w = true)
  /\ witnesses (commitmentAt s' i) = witnesses (commitmentAt s i).
Proof.
  revert s. induction ws as [|w rest IH]; intros s HI Hv Hf Hin Hlen.
  - split; [|done]. intros w Hw. by apply elem_of_nil in Hw.
  - cbv zeta. rewrite map_cons, run_cons. cbn [fst].
    set (s1 := (transact s (mkEnv w t, SignAsWitness i)).1).
    destruct (witness_step s i w t HI Hv Hf) as (Hw1 & _ & Hf1 & Hws1);
      [apply Hin, list_elem_of_here|done|]. fold s1 in Hw1, Hf1, Hws1.
    pose proof (transact_Inv s (mkEnv w t, SignAsWitness i) HI) as HI1.
    pose proof (transact_validId s (mkEnv w t, SignAsWitness i) i HI Hv) as Hv1.
    fold s1 in HI1, Hv1.
    destruct (IH s1 HI1 Hv1 Hf1) as [Hall Hws'].
    { rewrite Hws1. intros w' Hw'. apply Hin. by apply list_elem_of_further. }
    { by rewrite Hws1. }
    split; [|by rewrite Hws', Hws1].
    intros w' [->|Hw']%elem_of_cons; [|by apply Hall].
    by apply (run_grows s1 _ i HI1).
Qed.

(** X19. A commitment can always be brought to completion: for an
    existing commitment that is not frozen, on a registry that is not
    paused, once the signer and then every listed witness have called
    their signing entry point (those who had signed before are turned
    away), the commitment is completed. *)
Theorem signing_completes env0 admin s0 txs i t :
  deploy env0 admin = Some s0 ->
  let s := (run s0 txs).1 in
  let c := commitmentAt s i in
  validId s i = true -> _paused s = false -> isFrozen c = false ->
  N.of_nat (length (witnesses c)) <= MAX_UINT256 ->
  isCompleted (commitmentAt (run s (signingTxs i t c)).1 i) = true.
Proof.
  intros Hd s c Hv Hp Hf Hlen.
  pose proof (run_Inv s0 txs (deploy_Inv _ _ _ Hd)) as HI. fold s in HI.
  unfold signingTxs. rewrite run_cons. cbn [fst].
  set (s1 := (transact s (mkEnv (signer c) t, SignAsSigner i)).1).
  destruct (signer_step s i t HI Hv Hp Hf) as (Hs1 & _ & Hf1 & Hws1).
  fold c s1 in Hs1, Hf1, Hws1.
  pose proof (transact_Inv s (mkEnv (signer c) t, SignAsSigner i) HI) as HI1.
  pose proof (transact_validId s (mkEnv (signer c) t, SignAsSigner i) i HI Hv) as Hv1.
  fold s1 in HI1, Hv1.
  destruct (witnesses_sign s1 i t (witnesses c) HI1 Hv1 Hf1) as [Hall Hws'].
  { by rewrite Hws1. }
  { by rewrite Hws1. }
  set (s2 := (run s1 _).1) in *.
  pose proof (run_Inv s1 (map (fun w => (mkEnv w t, SignAsWitness i)) (witnesses c)) HI1)
    as HI2.
  destruct (run_sameCreated s1 (map (fun w => (mkEnv w t, SignAsWitness i)) (witnesses c))
              i HI1 Hv1) as [Hv2 _].
  fold s2 in HI2, Hv2.
  apply (Inv_completed_iff s2 i HI2 Hv2). split.
  - by apply (run_grows s1 _ i HI1).
  - rewrite Hws', Hws1. exact Hall.
Qed.

Lemma signing_completes_witness :
  deploy (from admin0) admin0 = Some deployed
  /\ isCompleted
       (commitmentAt
          (run (run deployed
                  (setupTxs ++ [(from police0,
                                 CreateCommitment "0xab" signer0
                                   [witness1; witness2]);
                                (from witness2, SignAsWitness 1)])).1
             [(mkEnv signer0 5, SignAsSigner 1);
              (mkEnv witness1 5, SignAsWitness 1);
              (mkEnv witness2 5, SignAsWitness 1)]).1 1) = true.
Proof.
  assert (Hd : deploy (from admin0) admin0 = Some deployed)
    by (vm_compute; reflexivity).
  split; [exact Hd|].
  apply (signing_completes (from admin0) admin0 deployed
           (setupTxs ++ [(from police0,
                          CreateCommitment "0xab" signer0 [witness1; witness2]);
                         (from witness2, SignAsWitness 1)]) 1 5 Hd).
  - vm_compute. reflexivity.
  - vm_compute. reflexivity.
  - vm_compute. reflexivity.
  - vm_compute. discriminate.
Defined.

(** *** Frozen and completed commitments *)

Lemma sameSignatures_refl i s : sameSignatures i s s.
Proof. done. Qed.

Lemma sameSignatures_trans i s1 s2 s3 :
  sameSignatures i s1 s2 -> sameSignatures i s2 s3 -> sameSignatures i s1 s3.
Proof.
  intros (?&?&?&Ha) (?&?&?&Hb).
  repeat split; first [congruence | intros a; by rewrite Hb, Ha].
Qed.

Lemma frozen_step s env op i :
  Inv s -> validId s i = true -> isFrozen (commitmentAt s i) = true ->
  op ≠ UnfreezeCommitment i ->
  let s' := (transact s (env, op)).1 in
  isFrozen (commitmentAt s' i) = true /\ sameSignatures i s s'.
Proof.
  intros HI Hv Hf Hop. cbv zeta.
  destruct (transact_effectOf s env op HI) as [->|He]; [done|].
  unfold transact in *. cbn [fst snd] in *.
  destruct (dispatch env op s) as [r s' evs|e] eqn:Hd; [|done]. cbn [fst] in *.
  destruct op; cbn [effectOf] in He;
    try (destruct He as (_ & _ & _ & Hm & Hw);
         unfold sameSignatures, commitmentAt, witnessSignedAt;
         by rewrite Hm, Hw).
  - rewrite He. apply validId_spec in Hv.
    unfold sameSignatures.
    rewrite commitmentAt_storeAt_ne by lia. done.
  - destruct (decide (_commitmentId = i)) as [->|Hne].
    + cbn [dispatch] in Hd. bind_inv Hd Hc.
      apply signAsSigner_Success in Hc as (_&_&_&Hnf&_). congruence.
    + destruct He as (_ & _ & ->). unfold sameSignatures.
      by rewrite commitmentAt_storeAt_ne.
  - destruct (decide (_commitmentId = i)) as [->|Hne].
    + cbn [dispatch] in Hd. bind_inv Hd Hc.
      apply signAsWitness_Success in Hc as (_&_&Hnf&_). congruence.
    + destruct He as (_ & _ & ->). unfold sameSignatures.
      rewrite commitmentAt_storeAt_ne by done.
      split; [done|]. split; [done|]. split; [done|]. split; [done|].
      intros a. change (witnessSignedAt (storeAt _ _ ?st) i a)
        with (witnessSignedAt st i a).
      rewrite witnessSignedAt_signWitness.
      rewrite bool_decide_eq_false_2; [done|]. congruence.
  - destruct He as (_ & ->). unfold sameSignatures.
    destruct (decide (_commitmentId = i)) as [->|Hne].
    + by rewrite commitmentAt_storeAt.
    + by rewrite commitmentAt_storeAt_ne.
  - destruct He as (_ & ->). unfold sameSignatures.
    destruct (decide (_commitmentId = i)) as [->|Hne]; [done|].
    by rewrite commitmentAt_storeAt_ne.
  - destruct He as (_ & ->). unfold sameSignatures.
    destruct (decide (_commitmentId = i)) as [->|Hne].
    + by rewrite commitmentAt_storeAt.
    + by rewrite commitmentAt_storeAt_ne.
Qed.

(** X20. Freezing holds the signatures still: from a state in which an
    existing commitment is frozen, over any sequence of transactions that
    contains no [unfreezeCommitment] on it, the commitment stays frozen and
    its signer flag, witness flags, witness counter and completion flag
    stay what they were. *)
Theorem frozen_signatures_stable env0 admin s0 txs1 txs2 i :
  deploy env0 admin = Some s0 ->
  let s := (run s0 txs1).1 in
  let s' := (run s txs2).1 in
  validId s i = true -> isFrozen (commitmentAt s i) = true ->
  Forall (fun tx => tx.2 ≠ UnfreezeCommitment i) txs2 ->
  isFrozen (commitmentAt s' i) = true
  /\ signerSigned (commitmentAt s' i) = signerSigned (commitmentAt s i)
  /\ witnessSignedCount (commitmentAt s' i) = witnessSignedCount (commitmentAt s i)
  /\ isCompleted (commitmentAt s' i) = isCompleted (commitmentAt s i)
  /\ forall a, witnessSignedAt s' i a = witnessSignedAt s i a.
Proof.
  intros Hd s s' Hv Hf Hall.
  pose proof (run_Inv s0 txs1 (deploy_Inv _ _ _ Hd)) as HI. fold s in HI.
  cut (isFrozen (commitmentAt s' i) = true /\ sameSignatures i s s'); [done|].
  subst s'. clearbody s. clear Hd.
  revert s HI Hv Hf. induction Hall as [|[env op] rest Hop _ IH]; intros s HI Hv Hf.
  - done.
  - rewrite run_cons. cbn [fst].
    destruct (frozen_step s env op i HI Hv Hf Hop) as [Hf1 Hs1].
    destruct (IH _ (transact_Inv s (env, op) HI)
                (transact_validId s (env, op) i HI Hv) Hf1) as [Hf2 Hs2].
    split; [done|]. by eapply sameSignatures_trans.
Qed.

Lemma frozen_signatures_stable_witness :
  deploy (from admin0) admin0 = Some deployed
  /\ isFrozen (commitmentAt
                 (run frozenRegistry [(from signer0, SignAsSigner 1);
                                      (from outsider0, VerifyCommitment 1);
                                      (from emergency0, FreezeCommitment 1)]).1 1)
     = true.
Proof.
  assert (Hd : deploy (from admin0) admin0 = Some deployed)
    by (vm_compute; reflexivity).
  split; [exact Hd|].
  destruct (frozen_signatures_stable (from admin0) admin0 deployed frozenTxs
              [(from signer0, SignAsSigner 1);
               (from outsider0, VerifyCommitment 1);
               (from emergency0, FreezeCommitment 1)] 1 Hd) as [H _].
  - vm_compute. reflexivity.
  - vm_compute. reflexivity.
  - repeat constructor; discriminate.
  - exact H.
Defined.

(** X21. Completion is final: once a commitment is completed, no later
    transaction changes its signer flag, witness flags, witness counter or
    completion flag, and every later [signAsSigner] or [signAsWitness] on it
    reverts, whoever calls. *)
Theorem completed_is_final env0 admin s0 txs1 txs2 env i :
  deploy env0 admin = Some s0 ->
  let s := (run s0 txs1).1 in
  let s' := (run s txs2).1 in
  isCompleted (commitmentAt s i) = true ->
  isCompleted (commitmentAt s' i) = true
  /\ signerSigned (commitmentAt s' i) = signerSigned (commitmentAt s i)
  /\ witnessSignedCount (commitmentAt s' i) = witnessSignedCount (commitmentAt s i)
  /\ (forall a, witnessSignedAt s' i a = witnessSignedAt s i a)
  /\ (exists e, signAsSigner env i s' = Reverted e)
  /\ (exists e, signAsWitness env i s' = Reverted e).
Proof.
  intros Hd s s' Hc. pose proof (deploy_Inv _ _ _ Hd) as HI0.
  pose proof (run_Inv s0 txs1 HI0) as HI. fold s in HI.
  pose proof (run_Inv2 s0 txs1 HI0 (deploy_Inv2 _ _ _ Hd)) as HJ. fold s in HJ.
  pose proof (run_Inv s txs2 HI) as HI'. fold s' in HI'.
  pose proof (run_Inv2 s txs2 HI HJ) as HJ'. fold s' in HJ'.
  assert (Hv : validId s i = true).
  { destruct (validId s i) eqn:Hv; [done|].
    by rewrite commitmentAt_invalid in Hc. }
  destruct (run_sameCreated s txs2 i HI Hv) as [Hv' (_&_&_&Hws&_)].
  destruct (run_grows s txs2 i HI) as [(_ & Hgs & Hgc & _ & Hcnt) Hgw].
  fold s' in Hv', Hws, Hgs, Hgc, Hcnt, Hgw.
  apply (Inv_completed_iff s i HI Hv) in Hc as Hall. destruct Hall as [Hs Hall].
  pose proof (Inv_completed s i HI Hc) as (_ & _ & Hlen).
  pose proof (Inv_count_le s' i HI') as Hle. rewrite Hws in Hle.
  assert (Hflags : forall a, witnessSignedAt s' i a = witnessSignedAt s i a).
  { intros a. destruct (witnessSignedAt s i a) eqn:Ha; [by apply Hgw|].
    apply not_true_is_false. intros Ha'.
    apply (HJ' i _ (Inv_lookup s' i HI' Hv')) in Ha'. rewrite Hws in Ha'.
    apply Hall in Ha'. congruence. }
  split; [by apply Hgc|]. split; [by rewrite Hs, (Hgs Hs)|].
  split; [lia|]. split; [exact Hflags|]. split.
  - destruct (signAsSigner env i s') as [u s'' evs|e] eqn:Hx; [|eauto].
    apply signAsSigner_Success in Hx as (_&_&_&_&_&Hn&_).
    rewrite (Hgs Hs) in Hn. done.
  - destruct (signAsWitness env i s') as [u s'' evs|e] eqn:Hx; [|eauto].
    apply signAsWitness_Success in Hx as (_&_&_&_&Hin&Hn&_).
    rewrite Hws in Hin. apply Hall in Hin. rewrite Hflags in Hn. congruence.
Qed.

Lemma completed_is_final_witness :
  deploy (from admin0) admin0 = Some deployed
  /\ (exists e, signAsWitness (from witness1) 1
                  (run completedRegistry
                     [(from emergency0, FreezeCommitment 1);
                      (from emergency0, UnfreezeCommitment 1)]).1 = Reverted e).
Proof.
  assert (Hd : deploy (from admin0) admin0 = Some deployed)
    by (vm_compute; reflexivity).
  split; [exact Hd|].
  destruct (completed_is_final (from admin0) admin0 deployed completedTxs
              [(from emergency0, FreezeCommitment 1);
               (from emergency0, UnfreezeCommitment 1)] (from witness1) 1 Hd)
    as (_ & _ & _ & _ & _ & H).
  - vm_compute. reflexivity.
  - exact H.
Defined.
